(** * LabPulse: dependency and schedule engine

    A shallow embedding of the task-planning logic of the LabPulse board
    (utils.ts, App.tsx, the experiment wizard and the experiment details
    view) together with the properties its specification states about it.

    Conventions of the embedding:
    - TypeScript [string] is [string]; [number] is [Z] wherever the code
      only counts weeks or days; [Set<string>] and [Map<string, _>] are
      stdpp's [gset] and [gmap];
    - a React state updater [setData(prev => next)] is the pure function
      [prev -> next];
    - a function that can throw returns [option] (or a sum), [None] being
      the thrown exception;
    - [generateUUID()] draws from an explicit supply of identifiers that is
      threaded through the code in a small state monad. *)

From Stdlib Require Import ZArith List Bool Ascii String DecimalString Lia.
From stdpp Require Import base option list strings gmap.

Open Scope string_scope.
Open Scope list_scope.
Open Scope Z_scope.

(** ** Data model (types.ts) *)

Inductive TaskStatus := DEFAULT | IMPORTANT | WARNING | INFO | COMPLETED.

Record Attachment := mkAttachment {
  att_id : string;
  att_name : string;
  att_url : string;
  att_type : string
}.

Record RecurrenceConfig := mkRecurrence {
  intervalWeeks : Z;
  durationWeeks : Z
}.

Module PlanTaskItem.
Record t := mk {
  id : string;
  title : string;
  description : string;
  weekOffset : Z;
  importance : Z;
  status : TaskStatus;
  recurrence : option RecurrenceConfig;
  dependencies : list string
}.
End PlanTaskItem.

Module Task.
Record t := mk {
  id : string;
  experimentId : string;
  title : string;
  description : string;
  weekId : string;
  status : TaskStatus;
  importance : Z;
  completed : bool;
  tags : list string;
  attachments : list Attachment;
  dependencies : list string;
  recurrenceGroupId : option string;
  planTaskId : option string
}.

(** [{ ...t, weekId: w }] *)
Definition with_weekId (w : string) (x : t) : t :=
  mk (id x) (experimentId x) (title x) (description x) w (status x)
     (importance x) (completed x) (tags x) (attachments x)
     (dependencies x) (recurrenceGroupId x) (planTaskId x).

(** [{ ...t, dependencies: ds }] *)
Definition with_dependencies (ds : list string) (x : t) : t :=
  mk (id x) (experimentId x) (title x) (description x) (weekId x) (status x)
     (importance x) (completed x) (tags x) (attachments x)
     ds (recurrenceGroupId x) (planTaskId x).
End Task.

Inductive ExperimentStatus := active | archived.

Record ExperimentStyle := mkStyle {
  backgroundColor : option string;
  textColor : option string
}.

Module Experiment.
Record t := mk {
  id : string;
  name : string;
  description : string;
  collaborators : list string;
  startDate : string;
  endDate : option string;
  expectedWeeks : Z;
  status : ExperimentStatus;
  attachments : list Attachment;
  proposalText : option string;
  originalPlan : option (list PlanTaskItem.t);
  style : option ExperimentStyle;
  aiInsights : option (list string)
}.

(** [{ ...e, endDate: d }] *)
Definition with_endDate (d : option string) (x : t) : t :=
  mk (id x) (name x) (description x) (collaborators x) (startDate x) d
     (expectedWeeks x) (status x) (attachments x) (proposalText x)
     (originalPlan x) (style x) (aiInsights x).
End Experiment.

(** The part of [AppData] the handlers below read or write; the AI
    settings and the saved summaries are carried along untouched by every
    handler modelled here and are left out. *)
Module AppData.
Record t := mk {
  experiments : list Experiment.t;
  tasks : list Task.t;
  schemaVersion : Z;
  hiddenWeeks : list string
}.
End AppData.

(** ** Blocked-status derivation (utils.ts, isTaskBlocked) *)

(** [allTasks.find(t => t.id === depId)] *)
Definition findTask (allTasks : list Task.t) (depId : string) : option Task.t :=
  List.find (fun t => String.eqb (Task.id t) depId) allTasks.

(** [dependencies] is always an array here, so the guard
    [!task.dependencies || task.dependencies.length === 0] is the length
    test; [some] coerces [depTask && !depTask.completed] to a boolean. *)
Definition isTaskBlocked (task : Task.t) (allTasks : list Task.t) : bool :=
  if (length (Task.dependencies task) =? 0)%nat then false
  else
    existsb (fun depId =>
               match findTask allTasks depId with
               | Some depTask => negb (Task.completed depTask)
               | None => false
               end)
            (Task.dependencies task).

(** ** Cycle guard (utils.ts, hasCircularDependency) *)

(** [allTasks.forEach(t => adj.set(t.id, [...t.dependencies]))]: a later
    task with the same id overwrites the entry of an earlier one. *)
Definition buildAdj (allTasks : list Task.t) : gmap string (list string) :=
  fold_left (fun adj t => <[Task.id t := Task.dependencies t]> adj) allTasks ∅.

(** [adj.get(curr) || []] *)
Definition neighborsOf (adj : gmap string (list string)) (curr : string) : list string :=
  default [] (adj !! curr).

(** The two sets the traversal mutates. *)
Record DfsState := mkDfsState {
  visited : gset string;
  recursionStack : gset string
}.

(** The [for (const neighbor of neighbors)] loop of [isCyclic]; [recurse] is
    the recursive call.  It returns [true] as soon as a cycle is found and
    [false] when the loop runs to its end. *)
Fixpoint forNeighbors (recurse : string -> DfsState -> option (bool * DfsState))
    (neighbors : list string) (st : DfsState) : option (bool * DfsState) :=
  match neighbors with
  | [] => Some (false, st)
  | neighbor :: rest =>
      if negb (bool_decide (neighbor ∈ visited st)) then
        match recurse neighbor st with
        | None => None
        | Some (true, st') => Some (true, st')
        | Some (false, st') => forNeighbors recurse rest st'
        end
      else if bool_decide (neighbor ∈ recursionStack st) then Some (true, st)
      else forNeighbors recurse rest st
  end.

(** The inner function [isCyclic(curr)]; [None] when the fuel runs out. *)
Fixpoint isCyclic (fuel : nat) (adj : gmap string (list string)) (curr : string)
    (st : DfsState) : option (bool * DfsState) :=
  match fuel with
  | O => None
  | S fuel' =>
      let st1 := mkDfsState ({[curr]} ∪ visited st) ({[curr]} ∪ recursionStack st) in
      match forNeighbors (isCyclic fuel' adj) (neighborsOf adj curr) st1 with
      | None => None
      | Some (true, st2) => Some (true, st2)
      | Some (false, st2) =>
          Some (false, mkDfsState (visited st2) (recursionStack st2 ∖ {[curr]}))
      end
  end.

(** Every identifier the traversal can meet; one unit of fuel per identifier
    (and one to spare) lets every call return. *)
Definition mentionedIds (allTasks : list Task.t) (taskId newDependencyId : string)
  : list string :=
  taskId :: newDependencyId ::
    List.concat (List.map (fun t => Task.id t :: Task.dependencies t) allTasks).

(** The guard itself; it never returns [None] (see [hasCircularDependency_adj]). *)
Definition hasCircularDependency (allTasks : list Task.t)
    (taskId newDependencyId : string) : option bool :=
  if String.eqb taskId newDependencyId then Some true
  else
    let adj := buildAdj allTasks in
    let currentDeps := neighborsOf adj taskId in
    let adj := <[taskId := currentDeps ++ [newDependencyId]]> adj in
    fst <$> isCyclic (S (length (mentionedIds allTasks taskId newDependencyId)))
                     adj taskId (mkDfsState ∅ ∅).

(** ** Task deletion (App.tsx, handleDeleteTask) *)

(** [deps.includes(taskId)] *)
Definition includes (deps : list string) (x : string) : bool :=
  existsb (String.eqb x) deps.

Definition handleDeleteTask (taskId : string) (prev : AppData.t) : AppData.t :=
  let remainingTasks :=
    List.filter (fun t => negb (String.eqb (Task.id t) taskId)) (AppData.tasks prev) in
  let cleanTasks :=
    List.map (fun t =>
           if includes (Task.dependencies t) taskId then
             Task.with_dependencies
               (List.filter (fun d => negb (String.eqb d taskId)) (Task.dependencies t)) t
           else t)
        remainingTasks in
  AppData.mk (AppData.experiments prev) cleanTasks
             (AppData.schemaVersion prev) (AppData.hiddenWeeks prev).

(** ** Calendar dates (date-fns over the JavaScript Date)

    date-fns is a dependency of the repository, not part of it.  Its
    functions are embedded here from their documented behaviour and from
    the day arithmetic ECMA-262 prescribes for [Date] (sections on
    DayFromYear, YearFromTime, MonthFromTime, DateFromTime and MakeDay).
    A date is a local wall-clock instant: a day number counted from
    1970-01-01 and the milliseconds elapsed since that day's midnight.
    In this module the clocks of the local time zone never change, so
    every wall-clock time exists; [LocalTime] below adds clock changes
    for the functions whose results depend on them. *)

Module DateFns.

Record DateTime := mkDateTime { dayNumber : Z; msOfDay : Z }.

(** A JavaScript [Date]: [None] is the Invalid Date. *)
Definition JsDate := option DateTime.

Definition msPerDay : Z := 86400000.

(** ECMA-262 TimeClip: instants beyond 8.64e15 ms from the epoch are invalid. *)
Definition timeClip (d : DateTime) : JsDate :=
  if Z.abs (dayNumber d * msPerDay + msOfDay d) <=? 8640000000000000
  then Some d else None.

Definition isLeapYear (y : Z) : bool :=
  (y mod 4 =? 0) && (negb (y mod 100 =? 0) || (y mod 400 =? 0)).

Definition daysInYear (y : Z) : Z := if isLeapYear y then 366 else 365.

Definition dayFromYear (y : Z) : Z :=
  365 * (y - 1970) + (y - 1969) / 4 - (y - 1901) / 100 + (y - 1601) / 400.

(** YearFromTime: the largest [y] with [dayFromYear y <= d], found from the
    mean year length (146097 days in 400 years) and one correction step. *)
Definition yearFromDay (d : Z) : Z :=
  let y0 := 1970 + (d * 400) / 146097 in
  if dayFromYear (y0 + 1) <=? d then y0 + 1
  else if dayFromYear y0 <=? d then y0
  else y0 - 1.

(** First day-within-year of month [m] (0 = January), as in MonthFromTime. *)
Definition monthStart (leap : bool) (m : Z) : Z :=
  let l := if leap then 1 else 0 in
  if m <=? 0 then 0
  else if m =? 1 then 31
  else if m =? 2 then 59 + l
  else if m =? 3 then 90 + l
  else if m =? 4 then 120 + l
  else if m =? 5 then 151 + l
  else if m =? 6 then 181 + l
  else if m =? 7 then 212 + l
  else if m =? 8 then 243 + l
  else if m =? 9 then 273 + l
  else if m =? 10 then 304 + l
  else if m =? 11 then 334 + l
  else 365 + l.

Definition monthFromDayInYear (leap : bool) (diy : Z) : Z :=
  if diy <? monthStart leap 1 then 0
  else if diy <? monthStart leap 2 then 1
  else if diy <? monthStart leap 3 then 2
  else if diy <? monthStart leap 4 then 3
  else if diy <? monthStart leap 5 then 4
  else if diy <? monthStart leap 6 then 5
  else if diy <? monthStart leap 7 then 6
  else if diy <? monthStart leap 8 then 7
  else if diy <? monthStart leap 9 then 8
  else if diy <? monthStart leap 10 then 9
  else if diy <? monthStart leap 11 then 10
  else 11.

(** [getFullYear], [getMonth] (0-based), [getDate] (1-based), [getDay]. *)
Definition getFullYear (d : DateTime) : Z := yearFromDay (dayNumber d).

Definition dayInYear (d : DateTime) : Z :=
  dayNumber d - dayFromYear (getFullYear d).

Definition getMonth (d : DateTime) : Z :=
  monthFromDayInYear (isLeapYear (getFullYear d)) (dayInYear d).

Definition getDate (d : DateTime) : Z :=
  dayInYear d - monthStart (isLeapYear (getFullYear d)) (getMonth d) + 1.

(** 1970-01-01 was a Thursday; Sunday is 0. *)
Definition getDay (d : DateTime) : Z := (dayNumber d + 4) mod 7.

(** MakeDay for a month index within 0..11. *)
Definition makeDay (y m dt : Z) : Z :=
  dayFromYear y + monthStart (isLeapYear y) m + dt - 1.

(** [date.setDate(date.getDate() + n)]: move by [n] days, same time of day. *)
Definition shiftDays (d : DateTime) (n : Z) : JsDate :=
  timeClip (mkDateTime (dayNumber d + n) (msOfDay d)).

(** [addDays(date, amount)] and [addWeeks(date, amount) = addDays(date, amount * 7)]. *)
Definition addDays (date : JsDate) (amount : Z) : JsDate :=
  d ← date;
  if amount =? 0 then Some d else shiftDays d amount.

Definition addWeeks (date : JsDate) (amount : Z) : JsDate :=
  addDays date (amount * 7).

(** [startOfWeek(date, { weekStartsOn })]. *)
Definition startOfWeek (date : JsDate) (weekStartsOn : Z) : JsDate :=
  d ← date;
  let day := getDay d in
  let diff := (if day <? weekStartsOn then 7 else 0) + day - weekStartsOn in
  d' ← shiftDays d (- diff);
  timeClip (mkDateTime (dayNumber d') 0).

Definition isValid (date : JsDate) : bool :=
  match date with Some _ => true | None => false end.

(** *** Formatting with the pattern yyyy-MM-dd *)

(** [Math.abs(number).toString()] for an integer. *)
Definition toString (n : Z) : string :=
  NilZero.string_of_uint (N.to_uint (Z.to_N (Z.abs n))).

(** [s.padStart(targetLength, "0")] *)
Definition padStart0 (s : string) (targetLength : nat) : string :=
  String.concat "" (repeat "0" (targetLength - String.length s)%nat) +:+ s.

Definition addLeadingZeros (number : Z) (targetLength : nat) : string :=
  let sign := if number <? 0 then "-" else "" in
  sign +:+ padStart0 (toString number) targetLength.

(** The token [yyyy] prints the year of the era: 1 BC is JavaScript's year 0. *)
Definition yearOfEra (signedYear : Z) : Z :=
  if 0 <? signedYear then signedYear else 1 - signedYear.

(** [format(date, 'yyyy-MM-dd')]; throws RangeError on the Invalid Date. *)
Definition formatValid (d : DateTime) : string :=
  addLeadingZeros (yearOfEra (getFullYear d)) 4 +:+ "-" +:+
  addLeadingZeros (getMonth d + 1) 2 +:+ "-" +:+
  addLeadingZeros (getDate d) 2.

Definition format (date : JsDate) : option string :=
  d ← date;
  Some (formatValid d).

(** *** Parsing the calendar-date form YYYY-MM-DD

    [parseISO] also reads other ISO 8601 forms (week dates, ordinal dates,
    times, expanded years); the board only exchanges the ten-character
    calendar date produced by [format] and by HTML date inputs, and that
    is the form embedded here: any other argument is reported as the
    Invalid Date. *)

Definition digitOf (c : ascii) : option Z :=
  let n := Z.of_nat (nat_of_ascii c) in
  if (48 <=? n) && (n <=? 57) then Some (n - 48) else None.

Fixpoint digitsValue (acc : Z) (cs : list ascii) : option Z :=
  match cs with
  | [] => Some acc
  | c :: cs' => v ← digitOf c; digitsValue (10 * acc + v) cs'
  end.

Definition daysInMonth (y m : Z) : Z :=
  monthStart (isLeapYear y) (m + 1) - monthStart (isLeapYear y) m.

(** date-fns [validateDate(year, month, date)], month 0-based. *)
Definition validateDate (y m dt : Z) : bool :=
  (0 <=? m) && (m <=? 11) && (1 <=? dt) && (dt <=? daysInMonth y m).

Definition parseISO (s : string) : JsDate :=
  match s with
  | String y1 (String y2 (String y3 (String y4 (String sep1
      (String m1 (String m2 (String sep2 (String d1 (String d2 EmptyString))))))))) =>
      if Ascii.eqb sep1 "-" && Ascii.eqb sep2 "-" then
        y ← digitsValue 0 [y1; y2; y3; y4];
        m ← digitsValue 0 [m1; m2];
        dt ← digitsValue 0 [d1; d2];
        if validateDate y (m - 1) dt
        then Some (mkDateTime (makeDay y (m - 1) dt) 0)
        else None
      else None
  | _ => None
  end.

End DateFns.

(** ** Canonical week ids (utils.ts, normalizeToSunday) *)

(** The argument type [Date | string]. *)
Inductive DateOrString :=
| ofDate (d : DateFns.JsDate)
| ofString (s : string).

(** [typeof date === 'string' ? parseISO(date) : date] *)
Definition toJsDate (date : DateOrString) : DateFns.JsDate :=
  match date with
  | ofString s => DateFns.parseISO s
  | ofDate d => d
  end.

Definition normalizeToSunday (date : DateOrString) : option string :=
  let d := toJsDate date in
  DateFns.format (DateFns.startOfWeek d 0).

(** ** Local time with clock changes

    date-fns reads and sets a [Date] through its local (wall-clock)
    fields.  Where the clocks of the local time zone are put forward, a
    stretch of wall-clock time does not exist, and a [Date] whose fields
    are set to a time in it shows the time that much later (ECMA-262,
    LocalTime and UTC: a skipped local time is read with the offset in
    force before the change).  A stretch that occurs twice, where the
    clocks are put back, makes no difference to functions that read
    wall-clock fields only, as all those below do.  The range of the time
    value (TimeClip) is checked on the wall-clock reading, which differs
    from the time value by the offset of the zone, less than a day at
    273,000 years from the epoch. *)

Module LocalTime.
Import DateFns.

(** [gap day = Some (from, length)]: on [day] the wall-clock times from
    [from] (inclusive) to [from + length] (exclusive), in milliseconds
    since that day's midnight, are skipped. *)
Record TimeZone := mkTimeZone { gap : Z -> option (Z * Z) }.

Definition noClockChanges : TimeZone := mkTimeZone (fun _ => None).

(** The clocks are put forward by one hour at midnight of [day], as in
    America/Santiago on 2024-09-08 or Africa/Cairo on 2024-04-26. *)
Definition forwardAtMidnight (day : Z) : TimeZone :=
  mkTimeZone (fun d => if d =? day then Some (0, 3600000) else None).

(** What a [Date] shows once its fields have been set to [ms] on [day]. *)
Definition resolve (tz : TimeZone) (day ms : Z) : DateTime :=
  match gap tz day with
  | Some (from, len) =>
      if (from <=? ms) && (ms <? from + len)
      then mkDateTime (day + (ms + len) / msPerDay) ((ms + len) mod msPerDay)
      else mkDateTime day ms
  | None => mkDateTime day ms
  end.

Section Zone.
Variable tz : TimeZone.

(** [date.setDate(date.getDate() + n)]: the same time of day [n] days on. *)
Definition shiftDays (d : DateTime) (n : Z) : JsDate :=
  timeClip (resolve tz (dayNumber d + n) (msOfDay d)).

(** [date.setHours(0, 0, 0, 0)] *)
Definition setMidnight (d : DateTime) : JsDate :=
  timeClip (resolve tz (dayNumber d) 0).

(** [parseISO] of a calendar date sets the fields of a fresh [Date] to the
    year, month and day read ([setFullYear]) and then its time to midnight
    ([setHours]); the first step keeps the day as long as no clock change
    skips past the end of a day. *)
Definition parseISO (s : string) : JsDate :=
  d ← DateFns.parseISO s;
  setMidnight d.

Definition addDays (date : JsDate) (amount : Z) : JsDate :=
  d ← date;
  if amount =? 0 then Some d else shiftDays d amount.

Definition addWeeks (date : JsDate) (amount : Z) : JsDate :=
  addDays date (amount * 7).

Definition startOfWeek (date : JsDate) (weekStartsOn : Z) : JsDate :=
  d ← date;
  let day := getDay d in
  let diff := (if day <? weekStartsOn then 7 else 0) + day - weekStartsOn in
  d' ← shiftDays d (- diff);
  setMidnight d'.

(** [startOfDay] of a valid date. *)
Definition startOfDay (d : DateTime) : DateTime := resolve tz (dayNumber d) 0.

(** The wall-clock reading as one number: what a [Date] is worth once its
    time zone offset has been taken off
    ([+date - getTimezoneOffsetInMilliseconds(date)]). *)
Definition wallClock (d : DateTime) : Z := dayNumber d * msPerDay + msOfDay d.

(** [Math.round(a / b)] for [b > 0]: halves go up. *)
Definition roundDiv (a b : Z) : Z := (2 * a + b) / (2 * b).

(** [differenceInCalendarDays]: the starts of the two days, a day being
    24 hours long on the wall clock. *)
Definition differenceInCalendarDays (l r : DateTime) : Z :=
  roundDiv (wallClock (startOfDay l) - wallClock (startOfDay r)) msPerDay.

(** [compareLocalAsc]: the sign of [l - r], compared field by field. *)
Definition compareLocalAsc (l r : DateTime) : Z :=
  Z.sgn (wallClock l - wallClock r).

(** [differenceInDays]: full days between the two dates.  The left date is
    moved by [setDate] to the day of the right one; if it then lies on the
    other side of it, the last day was not a full one. *)
Definition differenceInDays (l r : DateTime) : Z :=
  let sign := compareLocalAsc l r in
  let difference := Z.abs (differenceInCalendarDays l r) in
  let l' := resolve tz (dayNumber l - sign * difference) (msOfDay l) in
  let isLastDayNotFull := if compareLocalAsc l' r =? - sign then 1 else 0 in
  sign * (difference - isLastDayNotFull).

(** [differenceInWeeks]: [differenceInDays / 7] rounded towards zero. *)
Definition differenceInWeeks (l r : DateTime) : Z :=
  Z.quot (differenceInDays l r) 7.

(** [normalizeToSunday] in the time zone [tz]. *)
Definition toJsDate (date : DateOrString) : JsDate :=
  match date with
  | ofString s => parseISO s
  | ofDate d => d
  end.

Definition normalizeToSunday (date : DateOrString) : option string :=
  let d := toJsDate date in
  format (startOfWeek d 0).

End Zone.
End LocalTime.

(** ** Week offsets in the plan table (ExperimentDetailsModal, handleRowChange) *)

(** A row of the plan table: a plan item with the date it is placed on. *)
Record PlanRow := mkPlanRow {
  rowItem : PlanTaskItem.t;
  actualTaskId : option string;
  actualDate : string
}.

Definition with_weekOffset (w : Z) (p : PlanTaskItem.t) : PlanTaskItem.t :=
  PlanTaskItem.mk (PlanTaskItem.id p) (PlanTaskItem.title p) (PlanTaskItem.description p)
                  w (PlanTaskItem.importance p) (PlanTaskItem.status p)
                  (PlanTaskItem.recurrence p) (PlanTaskItem.dependencies p).

(** The two edits of a row that touch its placement. *)
Inductive RowEdit :=
| editWeekOffset (value : Z)
| editActualDate (value : string).

Section PlanTableDates.
(** The time zone of the browser. *)
Variable tz : LocalTime.TimeZone.

(** The date shown for a week offset: the branch [field === 'weekOffset']. *)
Definition dateFromOffset (startDate : DateFns.JsDate) (n : Z) : option string :=
  LocalTime.normalizeToSunday tz (ofDate (LocalTime.addWeeks tz startDate n)).

(** The offset shown for a date: the branch [field === 'actualDate']. *)
Definition weekOffsetOf (startDate newDate : DateFns.DateTime) : Z :=
  LocalTime.differenceInWeeks tz newDate startDate.

Definition handleRowChange (editedStartDate : string) (row : PlanRow) (e : RowEdit)
  : option PlanRow :=
  match e with
  | editWeekOffset value =>
      let row1 := mkPlanRow (with_weekOffset value (rowItem row))
                            (actualTaskId row) (actualDate row) in
      let startDate := LocalTime.parseISO tz editedStartDate in
      if DateFns.isValid startDate then
        d ← dateFromOffset startDate value;
        Some (mkPlanRow (rowItem row1) (actualTaskId row1) d)
      else Some row1
  | editActualDate value =>
      let row1 := mkPlanRow (rowItem row) (actualTaskId row) value in
      match LocalTime.parseISO tz editedStartDate, LocalTime.parseISO tz value with
      | Some startDate, Some newDate =>
          Some (mkPlanRow (with_weekOffset (weekOffsetOf startDate newDate) (rowItem row1))
                          (actualTaskId row1) (actualDate row1))
      | _, _ => Some row1
      end
  end.

End PlanTableDates.

(** ** Timeline shift (App.tsx, handleShiftExperimentTimeline) *)

(** Truthiness of an optional string field: [undefined] and [""] are falsy. *)
Definition truthy (s : option string) : bool :=
  match s with
  | Some v => negb (String.eqb v "")
  | None => false
  end.

Definition handleShiftExperimentTimeline
    (experimentId : string) (weeksToShift : Z) (prev : AppData.t) : option AppData.t :=
  updatedTasks ←
    mapM (fun t =>
            if String.eqb (Task.experimentId t) experimentId && negb (Task.completed t)
            then
              w ← normalizeToSunday
                    (ofDate (DateFns.addWeeks (DateFns.parseISO (Task.weekId t)) weeksToShift));
              Some (Task.with_weekId w t)
            else Some t)
         (AppData.tasks prev);
  updatedExperiments ←
    mapM (fun e =>
            if String.eqb (Experiment.id e) experimentId
            then
              match Experiment.endDate e with
              | Some endDate =>
                  if truthy (Some endDate) then
                    w ← normalizeToSunday
                          (ofDate (DateFns.addWeeks (DateFns.parseISO endDate) weeksToShift));
                    Some (Experiment.with_endDate (Some w) e)
                  else Some (Experiment.with_endDate None e)
              | None => Some (Experiment.with_endDate None e)
              end
            else Some e)
         (AppData.experiments prev);
  Some (AppData.mk updatedExperiments updatedTasks
                   (AppData.schemaVersion prev) (AppData.hiddenWeeks prev)).

(** ** Plan expansion (ExperimentWizard, handleFinish)

    [generateUUID()] concatenates two [Math.random()] draws; the successive
    results are taken from a supply [uuid 0, uuid 1, ...] and the index of
    the next one is the state.  A computation ends normally, throws (the
    RangeError of [format] on an Invalid Date), or is cut off when the fuel
    given to a [for] loop runs out. *)

Inductive Outcome (A : Type) :=
| Done (a : A)
| Throws
| OutOfFuel.
Arguments Done {A} a.
Arguments Throws {A}.
Arguments OutOfFuel {A}.

Definition Gen (A : Type) : Type := nat -> Outcome A * nat.

Definition ret {A} (a : A) : Gen A := fun k => (Done a, k).

Definition bind {A B} (c : Gen A) (f : A -> Gen B) : Gen B :=
  fun k =>
    match c k with
    | (Done a, k') => f a k'
    | (Throws, k') => (Throws, k')
    | (OutOfFuel, k') => (OutOfFuel, k')
    end.

Notation "'do' x <- c ; f" := (bind c (fun x => f))
  (at level 10, x name, c at level 100, f at level 200).

(** A call that may throw. *)
Definition orThrow {A} (o : option A) : Gen A :=
  fun k => (match o with Some a => Done a | None => Throws end, k).

(** [String(n)] for an integer. *)
Definition numberToString (n : Z) : string :=
  (if n <? 0 then "-" else "") +:+ DateFns.toString n.

(** A draft of the wizard: [EditableTask extends PlanTaskItem]. *)
Record EditableTask := mkEditableTask {
  draftItem : PlanTaskItem.t;
  isSelected : bool;
  originalDependencyIndex : option Z
}.

Section Wizard.

(** The identifiers [generateUUID()] returns, in the order of the calls. *)
Variable uuid : nat -> string.

Definition generateUUID : Gen string := fun k => (Done (uuid k), S k).

(** [for (let w = 0; w < durationWeeks; w += intervalWeeks) { ...; count++ }],
    entered with the current [w], [count] and [finalTasks]. *)
Fixpoint recurrenceLoop (fuel : nat) (startDate experimentId groupId : string)
    (draft : PlanTaskItem.t) (intervalWeeks durationWeeks : Z)
    (w count : Z) (finalTasks : list Task.t) : Gen (list Task.t) :=
  match fuel with
  | O => fun k => (OutOfFuel, k)
  | S fuel' =>
      if w <? durationWeeks then
        do id <- generateUUID;
        do weekId <- orThrow
          (normalizeToSunday
             (ofDate (DateFns.addWeeks (DateFns.parseISO startDate)
                                       (PlanTaskItem.weekOffset draft + w))));
        let task :=
          Task.mk id experimentId
                  (PlanTaskItem.title draft +:+ " (" +:+ numberToString (count + 1) +:+ ")")
                  (PlanTaskItem.description draft) weekId
                  (PlanTaskItem.status draft) (PlanTaskItem.importance draft)
                  false [] [] [] (Some groupId) (Some (PlanTaskItem.id draft)) in
        recurrenceLoop fuel' startDate experimentId groupId draft
                       intervalWeeks durationWeeks
                       (w + intervalWeeks) (count + 1) (finalTasks ++ [task])
      else ret finalTasks
  end.

(** The body of [selectedDrafts.forEach(draft => ...)]. *)
Definition expandDraft (fuel : nat) (startDate experimentId : string)
    (finalTasks : list Task.t) (draft : PlanTaskItem.t) : Gen (list Task.t) :=
  match PlanTaskItem.recurrence draft with
  | Some r =>
      do groupId <- generateUUID;
      recurrenceLoop fuel startDate experimentId groupId draft
                     (intervalWeeks r) (durationWeeks r) 0 0 finalTasks
  | None =>
      do id <- generateUUID;
      do weekId <- orThrow
        (normalizeToSunday
           (ofDate (DateFns.addWeeks (DateFns.parseISO startDate)
                                     (PlanTaskItem.weekOffset draft))));
      ret (finalTasks ++
           [Task.mk id experimentId (PlanTaskItem.title draft)
                    (PlanTaskItem.description draft) weekId
                    (PlanTaskItem.status draft) (PlanTaskItem.importance draft)
                    false [] [] [] None (Some (PlanTaskItem.id draft))])
  end.

Fixpoint forEachDraft (fuel : nat) (startDate experimentId : string)
    (drafts : list PlanTaskItem.t) (finalTasks : list Task.t) : Gen (list Task.t) :=
  match drafts with
  | [] => ret finalTasks
  | draft :: rest =>
      do finalTasks' <- expandDraft fuel startDate experimentId finalTasks draft;
      forEachDraft fuel startDate experimentId rest finalTasks'
  end.

(** [handleFinish], up to the tasks and the master plan it hands to [onSave];
    the experiment record built from them afterwards is not modelled. *)
Definition handleFinish (fuel : nat) (startDate : string) (draftTasks : list EditableTask)
  : Gen (string * list PlanTaskItem.t * list Task.t) :=
  do experimentId <- generateUUID;
  let selectedDrafts := List.filter isSelected draftTasks in
  let masterPlan := List.map draftItem selectedDrafts in
  do finalTasks <- forEachDraft fuel startDate experimentId masterPlan [];
  ret (experimentId, masterPlan, finalTasks).

End Wizard.

(** ** Import sanitization (utils.ts, validateAndMigrateAppData)

    The argument is typed [any]: it is the result of [JSON.parse] on an
    imported file.  JavaScript values are embedded with the reference
    identity of arrays and objects, which is what [Set.prototype.has]
    compares.  The number type is left abstract: the function only asks of
    a number whether it is one, whether it is falsy (0 or NaN), and whether
    it is the same as another (SameValueZero). *)

Module Migration.
Section Values.

Variable Number : Type.
Variable numberOfZ : Z -> Number.
Variable numberFalsy : Number -> bool.
Variable sameNumber : Number -> Number -> bool.

#[local] Unset Elimination Schemes.
Inductive JsValue :=
| JsUndefined
| JsNull
| JsBool (b : bool)
| JsNumber (n : Number)
| JsString (s : string)
| JsArray (ref : nat) (items : list JsValue)
| JsObject (ref : nat) (fields : list (string * JsValue)).
#[local] Set Elimination Schemes.

(** Truthiness, as tested by [||], [!!] and [?:]. *)
Definition truthy (v : JsValue) : bool :=
  match v with
  | JsUndefined | JsNull => false
  | JsBool b => b
  | JsNumber n => negb (numberFalsy n)
  | JsString s => negb (String.eqb s "")
  | JsArray _ _ | JsObject _ _ => true
  end.

(** [a || b] on values. *)
Definition orElse (a b : JsValue) : JsValue := if truthy a then a else b.

(** SameValueZero, the comparison behind [Set.has]. *)
Definition sameValueZero (a b : JsValue) : bool :=
  match a, b with
  | JsUndefined, JsUndefined => true
  | JsNull, JsNull => true
  | JsBool x, JsBool y => Bool.eqb x y
  | JsNumber x, JsNumber y => sameNumber x y
  | JsString x, JsString y => String.eqb x y
  | JsArray r _, JsArray r' _ => Nat.eqb r r'
  | JsObject r _, JsObject r' _ => Nat.eqb r r'
  | _, _ => false
  end.

(** [set.has(v)] for a [Set] given by the list of its elements. *)
Definition has (set : list JsValue) (v : JsValue) : bool :=
  existsb (fun x => sameValueZero x v) set.

Definition nullish (v : JsValue) : bool :=
  match v with
  | JsUndefined | JsNull => true
  | _ => false
  end.

Fixpoint lookupField (fields : list (string * JsValue)) (key : string) : JsValue :=
  match fields with
  | [] => JsUndefined
  | (k, v) :: rest => if String.eqb k key then v else lookupField rest key
  end.

(** [v.key] for a value that is neither [null] nor [undefined] and one of
    the property names read below (none of which is a built-in property of
    arrays, strings, numbers or booleans). *)
Definition prop (v : JsValue) (key : string) : JsValue :=
  match v with
  | JsObject _ fields => lookupField fields key
  | _ => JsUndefined
  end.

(** [Array.isArray(v) ? v : d], as the list of elements. *)
Definition arrayOr (v : JsValue) (d : list JsValue) : list JsValue :=
  match v with
  | JsArray _ items => items
  | _ => d
  end.

(** [typeof v === 'number' ? v : d] *)
Definition numberOr (v : JsValue) (d : Z) : Number :=
  match v with
  | JsNumber n => n
  | _ => numberOfZ d
  end.

(** The sanitized records; a field keeps the type [JsValue] wherever the
    code lets the imported value through unchecked. *)
Record CleanExperiment := mkCleanExperiment {
  exp_id : JsValue;
  exp_name : JsValue;
  exp_description : JsValue;
  exp_collaborators : list JsValue;
  exp_startDate : JsValue;
  exp_endDate : JsValue;
  exp_expectedWeeks : Number;
  exp_status : ExperimentStatus;
  exp_attachments : list JsValue;
  exp_proposalText : JsValue;
  exp_originalPlan : option (list JsValue);
  exp_style : JsValue
}.

Record CleanTask := mkCleanTask {
  task_id : JsValue;
  task_experimentId : JsValue;
  task_title : JsValue;
  task_description : JsValue;
  task_weekId : JsValue;
  task_status : JsValue;
  task_importance : Number;
  task_completed : bool;
  task_tags : list JsValue;
  task_attachments : list JsValue;
  task_dependencies : list JsValue;
  task_recurrenceGroupId : JsValue;
  task_planTaskId : JsValue
}.

Record CleanAppData := mkCleanAppData {
  data_experiments : list CleanExperiment;
  data_tasks : list CleanTask;
  data_schemaVersion : Z;
  data_hiddenWeeks : list JsValue;
  data_settings : JsValue
}.

(** The identifiers of [generateUUID()], the value of
    [normalizeToSunday(new Date())] at the time of the call, and the
    settings [getLocalStorage] would return. *)
Variable uuid : nat -> string.
Variable thisWeek : string.
Variable storedSettings : JsValue.

(** [v || generateUUID()] *)
Definition orGenerate (v : JsValue) : Gen JsValue :=
  if truthy v then ret v
  else do u <- generateUUID uuid; ret (JsString u).

(** Reading a property of [null] or [undefined] throws a TypeError; the
    first property read of an element is always [id]. *)
Definition element (v : JsValue) : Gen JsValue :=
  if nullish v then (fun k => (Throws, k)) else ret v.

(** The callback of [imported.experiments.map]. *)
Definition cleanExperiment (e0 : JsValue) : Gen CleanExperiment :=
  do e <- element e0;
  do id <- orGenerate (prop e "id");
  ret (mkCleanExperiment
         id
         (orElse (prop e "name") (JsString "Untitled Experiment"))
         (orElse (prop e "description") (JsString ""))
         (arrayOr (prop e "collaborators") [])
         (orElse (prop e "startDate") (JsString thisWeek))
         (prop e "endDate")
         (numberOr (prop e "expectedWeeks") 4)
         (if sameValueZero (prop e "status") (JsString "archived") then archived else active)
         (arrayOr (prop e "attachments") [])
         (orElse (prop e "proposalText") (JsString ""))
         (match prop e "originalPlan" with
          | JsArray _ items => Some items
          | _ => None
          end)
         (prop e "style")).

Fixpoint mapExperiments (es : list JsValue) : Gen (list CleanExperiment) :=
  match es with
  | [] => ret []
  | e :: rest =>
      do c <- cleanExperiment e;
      do cs <- mapExperiments rest;
      ret (c :: cs)
  end.

(** The object literal [newTask] built for a task that is kept. *)
Definition sanitizeTask (tId t : JsValue) : CleanTask :=
  mkCleanTask
    tId
    (prop t "experimentId")
    (orElse (prop t "title") (JsString "Untitled Task"))
    (orElse (prop t "description") (JsString ""))
    (orElse (prop t "weekId") (JsString thisWeek))
    (orElse (prop t "status") (JsString "default"))
    (numberOr (prop t "importance") 3)
    (truthy (prop t "completed"))
    (arrayOr (prop t "tags") [])
    (arrayOr (prop t "attachments") [])
    (arrayOr (prop t "dependencies") [])
    (prop t "recurrenceGroupId")
    (prop t "planTaskId").

(** [imported.tasks.reduce((acc, t) => ..., [])], with the set
    [processedTaskIds] it fills on the way. *)
Fixpoint reduceTasks (validExpIds : list JsValue) (tasks : list JsValue)
    (processedTaskIds : list JsValue) (acc : list CleanTask) : Gen (list CleanTask) :=
  match tasks with
  | [] => ret acc
  | t0 :: rest =>
      do t <- element t0;
      do tId <- orGenerate (prop t "id");
      if has processedTaskIds tId then
        reduceTasks validExpIds rest processedTaskIds acc
      else
        let processedTaskIds := processedTaskIds ++ [tId] in
        if negb (has validExpIds (prop t "experimentId")) then
          reduceTasks validExpIds rest processedTaskIds acc
        else
          let newTask := sanitizeTask tId t in
          reduceTasks validExpIds rest processedTaskIds (acc ++ [newTask])
  end.

Definition validateAndMigrateAppData (imported : JsValue) : Gen CleanAppData :=
  match imported with
  | JsObject _ _ | JsArray _ _ =>
      match prop imported "experiments", prop imported "tasks" with
      | JsArray _ experiments, JsArray _ tasks =>
          do cleanExperiments <- mapExperiments experiments;
          let validExpIds := List.map exp_id cleanExperiments in
          do cleanTasks <- reduceTasks validExpIds tasks [] [];
          ret (mkCleanAppData cleanExperiments cleanTasks 1
                 (arrayOr (prop imported "hiddenWeeks") [])
                 (orElse (prop imported "settings") storedSettings))
      | _, _ => fun k => (Throws, k)
      end
  | _ => fun k => (Throws, k)
  end.

End Values.
End Migration.

(* ================================================================== *)
(** * Properties *)
(* ================================================================== *)

(** ** Blocked status *)

Lemma findTask_Some allTasks depId t :
  findTask allTasks depId = Some t -> In t allTasks /\ Task.id t = depId.
Proof.
  unfold findTask. intros H. apply find_some in H as [Hin Heq].
  apply String.eqb_eq in Heq. auto.
Qed.

Lemma findTask_None allTasks depId :
  findTask allTasks depId = None <-> ~ In depId (List.map Task.id allTasks).
Proof.
  unfold findTask. induction allTasks as [|a l IH]; simpl.
  - tauto.
  - destruct (String.eqb_spec (Task.id a) depId) as [E|E].
    + split; [discriminate | intros H; exfalso; apply H; auto].
    + rewrite IH. tauto.
Qed.

(** With pairwise distinct ids, [find] returns the only task with that id. *)
Lemma findTask_unique allTasks t :
  NoDup (List.map Task.id allTasks) -> In t allTasks ->
  findTask allTasks (Task.id t) = Some t.
Proof.
  unfold findTask. induction allTasks as [|a l IH]; simpl; [tauto|].
  intros Hnd [->|Hin].
  - now rewrite String.eqb_refl.
  - inversion Hnd as [|? ? Hnotin Hnd']; subst.
    destruct (String.eqb_spec (Task.id a) (Task.id t)) as [E|E].
    + exfalso. apply Hnotin. rewrite E. now apply list_elem_of_In, in_map.
    + auto.
Qed.

(** C6. [isTaskBlocked task allTasks] is true exactly when the task has a
    non-empty dependency list and some dependency id resolves (through
    [allTasks.find]) to a task whose [completed] is false; an id that
    resolves to no task never blocks, so a task whose only dependency is
    absent from [allTasks] is not blocked.  When ids are pairwise distinct,
    resolving is the same as being a member with that id. *)
Theorem isTaskBlocked_spec :
  forall (task : Task.t) (allTasks : list Task.t),
    (isTaskBlocked task allTasks = true <->
       Task.dependencies task <> [] /\
       exists depId depTask,
         In depId (Task.dependencies task) /\
         findTask allTasks depId = Some depTask /\
         Task.completed depTask = false)
    /\ (forall depId,
          Task.dependencies task = [depId] ->
          ~ In depId (List.map Task.id allTasks) ->
          isTaskBlocked task allTasks = false)
    /\ (NoDup (List.map Task.id allTasks) ->
        (isTaskBlocked task allTasks = true <->
           Task.dependencies task <> [] /\
           exists depTask,
             In depTask allTasks /\
             In (Task.id depTask) (Task.dependencies task) /\
             Task.completed depTask = false)).
Proof.
  intros task allTasks.
  assert (Hmain : isTaskBlocked task allTasks = true <->
       Task.dependencies task <> [] /\
       exists depId depTask,
         In depId (Task.dependencies task) /\
         findTask allTasks depId = Some depTask /\
         Task.completed depTask = false).
  { unfold isTaskBlocked.
    destruct (Task.dependencies task) as [|d ds] eqn:Hd.
    - simpl. split; [discriminate | intros [H _]; congruence].
    - cbn [length Nat.eqb]. rewrite existsb_exists. split.
      + intros (x & Hin & Hx). split; [discriminate|].
        destruct (findTask allTasks x) as [dt|] eqn:Hf; [|discriminate].
        exists x, dt. repeat split; auto. now apply negb_true_iff.
      + intros (_ & x & dt & Hin & Hf & Hc). exists x. split; auto.
        rewrite Hf, Hc. reflexivity. }
  split; [exact Hmain|]. split.
  - intros depId Hdeps Habs.
    apply not_true_is_false. intros Hb.
    apply (proj1 Hmain) in Hb as (_ & x & dt & Hin & Hf & _).
    rewrite Hdeps in Hin. destruct Hin as [<-|[]].
    apply findTask_None in Habs. congruence.
  - intros Hnd. rewrite Hmain. split.
    + intros (Hne & x & dt & Hin & Hf & Hc). split; auto.
      apply findTask_Some in Hf as [Hin' <-]. eauto.
    + intros (Hne & dt & Hin & Hdep & Hc). split; auto.
      exists (Task.id dt), dt. repeat split; auto.
      now apply findTask_unique.
Qed.

(** A concrete board on which the blocked-status theorem is exercised. *)
Definition sampleTask (i e w : string) (c : bool) (ds : list string) : Task.t :=
  Task.mk i e "" "" w DEFAULT 3 c [] [] ds None None.

Lemma isTaskBlocked_spec_witness :
  isTaskBlocked (sampleTask "t" "e" "2024-01-07" false ["gone"])
                [sampleTask "d" "e" "2024-01-07" false []] = false
  /\ (isTaskBlocked (sampleTask "t" "e" "2024-01-07" false ["d"])
                    [sampleTask "d" "e" "2024-01-07" false []] = true).
Proof.
  split.
  - apply (isTaskBlocked_spec (sampleTask "t" "e" "2024-01-07" false ["gone"])
                              [sampleTask "d" "e" "2024-01-07" false []]) with "gone".
    + reflexivity.
    + simpl. intros [H|[]]. discriminate.
  - apply (isTaskBlocked_spec (sampleTask "t" "e" "2024-01-07" false ["d"])
                              [sampleTask "d" "e" "2024-01-07" false []]).
    + simpl. apply NoDup_cons. split; [apply not_elem_of_nil | apply NoDup_nil_2].
    + split; [discriminate|].
      exists (sampleTask "d" "e" "2024-01-07" false []). simpl. auto.
Defined.

(** ** Task deletion *)

(** What deletion does to a surviving task: the deleted id leaves its
    dependency list, nothing else changes. *)
Definition dropDependency (taskId : string) (t : Task.t) : Task.t :=
  Task.with_dependencies
    (List.filter (fun d => negb (String.eqb d taskId)) (Task.dependencies t)) t.

Lemma includes_false_filter deps x :
  includes deps x = false ->
  List.filter (fun d => negb (String.eqb d x)) deps = deps.
Proof.
  unfold includes. induction deps as [|d ds IH]; simpl; [reflexivity|].
  intros H. apply orb_false_iff in H as [Hd Hds].
  rewrite String.eqb_sym, Hd. simpl. now rewrite IH.
Qed.

Lemma with_dependencies_same (t : Task.t) :
  Task.with_dependencies (Task.dependencies t) t = t.
Proof. now destruct t. Qed.

Lemma handleDeleteTask_tasks taskId prev :
  AppData.tasks (handleDeleteTask taskId prev) =
  List.map (dropDependency taskId)
      (List.filter (fun t => negb (String.eqb (Task.id t) taskId)) (AppData.tasks prev)).
Proof.
  unfold handleDeleteTask. cbn [AppData.tasks].
  apply map_ext. intros t. unfold dropDependency.
  destruct (includes (Task.dependencies t) taskId) eqn:Hinc; [reflexivity|].
  rewrite (includes_false_filter _ _ Hinc). now rewrite with_dependencies_same.
Qed.

Lemma same_id_same_task (l : list Task.t) (a b : Task.t) :
  NoDup (List.map Task.id l) -> In a l -> In b l -> Task.id a = Task.id b -> a = b.
Proof.
  induction l as [|x l IH]; cbn [List.map]; intros Hnd Ha Hb Hid; [destruct Ha|].
  apply NoDup_cons in Hnd as [Hx Hnd].
  assert (Hmem : forall y, In y l -> Task.id y <> Task.id x).
  { intros y Hy E. apply Hx. rewrite <- E. now apply list_elem_of_In, in_map. }
  destruct Ha as [<-|Ha], Hb as [<-|Hb].
  - reflexivity.
  - exfalso. now apply (Hmem b Hb).
  - exfalso. now apply (Hmem a Ha).
  - now apply IH.
Qed.

(** C9. Deleting a task [D] of the list: no task with [D]'s id remains; every
    task with another id (every other task, when ids are pairwise distinct)
    is still there, identical but for its dependency list, from which [D]'s
    id has been filtered out; no remaining task lists [D]'s id as a
    dependency; nothing else appears in the list, and the rest of the
    application data is untouched. *)
Theorem handleDeleteTask_spec :
  forall (prev : AppData.t) (D : Task.t),
    In D (AppData.tasks prev) ->
    let next := handleDeleteTask (Task.id D) prev in
    ~ In (Task.id D) (List.map Task.id (AppData.tasks next))
    /\ (forall T, In T (AppData.tasks prev) -> Task.id T <> Task.id D ->
          In (dropDependency (Task.id D) T) (AppData.tasks next))
    /\ (NoDup (List.map Task.id (AppData.tasks prev)) ->
        forall T, In T (AppData.tasks prev) -> T <> D ->
          In (dropDependency (Task.id D) T) (AppData.tasks next))
    /\ (forall T', In T' (AppData.tasks next) ->
          ~ In (Task.id D) (Task.dependencies T')
          /\ exists T, In T (AppData.tasks prev) /\ Task.id T <> Task.id D
                       /\ T' = dropDependency (Task.id D) T)
    /\ (forall T d, In d (Task.dependencies (dropDependency (Task.id D) T)) <->
                    In d (Task.dependencies T) /\ d <> Task.id D)
    /\ (forall T,
          let T' := dropDependency (Task.id D) T in
          Task.id T' = Task.id T /\ Task.experimentId T' = Task.experimentId T
          /\ Task.title T' = Task.title T /\ Task.description T' = Task.description T
          /\ Task.weekId T' = Task.weekId T /\ Task.status T' = Task.status T
          /\ Task.importance T' = Task.importance T
          /\ Task.completed T' = Task.completed T /\ Task.tags T' = Task.tags T
          /\ Task.attachments T' = Task.attachments T
          /\ Task.recurrenceGroupId T' = Task.recurrenceGroupId T
          /\ Task.planTaskId T' = Task.planTaskId T)
    /\ AppData.experiments next = AppData.experiments prev
    /\ AppData.schemaVersion next = AppData.schemaVersion prev
    /\ AppData.hiddenWeeks next = AppData.hiddenWeeks prev.
Proof.
  intros prev D HD next. subst next.
  assert (Hdeps : forall T d,
             In d (Task.dependencies (dropDependency (Task.id D) T)) <->
             In d (Task.dependencies T) /\ d <> Task.id D).
  { intros T d. unfold dropDependency. cbn [Task.with_dependencies Task.dependencies].
    rewrite filter_In, negb_true_iff.
    destruct (String.eqb_spec d (Task.id D)); intuition congruence. }
  assert (Hmem : forall T', In T' (AppData.tasks (handleDeleteTask (Task.id D) prev)) <->
             exists T, In T (AppData.tasks prev) /\ Task.id T <> Task.id D
                       /\ T' = dropDependency (Task.id D) T).
  { intros T'. rewrite handleDeleteTask_tasks, in_map_iff. split.
    - intros (T & <- & Hin). apply filter_In in Hin as [Hin Hne].
      exists T. repeat split; auto.
      apply negb_true_iff in Hne. now destruct (String.eqb_spec (Task.id T) (Task.id D)).
    - intros (T & Hin & Hne & ->). exists T. split; auto.
      apply filter_In. split; auto. apply negb_true_iff.
      now destruct (String.eqb_spec (Task.id T) (Task.id D)). }
  split; [|split; [|split; [|split; [|split; [exact Hdeps|split]]]]].
  - rewrite in_map_iff. intros (T' & Hid & Hin).
    apply Hmem in Hin as (T & _ & Hne & ->). now apply Hne.
  - intros T Hin Hne. apply Hmem. eauto.
  - intros Hnd T Hin Hne. apply Hmem. exists T. split; [exact Hin|]. split; [|reflexivity].
    intros Hid. apply Hne. now apply (same_id_same_task (AppData.tasks prev)).
  - intros T' Hin. split; [|now apply Hmem].
    apply Hmem in Hin as (T & _ & _ & ->). rewrite Hdeps. tauto.
  - intros T. simpl. repeat split.
  - repeat split.
Qed.

Definition sampleBoard : AppData.t :=
  AppData.mk [] [sampleTask "d" "e" "2024-01-07" false [];
                 sampleTask "t" "e" "2024-01-14" false ["d"; "x"]] 1 [].

Lemma handleDeleteTask_spec_witness :
  In (sampleTask "d" "e" "2024-01-07" false []) (AppData.tasks sampleBoard)
  /\ In (sampleTask "t" "e" "2024-01-14" false ["x"])
        (AppData.tasks (handleDeleteTask "d" sampleBoard)).
Proof.
  split; [simpl; auto|].
  destruct (handleDeleteTask_spec sampleBoard (sampleTask "d" "e" "2024-01-07" false [])
              (or_introl eq_refl)) as (_ & Hkept & _).
  apply (Hkept (sampleTask "t" "e" "2024-01-14" false ["d"; "x"])).
  - simpl. auto.
  - discriminate.
Defined.

(** ** The calendar *)

(** Evaluate [monthStart] at closed arguments, in the goal and the context. *)
Ltac eval_monthStart :=
  repeat match goal with
         | |- context [DateFns.monthStart ?l ?m] =>
             let v := eval vm_compute in (DateFns.monthStart l m) in
             change (DateFns.monthStart l m) with v
         | H : context [DateFns.monthStart ?l ?m] |- _ =>
             let v := eval vm_compute in (DateFns.monthStart l m) in
             change (DateFns.monthStart l m) with v in H
         end.

Section Calendar.
Import DateFns.

Lemma dayFromYear_succ y :
  dayFromYear (y + 1) = dayFromYear y + daysInYear y.
Proof.
  unfold dayFromYear, daysInYear, isLeapYear.
  destruct (Z.eqb_spec (y mod 4) 0); destruct (Z.eqb_spec (y mod 100) 0);
    destruct (Z.eqb_spec (y mod 400) 0); cbn [andb orb negb];
    Z.div_mod_to_equations; lia.
Qed.

Lemma daysInYear_cases y : daysInYear y = if isLeapYear y then 366 else 365.
Proof. reflexivity. Qed.

(** [yearFromDay] is YearFromTime: the year whose days contain [d]. *)
Lemma yearFromDay_spec d :
  dayFromYear (yearFromDay d) <= d < dayFromYear (yearFromDay d + 1).
Proof.
  unfold yearFromDay.
  set (y0 := 1970 + d * 400 / 146097).
  assert (H0 : dayFromYear (y0 - 1) <= d < dayFromYear (y0 + 2)).
  { subst y0. unfold dayFromYear. Z.div_mod_to_equations; lia. }
  destruct (Z.leb_spec (dayFromYear (y0 + 1)) d).
  - replace (y0 + 1 + 1) with (y0 + 2) by lia. lia.
  - destruct (Z.leb_spec (dayFromYear y0) d).
    + lia.
    + replace (y0 - 1 + 1) with y0 by lia. lia.
Qed.

Lemma dayFromYear_le y1 y2 : y1 <= y2 -> dayFromYear y1 <= dayFromYear y2.
Proof. unfold dayFromYear. intros. Z.div_mod_to_equations; lia. Qed.

Lemma yearFromDay_unique d y :
  dayFromYear y <= d < dayFromYear (y + 1) -> yearFromDay d = y.
Proof.
  intros Hy. pose proof (yearFromDay_spec d) as Hs.
  destruct (Z.lt_trichotomy (yearFromDay d) y) as [Hlt|[Heq|Hgt]]; [|exact Heq|].
  - pose proof (dayFromYear_le (yearFromDay d + 1) y ltac:(lia)). lia.
  - pose proof (dayFromYear_le (y + 1) (yearFromDay d) ltac:(lia)). lia.
Qed.

Lemma dayInYear_range d :
  0 <= dayInYear d < daysInYear (getFullYear d).
Proof.
  unfold dayInYear, getFullYear.
  pose proof (yearFromDay_spec (dayNumber d)) as H.
  rewrite dayFromYear_succ in H. lia.
Qed.

Lemma month_range (leap : bool) (diy : Z) :
  0 <= diy < (if leap then 366 else 365) ->
  let m := monthFromDayInYear leap diy in
  0 <= m <= 11 /\ monthStart leap m <= diy < monthStart leap (m + 1).
Proof.
  intros H m. subst m. unfold monthFromDayInYear.
  repeat match goal with
         | |- context [Z.ltb ?a ?b] => destruct (Z.ltb_spec a b)
         end; destruct leap; eval_monthStart; lia.
Qed.

(** The fields read off a date pass date-fns' validation and rebuild the day. *)
Lemma fields_valid d :
  validateDate (getFullYear d) (getMonth d) (getDate d) = true.
Proof.
  unfold validateDate, daysInMonth, getDate, getMonth.
  pose proof (dayInYear_range d) as Hr. rewrite daysInYear_cases in Hr.
  pose proof (month_range _ _ Hr) as [Hm Hs]. cbv zeta in Hm, Hs.
  repeat (apply andb_true_intro; split); apply Z.leb_le; lia.
Qed.

Lemma makeDay_fields d :
  makeDay (getFullYear d) (getMonth d) (getDate d) = dayNumber d.
Proof. unfold makeDay, getDate, dayInYear. lia. Qed.

Lemma getMonth_range d : 0 <= getMonth d <= 11.
Proof.
  unfold getMonth. pose proof (dayInYear_range d) as Hr.
  rewrite daysInYear_cases in Hr. now pose proof (month_range _ _ Hr) as [Hm _].
Qed.

Lemma getDate_range d : 1 <= getDate d <= 31.
Proof.
  pose proof (fields_valid d) as H. unfold validateDate in H.
  pose proof (getMonth_range d) as Hm.
  repeat (apply andb_prop in H as [H ?]).
  repeat match goal with H : (_ <=? _) = true |- _ => apply Z.leb_le in H end.
  split; [lia|]. unfold daysInMonth in *.
  assert (Hc : getMonth d = 0 \/ getMonth d = 1 \/ getMonth d = 2 \/ getMonth d = 3
               \/ getMonth d = 4 \/ getMonth d = 5 \/ getMonth d = 6 \/ getMonth d = 7
               \/ getMonth d = 8 \/ getMonth d = 9 \/ getMonth d = 10 \/ getMonth d = 11)
    by lia.
  destruct (isLeapYear (getFullYear d));
    repeat (destruct Hc as [Hc|Hc]; [rewrite Hc in *; eval_monthStart; lia|]);
    rewrite Hc in *; eval_monthStart; lia.
Qed.

(** The days whose year is written with four digits: 0001-01-01 to 9999-12-31. *)
Definition fourDigitYear (day : Z) : Prop :=
  dayFromYear 1 <= day < dayFromYear 10000.

Lemma fourDigitYear_year d :
  fourDigitYear (dayNumber d) -> 1 <= getFullYear d <= 9999.
Proof.
  unfold fourDigitYear, getFullYear. intros [Hlo Hhi].
  pose proof (yearFromDay_spec (dayNumber d)) as [H1 H2].
  split.
  - destruct (Z.le_gt_cases 1 (yearFromDay (dayNumber d))); [assumption|].
    pose proof (dayFromYear_le (yearFromDay (dayNumber d) + 1) 1 ltac:(lia)). lia.
  - destruct (Z.le_gt_cases (yearFromDay (dayNumber d)) 9999); [assumption|].
    pose proof (dayFromYear_le 10000 (yearFromDay (dayNumber d)) ltac:(lia)). lia.
Qed.

End Calendar.

(** ** Printing and reading dates *)

Section DateStrings.
Import DateFns.

Definition fourDigitsOk (y : Z) : bool :=
  match addLeadingZeros y 4 with
  | String a (String b (String c (String d EmptyString))) =>
      match digitsValue 0 [a; b; c; d] with
      | Some v => v =? y
      | None => false
      end
  | _ => false
  end.

Definition twoDigitsOk (n : Z) : bool :=
  match addLeadingZeros n 2 with
  | String a (String b EmptyString) =>
      match digitsValue 0 [a; b] with
      | Some v => v =? n
      | None => false
      end
  | _ => false
  end.

(** Both checks are run over their whole finite range. *)
Lemma fourDigits_checked :
  forallb fourDigitsOk (List.map Z.of_nat (seq 0 (Z.to_nat 10000))) = true.
Proof. vm_cast_no_check (eq_refl true). Qed.

Lemma twoDigits_checked :
  forallb twoDigitsOk (List.map Z.of_nat (seq 0 (Z.to_nat 100))) = true.
Proof. vm_cast_no_check (eq_refl true). Qed.

Lemma in_range_seq (n k : Z) :
  0 <= n < k -> In n (List.map Z.of_nat (seq 0 (Z.to_nat k))).
Proof.
  intros H. apply in_map_iff. exists (Z.to_nat n). split; [lia|].
  apply in_seq. lia.
Qed.

Lemma addLeadingZeros_4 y :
  0 <= y < 10000 ->
  exists a b c d,
    addLeadingZeros y 4 = String a (String b (String c (String d EmptyString)))
    /\ digitsValue 0 [a; b; c; d] = Some y.
Proof.
  intros H. pose proof fourDigits_checked as Hall.
  rewrite forallb_forall in Hall. specialize (Hall y (in_range_seq y 10000 H)).
  unfold fourDigitsOk in Hall.
  destruct (addLeadingZeros y 4) as [|a [|b [|c [|d [|]]]]]; try discriminate.
  destruct (digitsValue 0 [a; b; c; d]) as [v|] eqn:Hv; [|discriminate].
  apply Z.eqb_eq in Hall. subst v. eauto 6.
Qed.

Lemma addLeadingZeros_2 n :
  0 <= n < 100 ->
  exists a b,
    addLeadingZeros n 2 = String a (String b EmptyString)
    /\ digitsValue 0 [a; b] = Some n.
Proof.
  intros H. pose proof twoDigits_checked as Hall.
  rewrite forallb_forall in Hall. specialize (Hall n (in_range_seq n 100 H)).
  unfold twoDigitsOk in Hall.
  destruct (addLeadingZeros n 2) as [|a [|b [|]]]; try discriminate.
  destruct (digitsValue 0 [a; b]) as [v|] eqn:Hv; [|discriminate].
  apply Z.eqb_eq in Hall. subst v. eauto.
Qed.

(** Reading back what [format] printed gives the same day, at midnight. *)
Lemma parseISO_format d w :
  fourDigitYear (dayNumber d) ->
  format (Some d) = Some w ->
  parseISO w = Some (mkDateTime (dayNumber d) 0).
Proof.
  intros Hr Hf. apply fourDigitYear_year in Hr.
  pose proof (getMonth_range d) as Hm. pose proof (getDate_range d) as Hd.
  cbn [format mbind option_bind] in Hf. injection Hf as <-. unfold formatValid.
  assert (Hy : yearOfEra (getFullYear d) = getFullYear d).
  { unfold yearOfEra. destruct (Z.ltb_spec 0 (getFullYear d)); lia. }
  rewrite Hy.
  destruct (addLeadingZeros_4 (getFullYear d)) as (a & b & c & e & -> & Hya); [lia|].
  destruct (addLeadingZeros_2 (getMonth d + 1)) as (m1 & m2 & -> & Hma); [lia|].
  destruct (addLeadingZeros_2 (getDate d)) as (d1 & d2 & -> & Hda); [lia|].
  cbv [String.append parseISO].
  change (Ascii.eqb "-" "-") with true. cbn [andb].
  rewrite Hya, Hma, Hda. cbn [mbind option_bind].
  replace (getMonth d + 1 - 1) with (getMonth d) by lia.
  now rewrite fields_valid, makeDay_fields.
Qed.

Lemma parseISO_midnight w d : parseISO w = Some d -> msOfDay d = 0.
Proof.
  unfold parseISO.
  destruct w as [|y1 [|y2 [|y3 [|y4 [|s1 [|m1 [|m2 [|s2 [|d1 [|d2 [|]]]]]]]]]]];
    try discriminate.
  destruct (Ascii.eqb s1 "-" && Ascii.eqb s2 "-"); [|discriminate].
  destruct (digitsValue 0 [y1; y2; y3; y4]) as [y|]; [|discriminate].
  destruct (digitsValue 0 [m1; m2]) as [m|]; [|discriminate].
  destruct (digitsValue 0 [d1; d2]) as [dt|]; [|discriminate].
  cbn [mbind option_bind].
  destruct (validateDate y (m - 1) dt); [|discriminate].
  intros [= <-]. reflexivity.
Qed.

End DateStrings.

(** ** Weeks *)

Section Weeks.
Import DateFns.

(** The day number of the Sunday that begins the week of [d]. *)
Definition weekStartDay (d : DateTime) : Z := dayNumber d - getDay d.

(** Days on which every time of day is a representable instant. *)
Definition inJsRange (day : Z) : Prop := -100000000 <= day < 100000000.

Definition wellFormed (d : DateTime) : Prop := 0 <= msOfDay d < msPerDay.

Lemma getDay_range d : 0 <= getDay d <= 6.
Proof. unfold getDay. pose proof (Z.mod_pos_bound (dayNumber d + 4) 7). lia. Qed.

Lemma getDay_shift day ms ms' (n : Z) :
  getDay (mkDateTime (day + 7 * n) ms) = getDay (mkDateTime day ms').
Proof.
  unfold getDay. cbn [dayNumber].
  replace (day + 7 * n + 4) with (day + 4 + n * 7) by lia.
  apply Z.mod_add. lia.
Qed.

Lemma getDay_weekStart d ms : getDay (mkDateTime (weekStartDay d) ms) = 0.
Proof.
  unfold weekStartDay, getDay. cbn [dayNumber].
  replace (dayNumber d - (dayNumber d + 4) mod 7 + 4)
    with (dayNumber d + 4 - (dayNumber d + 4) mod 7) by lia.
  rewrite Zminus_mod, Z.mod_mod, Z.sub_diag by lia. reflexivity.
Qed.

Lemma weekStartDay_bounds d : weekStartDay d <= dayNumber d < weekStartDay d + 7.
Proof. unfold weekStartDay. pose proof (getDay_range d). lia. Qed.

Lemma fourDigitYear_inJsRange day : fourDigitYear day -> inJsRange day.
Proof.
  unfold fourDigitYear, inJsRange.
  change (dayFromYear 1) with (-719162). change (dayFromYear 10000) with 2932897. lia.
Qed.

Lemma timeClip_ok d : inJsRange (dayNumber d) -> wellFormed d -> timeClip d = Some d.
Proof.
  unfold inJsRange, wellFormed, timeClip, msPerDay. intros Hd Hm.
  destruct (Z.leb_spec (Z.abs (dayNumber d * 86400000 + msOfDay d)) 8640000000000000);
    [reflexivity | lia].
Qed.

(** [startOfWeek] moves to the Sunday of the week and clears the time. *)
Lemma startOfWeek_sunday d :
  wellFormed d -> inJsRange (weekStartDay d) ->
  startOfWeek (Some d) 0 = Some (mkDateTime (weekStartDay d) 0).
Proof.
  intros Hw Hr. unfold startOfWeek. cbn [mbind option_bind].
  pose proof (getDay_range d) as Hg.
  destruct (Z.ltb_spec (getDay d) 0); [lia|].
  replace (0 + getDay d - 0) with (getDay d) by lia.
  unfold shiftDays.
  rewrite timeClip_ok; cbn [dayNumber msOfDay mbind option_bind].
  - apply timeClip_ok; [exact Hr | unfold wellFormed, msPerDay; cbn; lia].
  - exact Hr.
  - exact Hw.
Qed.

Lemma addWeeks_valid d n :
  wellFormed d -> inJsRange (dayNumber d + 7 * n) ->
  addWeeks (Some d) n = Some (mkDateTime (dayNumber d + 7 * n) (msOfDay d)).
Proof.
  intros Hw Hr. unfold addWeeks, addDays. cbn [mbind option_bind].
  destruct (Z.eqb_spec (n * 7) 0) as [E|E].
  - destruct d as [day ms]. cbn [dayNumber msOfDay]. do 2 f_equal. lia.
  - unfold shiftDays. replace (n * 7) with (7 * n) by lia.
    now apply timeClip_ok.
Qed.

Lemma weekStartDay_shift d n ms :
  weekStartDay (mkDateTime (dayNumber d + 7 * n) ms) = weekStartDay d + 7 * n.
Proof.
  unfold weekStartDay. cbn [dayNumber].
  destruct d as [day ms0]. cbn [dayNumber].
  rewrite (getDay_shift day ms ms0 n). lia.
Qed.

(** The result of [normalizeToSunday] on a valid date, before printing. *)
Lemma normalizeToSunday_format x d :
  toJsDate x = Some d -> wellFormed d -> inJsRange (weekStartDay d) ->
  normalizeToSunday x = format (Some (mkDateTime (weekStartDay d) 0)).
Proof.
  intros Hx Hw Hr. unfold normalizeToSunday. rewrite Hx.
  now rewrite startOfWeek_sunday.
Qed.

Lemma format_Some d : exists w, format (Some d) = Some w.
Proof. cbn [format mbind option_bind]. eauto. Qed.

Lemma parseISO_wellFormed w d : parseISO w = Some d -> wellFormed d.
Proof.
  intros H. apply parseISO_midnight in H. unfold wellFormed, msPerDay. lia.
Qed.

End Weeks.

(** ** Canonical week ids *)

Section CanonicalWeek.
Import DateFns.

(** C8, as the code has it.  On every valid date, given as a [Date] or as
    a string, [normalizeToSunday] prints, with the pattern yyyy-MM-dd, the
    Sunday that begins the week containing the date: that day is a Sunday
    (the week start is fixed to day 0) and is at most six days before the
    date.  When that Sunday lies in the years 0001 to 9999, which are the
    years the pattern prints as they are, the string is the ISO date of
    that Sunday: it reads back as that Sunday, and [normalizeToSunday]
    applied to it returns it unchanged.  The Wednesday 2024-01-10 is sent
    to 2024-01-07. *)
Theorem normalizeToSunday_spec :
  (forall (x : DateOrString) (d : DateTime),
      toJsDate x = Some d -> wellFormed d -> inJsRange (weekStartDay d) ->
      normalizeToSunday x = Some (formatValid (mkDateTime (weekStartDay d) 0))
      /\ getDay (mkDateTime (weekStartDay d) 0) = 0
      /\ weekStartDay d <= dayNumber d < weekStartDay d + 7)
  /\ (forall (x : DateOrString) (d : DateTime),
      toJsDate x = Some d -> wellFormed d -> fourDigitYear (weekStartDay d) ->
      exists w,
        normalizeToSunday x = Some w
        /\ parseISO w = Some (mkDateTime (weekStartDay d) 0)
        /\ normalizeToSunday (ofString w) = Some w)
  /\ normalizeToSunday (ofString "2024-01-10") = Some "2024-01-07".
Proof.
  split; [|split; [|vm_compute; reflexivity]].
  - intros x d Hx Hw Hjs. split; [|split].
    + now rewrite (normalizeToSunday_format x d Hx Hw Hjs).
    + apply getDay_weekStart.
    + apply weekStartDay_bounds.
  - intros x d Hx Hw Hr.
    pose proof (fourDigitYear_inJsRange _ Hr) as Hjs.
    destruct (format_Some (mkDateTime (weekStartDay d) 0)) as [w Hfmt].
    assert (Hparse : parseISO w = Some (mkDateTime (weekStartDay d) 0))
      by (apply (parseISO_format (mkDateTime (weekStartDay d) 0)); assumption).
    exists w. split; [|split].
    + rewrite (normalizeToSunday_format x d Hx Hw Hjs). exact Hfmt.
    + exact Hparse.
    + rewrite (normalizeToSunday_format (ofString w) (mkDateTime (weekStartDay d) 0)).
      * unfold weekStartDay at 1. cbn [dayNumber].
        fold (weekStartDay d). rewrite getDay_weekStart, Z.sub_0_r. exact Hfmt.
      * exact Hparse.
      * unfold wellFormed, msPerDay. cbn. lia.
      * unfold weekStartDay at 1. cbn [dayNumber]. fold (weekStartDay d).
        rewrite getDay_weekStart, Z.sub_0_r. exact Hjs.
Qed.

Lemma normalizeToSunday_spec_witness :
  (normalizeToSunday (ofDate (Some (mkDateTime 19782 3600000))) = Some "2024-02-25")
  /\ exists w,
      normalizeToSunday (ofString "2024-02-29") = Some w
      /\ parseISO w = Some (mkDateTime 19778 0)
      /\ normalizeToSunday (ofString w) = Some w.
Proof.
  split.
  - apply (proj1 normalizeToSunday_spec
             (ofDate (Some (mkDateTime 19782 3600000))) (mkDateTime 19782 3600000)).
    + reflexivity.
    + unfold wellFormed, msPerDay. cbn. lia.
    + unfold inJsRange. vm_compute. split; [discriminate | reflexivity].
  - apply (proj1 (proj2 normalizeToSunday_spec)
             (ofString "2024-02-29") (mkDateTime 19782 0)).
    + vm_compute. reflexivity.
    + unfold wellFormed, msPerDay. cbn. lia.
    + unfold fourDigitYear. vm_compute. split; [discriminate | reflexivity].
Defined.

(** C8, as stated, fails for the first days of the year 1.  The week of
    Monday 0001-01-01 begins on the last day of the year before, and the
    pattern yyyy prints that year, JavaScript's year 0, as the year of the
    era: 0001.  The result 0001-12-31 reads back as a Monday a year later,
    and normalising it gives 0001-12-30. *)
Lemma normalizeToSunday_counterexample :
  ~ (forall (x : DateOrString) (d : DateTime),
        toJsDate x = Some d ->
        exists w r,
          normalizeToSunday x = Some w
          /\ parseISO w = Some r
          /\ getDay r = 0
          /\ dayNumber r <= dayNumber d < dayNumber r + 7
          /\ normalizeToSunday (ofString w) = Some w).
Proof.
  intros H.
  assert (Hparse : exists d, toJsDate (ofString "0001-01-01") = Some d)
    by (eexists; vm_compute; reflexivity).
  destruct Hparse as [d Hd].
  destruct (H (ofString "0001-01-01") d Hd) as (w & r & Hw & _ & _ & _ & Hagain).
  vm_compute in Hw. injection Hw as <-.
  vm_compute in Hagain. discriminate.
Qed.

Example normalizeToSunday_year_one :
  normalizeToSunday (ofString "0001-01-01") = Some "0001-12-31"
  /\ normalizeToSunday (ofString "0001-12-31") = Some "0001-12-30".
Proof. vm_compute. split; reflexivity. Qed.

End CanonicalWeek.

(** ** Timeline shift *)

Section TimelineShift.
Import DateFns.

Lemma digitOf_range c v : digitOf c = Some v -> 0 <= v <= 9.
Proof.
  unfold digitOf.
  destruct (Z.leb_spec 48 (Z.of_nat (nat_of_ascii c)));
    destruct (Z.leb_spec (Z.of_nat (nat_of_ascii c)) 57); cbn [andb];
    intros [= <-]; lia.
Qed.

(** A parsed date lies in the years 0000 to 9999. *)
Lemma parseISO_range w d :
  parseISO w = Some d -> dayFromYear 0 <= dayNumber d < dayFromYear 10000.
Proof.
  unfold parseISO.
  destruct w as [|y1 [|y2 [|y3 [|y4 [|s1 [|m1 [|m2 [|s2 [|d1 [|d2 [|]]]]]]]]]]];
    try discriminate.
  destruct (Ascii.eqb s1 "-" && Ascii.eqb s2 "-"); [|discriminate].
  cbn [digitsValue mbind option_bind].
  destruct (digitOf y1) as [a|] eqn:Ha; [|discriminate].
  destruct (digitOf y2) as [b|] eqn:Hb; [|discriminate].
  destruct (digitOf y3) as [c|] eqn:Hc; [|discriminate].
  destruct (digitOf y4) as [e|] eqn:He; [|discriminate].
  cbn [mbind option_bind].
  destruct (digitOf m1) as [f|]; [|discriminate].
  destruct (digitOf m2) as [g|]; [|discriminate].
  cbn [mbind option_bind].
  destruct (digitOf d1) as [h|]; [|discriminate].
  destruct (digitOf d2) as [i|]; [|discriminate].
  cbn [mbind option_bind].
  apply digitOf_range in Ha, Hb, Hc, He.
  set (y := 10 * (10 * (10 * (10 * 0 + a) + b) + c) + e).
  set (m := 10 * (10 * 0 + f) + g - 1). set (dt := 10 * (10 * 0 + h) + i).
  destruct (validateDate y m dt) eqn:Hv; [|discriminate].
  intros [= <-]. cbn [dayNumber].
  unfold validateDate, daysInMonth in Hv.
  repeat (apply andb_prop in Hv as [Hv ?]).
  repeat match goal with H : (_ <=? _) = true |- _ => apply Z.leb_le in H end.
  assert (Hy : 0 <= y <= 9999) by (subst y; lia).
  assert (Hin : 0 <= monthStart (isLeapYear y) m + dt - 1 < daysInYear y).
  { rewrite daysInYear_cases.
    assert (Hm : m = 0 \/ m = 1 \/ m = 2 \/ m = 3 \/ m = 4 \/ m = 5 \/ m = 6
                 \/ m = 7 \/ m = 8 \/ m = 9 \/ m = 10 \/ m = 11) by lia.
    clearbody m dt.
    destruct (isLeapYear y);
      repeat (destruct Hm as [Hm|Hm]; [subst m; eval_monthStart; lia|]);
      subst m; eval_monthStart; lia. }
  unfold makeDay.
  pose proof (dayFromYear_le 0 y ltac:(lia)).
  pose proof (dayFromYear_le (y + 1) 10000 ltac:(lia)).
  rewrite dayFromYear_succ in *. lia.
Qed.

Lemma parseISO_inJsRange w d n :
  parseISO w = Some d -> -10000000 <= n <= 10000000 ->
  inJsRange (dayNumber d + 7 * n) /\ inJsRange (weekStartDay d + 7 * n).
Proof.
  intros Hp Hn. apply parseISO_range in Hp.
  change (dayFromYear 0) with (-719528) in Hp.
  change (dayFromYear 10000) with 2932897 in Hp.
  pose proof (weekStartDay_bounds d). unfold inJsRange. lia.
Qed.

(** Shifting a week id: the Sunday of its week, [n] weeks later. *)
Lemma shift_weekId w d n :
  parseISO w = Some d -> -10000000 <= n <= 10000000 ->
  normalizeToSunday (ofDate (addWeeks (parseISO w) n))
  = format (Some (mkDateTime (weekStartDay d + 7 * n) 0)).
Proof.
  intros Hp Hn. destruct (parseISO_inJsRange w d n Hp Hn) as [Hr1 Hr2].
  pose proof (parseISO_wellFormed _ _ Hp) as Hw.
  rewrite Hp, (addWeeks_valid d n Hw Hr1).
  set (d' := mkDateTime (dayNumber d + 7 * n) (msOfDay d)).
  assert (Hws : weekStartDay d' = weekStartDay d + 7 * n) by apply weekStartDay_shift.
  rewrite (normalizeToSunday_format (ofDate (Some d')) d' eq_refl Hw);
    rewrite Hws; [reflexivity | exact Hr2].
Qed.

(** [mapM] succeeds when every element does, and relates the two lists. *)
Lemma mapM_related {A B} (f : A -> option B) (R : A -> B -> Prop) (l : list A) :
  (forall x, In x l -> exists y, f x = Some y /\ R x y) ->
  exists k, mapM f l = Some k /\ Forall2 R l k.
Proof.
  induction l as [|x l IH]; intros H.
  - exists []. split; [reflexivity | constructor].
  - destruct (H x (or_introl eq_refl)) as (y & Hy & HR).
    destruct IH as (k & Hk & HF); [intros z Hz; apply H; now right|].
    exists (y :: k). split; [|now constructor].
    apply mapM_Some_2. constructor; [exact Hy | now apply mapM_Some_1].
Qed.

(** All fields of a task but [weekId] agree. *)
Definition sameButWeekId (t t' : Task.t) : Prop :=
  Task.id t' = Task.id t /\ Task.experimentId t' = Task.experimentId t
  /\ Task.title t' = Task.title t /\ Task.description t' = Task.description t
  /\ Task.status t' = Task.status t /\ Task.importance t' = Task.importance t
  /\ Task.completed t' = Task.completed t /\ Task.tags t' = Task.tags t
  /\ Task.attachments t' = Task.attachments t
  /\ Task.dependencies t' = Task.dependencies t
  /\ Task.recurrenceGroupId t' = Task.recurrenceGroupId t
  /\ Task.planTaskId t' = Task.planTaskId t.

(** All fields of an experiment but [endDate] agree. *)
Definition sameButEndDate (e e' : Experiment.t) : Prop :=
  Experiment.id e' = Experiment.id e /\ Experiment.name e' = Experiment.name e
  /\ Experiment.description e' = Experiment.description e
  /\ Experiment.collaborators e' = Experiment.collaborators e
  /\ Experiment.startDate e' = Experiment.startDate e
  /\ Experiment.expectedWeeks e' = Experiment.expectedWeeks e
  /\ Experiment.status e' = Experiment.status e
  /\ Experiment.attachments e' = Experiment.attachments e
  /\ Experiment.proposalText e' = Experiment.proposalText e
  /\ Experiment.originalPlan e' = Experiment.originalPlan e
  /\ Experiment.style e' = Experiment.style e
  /\ Experiment.aiInsights e' = Experiment.aiInsights e.

(** [w'] is the canonical id of the week [n] weeks after the week of [w]. *)
Definition weekLater (n : Z) (w w' : string) : Prop :=
  exists d,
    parseISO w = Some d
    /\ format (Some (mkDateTime (weekStartDay d + 7 * n) 0)) = Some w'
    /\ (fourDigitYear (weekStartDay d + 7 * n) ->
        parseISO w' = Some (mkDateTime (weekStartDay d + 7 * n) 0)).

(** What the shift does to one task and to one experiment. *)
Definition taskShifted (experimentId : string) (n : Z) (t t' : Task.t) : Prop :=
  (Task.experimentId t = experimentId /\ Task.completed t = false ->
   weekLater n (Task.weekId t) (Task.weekId t') /\ sameButWeekId t t')
  /\ (Task.experimentId t <> experimentId \/ Task.completed t = true -> t' = t).

Definition experimentShifted (experimentId : string) (n : Z) (e e' : Experiment.t) : Prop :=
  (Experiment.id e <> experimentId -> e' = e)
  /\ (Experiment.id e = experimentId ->
      sameButEndDate e e'
      /\ match Experiment.endDate e with
         | Some endDate =>
             if truthy (Some endDate)
             then exists w', Experiment.endDate e' = Some w' /\ weekLater n endDate w'
             else Experiment.endDate e' = None
         | None => Experiment.endDate e' = None
         end).

Lemma weekLater_shift w d n :
  parseISO w = Some d -> -10000000 <= n <= 10000000 ->
  exists w', normalizeToSunday (ofDate (addWeeks (parseISO w) n)) = Some w'
             /\ weekLater n w w'.
Proof.
  intros Hp Hn. rewrite (shift_weekId w d n Hp Hn).
  destruct (format_Some (mkDateTime (weekStartDay d + 7 * n) 0)) as [w' Hf].
  exists w'. split; [exact Hf|]. exists d. split; [exact Hp|]. split; [exact Hf|].
  intros Hr. now apply (parseISO_format (mkDateTime (weekStartDay d + 7 * n) 0)).
Qed.

(** C7, as the code has it.  Shifting the timeline of an experiment by
    [weeksDelta] weeks (week ids and end date being valid dates, the shift
    within ten million weeks) succeeds and returns the tasks in the same
    order: a task of the experiment with [completed = false] gets the id of
    the week [weeksDelta] weeks after its own and is otherwise unchanged;
    every completed task and every task of another experiment is returned
    as it was.  The experiment keeps all fields but [endDate], which, when
    present and not empty, becomes the Sunday that begins the week
    [weeksDelta] weeks after the week it lies in (so it moves by exactly
    [weeksDelta] weeks only if it was a Sunday); other experiments and the
    rest of the data are unchanged. *)
Theorem handleShiftExperimentTimeline_spec :
  forall (prev : AppData.t) (experimentId : string) (weeksDelta : Z),
    -10000000 <= weeksDelta <= 10000000 ->
    (forall t, In t (AppData.tasks prev) ->
               Task.experimentId t = experimentId -> Task.completed t = false ->
               exists d, parseISO (Task.weekId t) = Some d) ->
    (forall e endDate, In e (AppData.experiments prev) ->
               Experiment.id e = experimentId ->
               Experiment.endDate e = Some endDate -> endDate <> "" ->
               exists d, parseISO endDate = Some d) ->
    exists next,
      handleShiftExperimentTimeline experimentId weeksDelta prev = Some next
      /\ Forall2 (taskShifted experimentId weeksDelta)
                 (AppData.tasks prev) (AppData.tasks next)
      /\ Forall2 (experimentShifted experimentId weeksDelta)
                 (AppData.experiments prev) (AppData.experiments next)
      /\ AppData.schemaVersion next = AppData.schemaVersion prev
      /\ AppData.hiddenWeeks next = AppData.hiddenWeeks prev.
Proof.
  intros prev experimentId n Hn Htasks Hexps.
  unfold handleShiftExperimentTimeline.
  match goal with
  | |- context [mapM ?f (AppData.tasks prev)] =>
      destruct (mapM_related f (taskShifted experimentId n) (AppData.tasks prev))
        as (ts & Hts & HFt)
  end.
  { intros t Hin.
    destruct (String.eqb_spec (Task.experimentId t) experimentId) as [He|He];
      destruct (Task.completed t) eqn:Hc; cbn [andb negb].
    - exists t. split; [reflexivity|]. split; [intros [_ ?]; congruence | reflexivity].
    - destruct (Htasks t Hin He Hc) as [d Hd].
      destruct (weekLater_shift _ d n Hd Hn) as (w' & -> & Hlater).
      cbn [mbind option_bind]. exists (Task.with_weekId w' t).
      split; [reflexivity|]. split.
      + intros _. split; [exact Hlater | repeat split].
      + intros [?|?]; congruence.
    - exists t. split; [reflexivity|]. split; [intros [? _]; congruence | reflexivity].
    - exists t. split; [reflexivity|]. split; [intros [? _]; congruence | reflexivity]. }
  match goal with
  | |- context [mapM ?f (AppData.experiments prev)] =>
      destruct (mapM_related f (experimentShifted experimentId n) (AppData.experiments prev))
        as (es & Hes & HFe)
  end.
  { intros e Hin.
    destruct (String.eqb_spec (Experiment.id e) experimentId) as [He|He].
    - destruct (Experiment.endDate e) as [endDate|] eqn:Hend.
      + destruct (truthy (Some endDate)) eqn:Htr.
        * assert (Hne : endDate <> "").
          { intros ->. discriminate. }
          destruct (Hexps e endDate Hin He Hend Hne) as [d Hd].
          destruct (weekLater_shift _ d n Hd Hn) as (w' & -> & Hlater).
          cbn [mbind option_bind]. exists (Experiment.with_endDate (Some w') e).
          split; [reflexivity|]. split; [congruence|]. intros _.
          split; [repeat split|]. rewrite Hend, Htr. eauto.
        * exists (Experiment.with_endDate None e).
          split; [reflexivity|]. split; [congruence|]. intros _.
          split; [repeat split|]. rewrite Hend, Htr. reflexivity.
      + exists (Experiment.with_endDate None e).
        split; [reflexivity|]. split; [congruence|]. intros _.
        split; [repeat split|]. rewrite Hend. reflexivity.
    - exists e. split; [reflexivity|]. split; [reflexivity | congruence]. }
  rewrite Hts. cbn [mbind option_bind]. rewrite Hes. cbn [mbind option_bind].
  eexists. split; [reflexivity|]. cbn. auto.
Qed.

(** A board with two open tasks and one completed task of experiment "e". *)
Definition shiftBoard : AppData.t :=
  AppData.mk
    [Experiment.mk "e" "E" "" [] "2024-01-07" (Some "2024-03-06") 4 active [] None None None None]
    [sampleTask "a" "e" "2024-01-07" false [];
     sampleTask "b" "e" "2024-01-14" true [];
     sampleTask "c" "e" "2024-01-21" false ["a"];
     sampleTask "z" "other" "2024-01-21" false []]
    1 [].

Lemma handleShiftExperimentTimeline_spec_witness :
  exists next,
    handleShiftExperimentTimeline "e" 1 shiftBoard = Some next
    /\ Forall2 (taskShifted "e" 1) (AppData.tasks shiftBoard) (AppData.tasks next)
    /\ Forall2 (experimentShifted "e" 1)
               (AppData.experiments shiftBoard) (AppData.experiments next)
    /\ AppData.schemaVersion next = AppData.schemaVersion shiftBoard
    /\ AppData.hiddenWeeks next = AppData.hiddenWeeks shiftBoard.
Proof.
  apply (handleShiftExperimentTimeline_spec shiftBoard "e" 1).
  - lia.
  - intros t Hin _ _. cbn in Hin.
    destruct Hin as [<-|[<-|[<-|[<-|[]]]]]; eexists; vm_compute; reflexivity.
  - intros e endDate Hin _ Hend _. cbn in Hin. destruct Hin as [<-|[]].
    cbn in Hend. injection Hend as <-. eexists; vm_compute; reflexivity.
Defined.

Example handleShiftExperimentTimeline_run :
  handleShiftExperimentTimeline "e" 1 shiftBoard =
  Some (AppData.mk
    [Experiment.mk "e" "E" "" [] "2024-01-07" (Some "2024-03-10") 4 active [] None None None None]
    [sampleTask "a" "e" "2024-01-14" false [];
     sampleTask "b" "e" "2024-01-14" true [];
     sampleTask "c" "e" "2024-01-28" false ["a"];
     sampleTask "z" "other" "2024-01-21" false []]
    1 []).
Proof. vm_compute. reflexivity. Qed.

(** [w'] is the date [n] weeks after the date [w]. *)
Definition movedByWeeks (n : Z) (w w' : string) : Prop :=
  exists d d', parseISO w = Some d /\ parseISO w' = Some d'
               /\ dayNumber d' = dayNumber d + 7 * n.

(** C7, as stated, fails for the end date, which is not moved by
    [weeksDelta] weeks: on [shiftBoard] the shift by one week takes the end
    date from Wednesday 2024-03-06 to Sunday 2024-03-10, four days on. *)
Lemma handleShiftExperimentTimeline_counterexample :
  ~ (forall (prev next : AppData.t) (experimentId : string) (weeksDelta : Z),
        handleShiftExperimentTimeline experimentId weeksDelta prev = Some next ->
        Forall2 (fun e e' =>
                   Experiment.id e = experimentId ->
                   forall endDate, Experiment.endDate e = Some endDate ->
                     exists w', Experiment.endDate e' = Some w'
                                /\ movedByWeeks weeksDelta endDate w')
                (AppData.experiments prev) (AppData.experiments next)).
Proof.
  intros H.
  assert (Hrun : exists next, handleShiftExperimentTimeline "e" 1 shiftBoard = Some next
                              /\ List.map Experiment.endDate (AppData.experiments next)
                                 = [Some "2024-03-10"])
    by (eexists; split; vm_compute; reflexivity).
  destruct Hrun as (next & Hrun & Hend).
  specialize (H shiftBoard next "e" 1 Hrun).
  cbn [shiftBoard AppData.experiments] in H.
  destruct (AppData.experiments next) as [|e' [|? ?]]; try discriminate.
  apply Forall2_cons_1 in H as [H _].
  destruct (H eq_refl "2024-03-06" eq_refl) as (w' & Hw' & d & d' & Hd & Hd' & Hmove).
  cbn [List.map] in Hend. injection Hend as Hend. rewrite Hend in Hw'. injection Hw' as <-.
  vm_compute in Hd. injection Hd as <-. vm_compute in Hd'. injection Hd' as <-.
  vm_compute in Hmove. discriminate.
Qed.

(** A shift by no week is not the identity on such an end date either. *)
Example handleShiftExperimentTimeline_zero :
  (next ← handleShiftExperimentTimeline "e" 0 shiftBoard;
   Some (List.map Experiment.endDate (AppData.experiments next)))
  = Some [Some "2024-03-03"].
Proof. vm_compute. reflexivity. Qed.

End TimelineShift.

(** ** Clock changes *)

Section ClockChanges.
Import DateFns.

(** A clock change skips less than what is left of its day after it: a date
    set into the skipped stretch stays on the same day. *)
Definition wellFormedZone (tz : LocalTime.TimeZone) : Prop :=
  forall day from len,
    LocalTime.gap tz day = Some (from, len) ->
    0 <= from /\ 0 < len /\ from + 2 * len <= msPerDay.

(** Midnight of [day] is on the clock. *)
Definition midnightExists (tz : LocalTime.TimeZone) (day : Z) : Prop :=
  LocalTime.resolve tz day 0 = mkDateTime day 0.

Lemma noClockChanges_wellFormed : wellFormedZone LocalTime.noClockChanges.
Proof. intros day from len H. discriminate. Qed.

Lemma forwardAtMidnight_wellFormed day : wellFormedZone (LocalTime.forwardAtMidnight day).
Proof.
  intros d from len H. cbn in H. destruct (d =? day); [|discriminate].
  injection H as <- <-. unfold msPerDay. lia.
Qed.

Lemma resolve_day tz day ms :
  wellFormedZone tz -> 0 <= ms < msPerDay ->
  dayNumber (LocalTime.resolve tz day ms) = day
  /\ wellFormed (LocalTime.resolve tz day ms).
Proof.
  intros Hwf Hms. unfold LocalTime.resolve, wellFormed.
  destruct (LocalTime.gap tz day) as [[from len]|] eqn:Hgap; [|cbn; lia].
  destruct (Hwf day from len Hgap) as (Hfrom & Hlen & Hend).
  destruct (Z.leb_spec from ms); destruct (Z.ltb_spec ms (from + len));
    cbn [andb dayNumber msOfDay]; try lia.
  rewrite Z.div_small, Z.mod_small by lia. lia.
Qed.

(** The printed date is that of the day, whatever the time. *)
Lemma format_day d : format (Some d) = format (Some (mkDateTime (dayNumber d) 0)).
Proof. now destruct d. Qed.

Lemma timeClip_Some d t : timeClip d = Some t -> t = d.
Proof. unfold timeClip. destruct (_ <=? _); congruence. Qed.

(** [parseISO] in a time zone: the date read, at the first time of its day
    that is on the clock. *)
Lemma parseISO_local tz w t :
  LocalTime.parseISO tz w = Some t ->
  exists d, parseISO w = Some d /\ t = LocalTime.resolve tz (dayNumber d) 0.
Proof.
  unfold LocalTime.parseISO, LocalTime.setMidnight.
  destruct (parseISO w) as [d|]; [|discriminate]. cbn [mbind option_bind].
  intros H. apply timeClip_Some in H. eauto.
Qed.

Lemma parseISO_local_value tz w d :
  wellFormedZone tz -> parseISO w = Some d ->
  LocalTime.parseISO tz w = Some (LocalTime.resolve tz (dayNumber d) 0).
Proof.
  intros Hwf Hp. unfold LocalTime.parseISO, LocalTime.setMidnight. rewrite Hp.
  cbn [mbind option_bind].
  destruct (resolve_day tz (dayNumber d) 0 Hwf ltac:(unfold msPerDay; lia)) as [Hday Hw].
  apply timeClip_ok; [|exact Hw]. rewrite Hday.
  destruct (parseISO_inJsRange w d 0 Hp ltac:(lia)) as [Hr _]. now rewrite Z.add_0_r in Hr.
Qed.

Lemma parseISO_local_midnight tz w t :
  wellFormedZone tz -> LocalTime.parseISO tz w = Some t ->
  midnightExists tz (dayNumber t) ->
  parseISO w = Some t /\ msOfDay t = 0.
Proof.
  intros Hwf Hp Hm. apply parseISO_local in Hp as (d & Hd & ->).
  destruct (resolve_day tz (dayNumber d) 0 Hwf ltac:(unfold msPerDay; lia)) as [Hday _].
  rewrite Hday in Hm. unfold midnightExists in Hm. rewrite Hm.
  pose proof (parseISO_midnight _ _ Hd) as Hms. destruct d as [day ms].
  cbn in Hms. subst ms. split; [exact Hd | reflexivity].
Qed.

(** The date-level result of [startOfWeek] does not depend on the clock
    changes of the zone. *)
Lemma startOfWeek_local tz d :
  wellFormedZone tz -> wellFormed d -> inJsRange (weekStartDay d) ->
  exists r, LocalTime.startOfWeek tz (Some d) 0 = Some r
            /\ r = LocalTime.resolve tz (weekStartDay d) 0.
Proof.
  intros Hwf Hw Hr. unfold LocalTime.startOfWeek. cbn [mbind option_bind].
  pose proof (getDay_range d) as Hg.
  destruct (Z.ltb_spec (getDay d) 0); [lia|].
  replace (dayNumber d + - (0 + getDay d - 0)) with (weekStartDay d)
    by (unfold weekStartDay; lia).
  unfold LocalTime.shiftDays.
  replace (dayNumber d + - (0 + getDay d - 0)) with (weekStartDay d)
    by (unfold weekStartDay; lia).
  destruct (resolve_day tz (weekStartDay d) (msOfDay d) Hwf Hw) as [Hday1 Hw1].
  rewrite timeClip_ok by (rewrite ?Hday1; assumption).
  cbn [mbind option_bind]. unfold LocalTime.setMidnight. rewrite Hday1.
  destruct (resolve_day tz (weekStartDay d) 0 Hwf ltac:(unfold msPerDay; lia)) as [Hday2 Hw2].
  rewrite timeClip_ok by (rewrite ?Hday2; assumption). eauto.
Qed.

Lemma normalizeToSunday_local tz x d :
  wellFormedZone tz ->
  LocalTime.toJsDate tz x = Some d -> wellFormed d -> inJsRange (weekStartDay d) ->
  LocalTime.normalizeToSunday tz x = format (Some (mkDateTime (weekStartDay d) 0)).
Proof.
  intros Hwf Hx Hw Hr. unfold LocalTime.normalizeToSunday. rewrite Hx.
  destruct (startOfWeek_local tz d Hwf Hw Hr) as (r & -> & ->).
  rewrite format_day.
  now destruct (resolve_day tz (weekStartDay d) 0 Hwf ltac:(unfold msPerDay; lia)) as [-> _].
Qed.

Lemma addWeeks_local tz d n :
  wellFormedZone tz -> wellFormed d -> inJsRange (dayNumber d + 7 * n) ->
  exists d', LocalTime.addWeeks tz (Some d) n = Some d'
             /\ dayNumber d' = dayNumber d + 7 * n /\ wellFormed d'.
Proof.
  intros Hwf Hw Hr. unfold LocalTime.addWeeks, LocalTime.addDays. cbn [mbind option_bind].
  destruct (Z.eqb_spec (n * 7) 0) as [E|E].
  - exists d. split; [reflexivity|]. split; [lia | exact Hw].
  - unfold LocalTime.shiftDays. replace (n * 7) with (7 * n) by lia.
    destruct (resolve_day tz (dayNumber d + 7 * n) (msOfDay d) Hwf Hw) as [Hday Hw'].
    rewrite timeClip_ok by (rewrite ?Hday; assumption). eauto.
Qed.

(** The week ids written by the wizard and by the timeline shift are the
    same in every time zone: [normalizeToSunday(addWeeks(parseISO(w), n))]
    prints a date, and clock changes move no date.  This is why those
    handlers are embedded over [DateFns], without clock changes. *)
Lemma shift_weekId_any_zone tz w d n :
  wellFormedZone tz ->
  parseISO w = Some d -> -10000000 <= n <= 10000000 ->
  LocalTime.normalizeToSunday tz
    (ofDate (LocalTime.addWeeks tz (LocalTime.parseISO tz w) n))
  = normalizeToSunday (ofDate (addWeeks (parseISO w) n)).
Proof.
  intros Hwf Hp Hn. rewrite (shift_weekId w d n Hp Hn).
  rewrite (parseISO_local_value tz w d Hwf Hp).
  destruct (resolve_day tz (dayNumber d) 0 Hwf ltac:(unfold msPerDay; lia)) as [Hday Hw].
  destruct (parseISO_inJsRange w d n Hp Hn) as [Hr1 Hr2].
  set (s := LocalTime.resolve tz (dayNumber d) 0) in *.
  destruct (addWeeks_local tz s n Hwf Hw ltac:(now rewrite Hday)) as (d' & -> & Hday' & Hw').
  assert (Hws : weekStartDay d' = weekStartDay d + 7 * n).
  { destruct d' as [day' ms']. cbn [dayNumber] in Hday'. subst day'. rewrite Hday.
    apply (weekStartDay_shift d n ms'). }
  rewrite (normalizeToSunday_local tz (ofDate (Some d')) d' Hwf eq_refl Hw')
    by (now rewrite Hws).
  now rewrite Hws.
Qed.

Lemma roundDiv_days k m :
  0 <= 2 * m < msPerDay -> LocalTime.roundDiv (k * msPerDay + m) msPerDay = k.
Proof.
  unfold LocalTime.roundDiv, msPerDay. intros Hm.
  symmetry. apply (Z.div_unique _ _ k (2 * m + 86400000)); [left; lia | lia].
Qed.

(** Between two midnights that are on the clock, [differenceInDays] is the
    difference of the dates. *)
Lemma differenceInDays_midnight tz l r :
  msOfDay l = 0 -> msOfDay r = 0 ->
  midnightExists tz (dayNumber l) -> midnightExists tz (dayNumber r) ->
  LocalTime.differenceInDays tz l r = dayNumber l - dayNumber r.
Proof.
  intros Hl Hr Hml Hmr.
  unfold LocalTime.differenceInDays, LocalTime.differenceInCalendarDays,
    LocalTime.startOfDay, LocalTime.compareLocalAsc.
  unfold midnightExists in Hml, Hmr. rewrite Hml, Hmr.
  unfold LocalTime.wallClock. cbn [dayNumber msOfDay]. rewrite Hl, Hr.
  set (k := dayNumber l - dayNumber r).
  replace (dayNumber l * msPerDay + 0 - (dayNumber r * msPerDay + 0)) with (k * msPerDay + 0)
    by (subst k; lia).
  rewrite roundDiv_days by (unfold msPerDay; cbn; lia). rewrite Z.add_0_r.
  assert (Hsgn : Z.sgn (k * msPerDay) = Z.sgn k) by (destruct k; reflexivity).
  rewrite Hsgn.
  assert (Habs : Z.sgn k * Z.abs k = k) by (destruct k; cbn; lia).
  rewrite Habs. replace (dayNumber l - k) with (dayNumber r) by (subst k; lia).
  rewrite Hmr. cbn [dayNumber msOfDay]. rewrite Z.sub_diag.
  change (Z.sgn 0) with 0.
  destruct k as [|p|p].
  - reflexivity.
  - change (Z.sgn (Z.pos p)) with 1. change (0 =? Z.opp 1) with false. cbv iota. lia.
  - change (Z.sgn (Z.neg p)) with (-1). change (0 =? Z.opp (-1)) with false. cbv iota. lia.
Qed.

Lemma weekOffsetOf_midnight tz s t :
  msOfDay s = 0 -> msOfDay t = 0 ->
  midnightExists tz (dayNumber s) -> midnightExists tz (dayNumber t) ->
  weekOffsetOf tz s t = Z.quot (dayNumber t - dayNumber s) 7.
Proof.
  intros Hs Ht Hms Hmt. unfold weekOffsetOf, LocalTime.differenceInWeeks.
  now rewrite differenceInDays_midnight.
Qed.

End ClockChanges.

(** ** Week offsets *)

Section WeekOffsets.
Import DateFns.

(** The round-trip law for a start date and an offset, in the time zone
    [tz]: the date shown for the offset exists, is a valid date, and has
    that offset again. *)
Definition roundTripLaw (tz : LocalTime.TimeZone) (start : string) (n : Z) : Prop :=
  forall s, LocalTime.parseISO tz start = Some s ->
    exists w t,
      dateFromOffset tz (Some s) n = Some w
      /\ LocalTime.parseISO tz w = Some t
      /\ weekOffsetOf tz s t = n.

(** The date shown for an offset is the Sunday of the week that many weeks
    on, in every time zone. *)
Lemma dateFromOffset_value tz s n :
  wellFormedZone tz ->
  wellFormed s -> fourDigitYear (weekStartDay s + 7 * n) ->
  inJsRange (dayNumber s + 7 * n) ->
  exists w,
    dateFromOffset tz (Some s) n = Some w
    /\ parseISO w = Some (mkDateTime (weekStartDay s + 7 * n) 0).
Proof.
  intros Hwf Hw Hr Hjs. unfold dateFromOffset.
  destruct (addWeeks_local tz s n Hwf Hw Hjs) as (d & -> & Hday & Hwd).
  assert (Hws : weekStartDay d = weekStartDay s + 7 * n).
  { destruct d as [day ms]. cbn [dayNumber] in Hday. subst day.
    apply weekStartDay_shift. }
  destruct (format_Some (mkDateTime (weekStartDay d) 0)) as [w Hfmt].
  exists w. split.
  - rewrite (normalizeToSunday_local tz (ofDate (Some d)) d Hwf eq_refl Hwd); [exact Hfmt|].
    rewrite Hws. now apply fourDigitYear_inJsRange.
  - rewrite <- Hws. apply (parseISO_format (mkDateTime (weekStartDay d) 0)); [|exact Hfmt].
    cbn [dayNumber]. now rewrite Hws.
Qed.

Lemma fourDigitYear_week_day s n :
  fourDigitYear (weekStartDay s + 7 * n) -> inJsRange (dayNumber s + 7 * n).
Proof.
  unfold fourDigitYear, inJsRange.
  change (dayFromYear 1) with (-719162). change (dayFromYear 10000) with 2932897.
  pose proof (weekStartDay_bounds s). lia.
Qed.

(** C2, as the code has it.  In a time zone in which midnight is on the
    clock both on the start date and on the Sunday shown, the offset of the
    date shown for offset [n] is [n] again whenever the start date is a
    Sunday, and for a start on any other weekday whenever [n] is not
    positive.  (The week shown must begin within the four-digit years.) *)
Theorem weekOffset_roundtrip :
  forall (tz : LocalTime.TimeZone) (start : string) (s : DateTime) (n : Z),
    wellFormedZone tz ->
    LocalTime.parseISO tz start = Some s ->
    midnightExists tz (dayNumber s) ->
    midnightExists tz (weekStartDay s + 7 * n) ->
    getDay s = 0 \/ n <= 0 ->
    fourDigitYear (weekStartDay s + 7 * n) ->
    roundTripLaw tz start n.
Proof.
  intros tz start s n Hwf Hs Hm0 Hm1 Hcase Hr s' Hs'. rewrite Hs in Hs'. injection Hs' as <-.
  destruct (parseISO_local_midnight tz start s Hwf Hs Hm0) as [Hs0 Hms].
  pose proof (parseISO_wellFormed _ _ Hs0) as Hw.
  destruct (dateFromOffset_value tz s n Hwf Hw Hr (fourDigitYear_week_day s n Hr))
    as (w & Hd & Hp).
  exists w, (mkDateTime (weekStartDay s + 7 * n) 0). split; [exact Hd|]. split.
  { rewrite (parseISO_local_value tz w _ Hwf Hp). cbn [dayNumber]. now rewrite Hm1. }
  rewrite weekOffsetOf_midnight by (assumption || reflexivity).
  cbn [dayNumber]. unfold weekStartDay. pose proof (getDay_range s) as Hg.
  replace (dayNumber s - getDay s + 7 * n - dayNumber s) with (7 * n - getDay s) by lia.
  destruct Hcase as [H0|Hn].
  - rewrite H0, Z.sub_0_r, Z.mul_comm. apply Z.quot_mul. lia.
  - replace (7 * n - getDay s) with (- (7 * (- n) + getDay s)) by lia.
    rewrite Z.quot_opp_l by lia.
    rewrite Z.quot_div_nonneg by lia.
    replace (7 * - n + getDay s) with (getDay s + (- n) * 7) by lia.
    rewrite Z.div_add by lia. rewrite Z.div_small by lia. lia.
Qed.

Lemma weekOffset_roundtrip_witness : roundTripLaw LocalTime.noClockChanges "2024-01-07" 10.
Proof.
  apply (weekOffset_roundtrip LocalTime.noClockChanges "2024-01-07" (mkDateTime 19729 0) 10).
  - exact noClockChanges_wellFormed.
  - vm_compute. reflexivity.
  - reflexivity.
  - reflexivity.
  - left. vm_compute. reflexivity.
  - unfold fourDigitYear. vm_compute. split; [discriminate | reflexivity].
Defined.

(** C2, as stated, fails, clock changes or not: from the Wednesday
    2024-01-10 the date shown for offset 1 is 2024-01-14, four days later,
    whose offset is 0. *)
Lemma weekOffset_roundtrip_counterexample :
  ~ (forall (start : string) (n : Z),
        (exists s, LocalTime.parseISO LocalTime.noClockChanges start = Some s) ->
        roundTripLaw LocalTime.noClockChanges start n).
Proof.
  intros H.
  destruct (H "2024-01-10" 1 (ex_intro _ (mkDateTime 19732 0) eq_refl)
              (mkDateTime 19732 0) eq_refl) as (w & t & Hw & Ht & Hoff).
  vm_compute in Hw. injection Hw as <-.
  vm_compute in Ht. injection Ht as <-.
  vm_compute in Hoff. discriminate.
Qed.

(** Why midnight must be on the clock: where the clocks are put forward at
    midnight of Sunday 2024-09-08, the date shown for offset -1 from Sunday
    2024-09-15 is 2024-09-08, which reads back as 01:00 of that day, six
    days and 23 hours before the start: its offset is 0. *)
Example weekOffset_roundtrip_clock_change :
  let tz := LocalTime.forwardAtMidnight 19974 in
  LocalTime.parseISO tz "2024-09-15" = Some (mkDateTime 19981 0)
  /\ dateFromOffset tz (Some (mkDateTime 19981 0)) (-1) = Some "2024-09-08"
  /\ LocalTime.parseISO tz "2024-09-08" = Some (mkDateTime 19974 3600000)
  /\ weekOffsetOf tz (mkDateTime 19981 0) (mkDateTime 19974 3600000) = 0.
Proof. vm_compute. repeat split. Qed.

(** The same through the table handler: typing offset 1 on a row of an
    experiment that starts on Wednesday 2024-01-10 shows 2024-01-14, and
    typing that date back shows offset 0. *)
Example handleRowChange_run :
  let tz := LocalTime.noClockChanges in
  let row := mkPlanRow (PlanTaskItem.mk "p" "T" "" 0 3 DEFAULT None []) None "2024-01-07" in
  (row' ← handleRowChange tz "2024-01-10" row (editWeekOffset 1);
   row'' ← handleRowChange tz "2024-01-10" row' (editActualDate (actualDate row'));
   Some (actualDate row', PlanTaskItem.weekOffset (rowItem row'')))
  = Some ("2024-01-14", 0).
Proof. vm_compute. reflexivity. Qed.

(** The difference in calendar weeks (weeks beginning on Sunday) between
    two dates, as the specification words the offset. *)
Definition calendarWeekDifference (s t : DateTime) : Z :=
  (weekStartDay t - weekStartDay s) / 7.

(** C3, as the code has it.  For two dates on which midnight is on the
    clock, the offset of the target is the number of days from the start to
    the target divided by 7 and rounded towards zero.  It is the difference
    in calendar weeks exactly when the target is not before the start and
    its weekday is not earlier than the start's, or the other way round; so
    it is whenever both dates are Sundays, and whenever the start is a
    Sunday and the target not before it. *)
Theorem weekOffsetOf_spec :
  forall (tz : LocalTime.TimeZone) (start target : string) (s t : DateTime),
    wellFormedZone tz ->
    LocalTime.parseISO tz start = Some s -> LocalTime.parseISO tz target = Some t ->
    midnightExists tz (dayNumber s) -> midnightExists tz (dayNumber t) ->
    weekOffsetOf tz s t = Z.quot (dayNumber t - dayNumber s) 7
    /\ (weekOffsetOf tz s t = calendarWeekDifference s t <->
        (dayNumber s <= dayNumber t /\ getDay s <= getDay t)
        \/ (dayNumber t <= dayNumber s /\ getDay t <= getDay s))
    /\ (getDay s = 0 -> getDay t = 0 ->
        weekOffsetOf tz s t = calendarWeekDifference s t)
    /\ (getDay s = 0 -> dayNumber s <= dayNumber t ->
        weekOffsetOf tz s t = calendarWeekDifference s t).
Proof.
  intros tz start target s t Hwf Hs Ht Hes Het.
  destruct (parseISO_local_midnight tz start s Hwf Hs Hes) as [_ Hms].
  destruct (parseISO_local_midnight tz target t Hwf Ht Het) as [_ Hmt].
  pose proof (getDay_range s) as Hgs. pose proof (getDay_range t) as Hgt.
  assert (Hq : weekOffsetOf tz s t = Z.quot (dayNumber t - dayNumber s) 7)
    by (now apply weekOffsetOf_midnight).
  assert (Hiff : weekOffsetOf tz s t = calendarWeekDifference s t <->
        (dayNumber s <= dayNumber t /\ getDay s <= getDay t)
        \/ (dayNumber t <= dayNumber s /\ getDay t <= getDay s)).
  { rewrite Hq. unfold calendarWeekDifference, weekStartDay.
    assert (Hdiv : exists k, dayNumber t - getDay t - (dayNumber s - getDay s) = 7 * k).
    { unfold getDay.
      exists ((dayNumber t + 4) / 7 - (dayNumber s + 4) / 7).
      pose proof (Z.div_mod (dayNumber t + 4) 7 ltac:(lia)).
      pose proof (Z.div_mod (dayNumber s + 4) 7 ltac:(lia)). lia. }
    destruct Hdiv as [k Hk]. rewrite Hk.
    replace (7 * k) with (k * 7) by lia. rewrite Z.div_mul by lia.
    set (a := getDay s) in *. set (b := getDay t) in *.
    assert (Hdiff : dayNumber t - dayNumber s = 7 * k + (b - a)) by lia.
    rewrite Hdiff.
    destruct (Z.le_gt_cases 0 (7 * k + (b - a))) as [Hpos|Hneg].
    - rewrite Z.quot_div_nonneg by lia.
      pose proof (Z.div_mod (7 * k + (b - a)) 7 ltac:(lia)).
      pose proof (Z.mod_pos_bound (7 * k + (b - a)) 7 ltac:(lia)). lia.
    - replace (7 * k + (b - a)) with (- (7 * (- k) + (a - b))) by lia.
      rewrite Z.quot_opp_l by lia. rewrite Z.quot_div_nonneg by lia.
      pose proof (Z.div_mod (7 * - k + (a - b)) 7 ltac:(lia)).
      pose proof (Z.mod_pos_bound (7 * - k + (a - b)) 7 ltac:(lia)). lia. }
  split; [exact Hq|]. split; [exact Hiff|]. split.
  - intros H0 H1. apply Hiff. lia.
  - intros H0 Hle. apply Hiff. lia.
Qed.

Lemma weekOffsetOf_spec_witness :
  weekOffsetOf LocalTime.noClockChanges (mkDateTime 19729 0) (mkDateTime 19739 0)
  = calendarWeekDifference (mkDateTime 19729 0) (mkDateTime 19739 0).
Proof.
  apply (weekOffsetOf_spec LocalTime.noClockChanges "2024-01-07" "2024-01-17"
                           (mkDateTime 19729 0) (mkDateTime 19739 0)).
  - exact noClockChanges_wellFormed.
  - vm_compute. reflexivity.
  - vm_compute. reflexivity.
  - reflexivity.
  - reflexivity.
  - vm_compute. reflexivity.
  - vm_compute. discriminate.
Defined.

(** C3, as stated, fails, clock changes or not: Sunday 2024-01-14 lies in
    the calendar week after that of Wednesday 2024-01-10, yet its offset
    from that start is 0. *)
Lemma weekOffsetOf_counterexample :
  ~ (forall (start target : string) (s t : DateTime),
        LocalTime.parseISO LocalTime.noClockChanges start = Some s ->
        LocalTime.parseISO LocalTime.noClockChanges target = Some t ->
        weekOffsetOf LocalTime.noClockChanges s t = calendarWeekDifference s t).
Proof.
  intros H.
  specialize (H "2024-01-10" "2024-01-14" (mkDateTime 19732 0) (mkDateTime 19736 0)
                eq_refl eq_refl).
  vm_compute in H. discriminate.
Qed.

(** Why midnight must be on the clock: where the clocks are put forward at
    midnight of Sunday 2024-09-08, that Sunday is one calendar week and
    seven dates before Sunday 2024-09-15, and its offset from it is 0. *)
Example weekOffsetOf_clock_change :
  let tz := LocalTime.forwardAtMidnight 19974 in
  LocalTime.parseISO tz "2024-09-15" = Some (mkDateTime 19981 0)
  /\ LocalTime.parseISO tz "2024-09-08" = Some (mkDateTime 19974 3600000)
  /\ weekOffsetOf tz (mkDateTime 19981 0) (mkDateTime 19974 3600000) = 0
  /\ calendarWeekDifference (mkDateTime 19981 0) (mkDateTime 19974 3600000) = -1
  /\ Z.quot (19974 - 19981) 7 = -1.
Proof. vm_compute. repeat split. Qed.

End WeekOffsets.

(** ** Plan expansion *)

Section PlanExpansion.
Import DateFns.

Variable uuid : nat -> string.

(** [Math.ceil(a / b)] for a positive [b]. *)
Definition ceilDiv (a b : Z) : Z := - ((- a) / b).

Lemma ceilDiv_spec (a b : Z) (j : nat) :
  1 <= b -> ((j < Z.to_nat (ceilDiv a b))%nat <-> Z.of_nat j * b < a).
Proof.
  intros Hb. unfold ceilDiv.
  pose proof (Z.div_mod (- a) b ltac:(lia)) as Hdm.
  pose proof (Z.mod_pos_bound (- a) b ltac:(lia)) as Hmod.
  set (q := - a / b) in *. set (m := (- a) mod b) in *.
  split; intros H.
  - assert (Hq : Z.of_nat j < - q) by lia. nia.
  - assert (Hq : Z.of_nat j < - q) by nia. lia.
Qed.

(** The [j]-th instance of a recurring entry expanded from supply index [k]. *)
Definition recurringInstance (k : nat) (s : DateTime) (experimentId : string)
    (draft : PlanTaskItem.t) (interval : Z) (j : nat) : Task.t :=
  Task.mk (uuid (k + 1 + j)) experimentId
          (PlanTaskItem.title draft +:+ " (" +:+ numberToString (Z.of_nat j + 1) +:+ ")")
          (PlanTaskItem.description draft)
          (formatValid (mkDateTime
             (weekStartDay s + 7 * (PlanTaskItem.weekOffset draft + Z.of_nat j * interval)) 0))
          (PlanTaskItem.status draft) (PlanTaskItem.importance draft)
          false [] [] [] (Some (uuid k)) (Some (PlanTaskItem.id draft)).

Lemma recurrenceLoop_runs startDate s experimentId draft interval duration k :
  parseISO startDate = Some s ->
  1 <= interval ->
  -10000000 <= PlanTaskItem.weekOffset draft ->
  PlanTaskItem.weekOffset draft + duration <= 10000000 ->
  forall (fuel c : nat) (acc : list Task.t),
    (c <= Z.to_nat (ceilDiv duration interval))%nat ->
    (Z.to_nat (ceilDiv duration interval) - c < fuel)%nat ->
    recurrenceLoop uuid fuel startDate experimentId (uuid k) draft interval duration
                   (Z.of_nat c * interval) (Z.of_nat c) acc (k + 1 + c)%nat
    = (Done (acc ++ List.map (recurringInstance k s experimentId draft interval)
                             (seq c (Z.to_nat (ceilDiv duration interval) - c))),
       (k + 1 + Z.to_nat (ceilDiv duration interval))%nat).
Proof.
  intros Hs Hi Hlo Hhi. set (total := Z.to_nat (ceilDiv duration interval)).
  induction fuel as [|fuel IH]; intros c acc Hc Hfuel; [lia|].
  cbn [recurrenceLoop].
  destruct (Z.ltb_spec (Z.of_nat c * interval) duration) as [Hlt|Hge].
  - assert (Hctot : (c < total)%nat) by (apply ceilDiv_spec; assumption).
    unfold bind at 1. unfold generateUUID at 1.
    unfold bind at 1. unfold orThrow at 1.
    rewrite (shift_weekId startDate s _ Hs) by nia.
    cbn [format mbind option_bind].
    replace (Z.of_nat c * interval + interval) with (Z.of_nat (S c) * interval) by lia.
    replace (Z.of_nat c + 1) with (Z.of_nat (S c)) by lia.
    replace (S (k + 1 + c)) with (k + 1 + S c)%nat by lia.
    rewrite IH by lia.
    replace (total - c)%nat with (S (total - S c)) by lia.
    cbn [seq List.map]. rewrite <- app_assoc. cbn [app].
    unfold recurringInstance at 2.
    replace (Z.of_nat (S c)) with (Z.of_nat c + 1) by lia. reflexivity.
  - assert (Hctot : ~ (c < total)%nat)
      by (intros Hlt; apply (ceilDiv_spec duration interval c Hi) in Hlt; lia).
    replace (total - c)%nat with 0%nat by lia.
    cbn [seq List.map]. rewrite app_nil_r. unfold ret. do 2 f_equal. lia.
Qed.

(** C5. A plan entry with a recurrence of interval at least one week (on a
    valid start date, offsets within ten million weeks) expands, given fuel
    for its iterations, into [ceil(durationWeeks / intervalWeeks)] instances
    (none when that is not positive), appended in order: there is an
    instance [k] exactly for the [k >= 0] with [k * intervalWeeks <
    durationWeeks]; it lies in the week [weekOffset + k * intervalWeeks] weeks
    after the week of the start date, its title is the entry's title followed
    by the 1-based counter in parentheses, it carries the one group id drawn
    for the entry and the entry's id as [planTaskId], and it starts not
    completed and without dependencies. *)
Theorem expandDraft_recurring_spec :
  forall (fuel : nat) (startDate experimentId : string) (s : DateTime)
         (finalTasks : list Task.t) (draft : PlanTaskItem.t) (r : RecurrenceConfig)
         (k : nat),
    PlanTaskItem.recurrence draft = Some r ->
    1 <= intervalWeeks r ->
    parseISO startDate = Some s ->
    -10000000 <= PlanTaskItem.weekOffset draft ->
    PlanTaskItem.weekOffset draft + durationWeeks r <= 10000000 ->
    (Z.to_nat (ceilDiv (durationWeeks r) (intervalWeeks r)) < fuel)%nat ->
    exists instances,
      expandDraft uuid fuel startDate experimentId finalTasks draft k
      = (Done (finalTasks ++ instances), (k + 1 + length instances)%nat)
      /\ Z.of_nat (length instances)
         = Z.max 0 (ceilDiv (durationWeeks r) (intervalWeeks r))
      /\ (forall j : nat,
            (j < length instances)%nat <->
            Z.of_nat j * intervalWeeks r < durationWeeks r)
      /\ (forall (j : nat) (t : Task.t),
            instances !! j = Some t ->
            weekLater (PlanTaskItem.weekOffset draft + Z.of_nat j * intervalWeeks r)
                      startDate (Task.weekId t)
            /\ Task.title t
               = PlanTaskItem.title draft +:+ " (" +:+ numberToString (Z.of_nat j + 1) +:+ ")"
            /\ Task.recurrenceGroupId t = Some (uuid k)
            /\ Task.planTaskId t = Some (PlanTaskItem.id draft)
            /\ Task.completed t = false
            /\ Task.dependencies t = []
            /\ Task.id t = uuid (k + 1 + j)
            /\ Task.experimentId t = experimentId).
Proof.
  intros fuel startDate experimentId s acc draft r k Hrec Hi Hs Hlo Hhi Hfuel.
  set (total := Z.to_nat (ceilDiv (durationWeeks r) (intervalWeeks r))) in *.
  exists (List.map (recurringInstance k s experimentId draft (intervalWeeks r)) (seq 0 total)).
  rewrite length_map, length_seq.
  split; [|split; [|split]].
  - unfold expandDraft. rewrite Hrec. unfold bind at 1, generateUUID at 1.
    pose proof (recurrenceLoop_runs startDate s experimentId draft
                  (intervalWeeks r) (durationWeeks r) k Hs Hi Hlo Hhi
                  fuel 0%nat acc ltac:(lia) ltac:(fold total; lia)) as Hloop.
    fold total in Hloop. rewrite Nat.sub_0_r, Nat.add_0_r in Hloop.
    change (Z.of_nat 0 * intervalWeeks r) with 0 in Hloop.
    replace (S k) with (k + 1)%nat by lia. exact Hloop.
  - subst total. lia.
  - intros j. now apply ceilDiv_spec.
  - intros j t Hj.
    apply list_lookup_fmap_Some in Hj as (j' & -> & Hj').
    apply lookup_seq in Hj' as [-> Hlt]. cbn [Nat.add].
    assert (Hjd : Z.of_nat j * intervalWeeks r < durationWeeks r)
      by (apply ceilDiv_spec; assumption).
    unfold recurringInstance. cbn.
    split; [|repeat split].
    exists s. split; [exact Hs|]. split; [reflexivity|].
    intros Hr. now apply (parseISO_format (mkDateTime _ 0)).
Qed.

Lemma recurrenceLoop_zero_interval startDate s experimentId groupId draft duration :
  parseISO startDate = Some s ->
  0 < duration ->
  -10000000 <= PlanTaskItem.weekOffset draft <= 10000000 ->
  forall (fuel : nat) (count : Z) (acc : list Task.t) (k : nat),
    fst (recurrenceLoop uuid fuel startDate experimentId groupId draft 0 duration
                        0 count acc k) = OutOfFuel.
Proof.
  intros Hs Hd Hoff. induction fuel as [|fuel IH]; intros count acc k; [reflexivity|].
  cbn [recurrenceLoop].
  destruct (Z.ltb_spec 0 duration) as [_|]; [|lia].
  unfold bind at 1. unfold generateUUID at 1.
  unfold bind at 1. unfold orThrow at 1.
  rewrite (shift_weekId startDate s _ Hs) by lia.
  cbn [format mbind option_bind]. change (0 + 0) with 0. apply IH.
Qed.

(** C4, on the code.  A recurrence with [intervalWeeks = 0] and a positive
    [durationWeeks] never leaves the loop: the running offset stays 0, so
    whatever fuel the loop is given it is cut off, and nothing is reported. *)
Theorem expandDraft_zero_interval_diverges :
  forall (fuel : nat) (startDate experimentId : string) (s : DateTime)
         (finalTasks : list Task.t) (draft : PlanTaskItem.t) (r : RecurrenceConfig)
         (k : nat),
    PlanTaskItem.recurrence draft = Some r ->
    intervalWeeks r = 0 ->
    0 < durationWeeks r ->
    parseISO startDate = Some s ->
    -10000000 <= PlanTaskItem.weekOffset draft <= 10000000 ->
    fst (expandDraft uuid fuel startDate experimentId finalTasks draft k) = OutOfFuel.
Proof.
  intros fuel startDate experimentId s acc draft r k Hrec Hi Hd Hs Hoff.
  unfold expandDraft. rewrite Hrec, Hi. unfold bind at 1, generateUUID at 1.
  now apply (recurrenceLoop_zero_interval startDate s).
Qed.

End PlanExpansion.

(** The supply used in the examples: u0, u1, u2, ... *)
Definition sampleUuid (n : nat) : string := "u" +:+ numberToString (Z.of_nat n).

Definition feedEntry (interval duration : Z) : PlanTaskItem.t :=
  PlanTaskItem.mk "p1" "Feed" "" 2 3 DEFAULT (Some (mkRecurrence interval duration)) [].

Lemma expandDraft_recurring_spec_witness :
  exists instances,
    expandDraft sampleUuid 10 "2024-01-07" "e" [] (feedEntry 2 5) 0%nat
    = (Done ([] ++ instances), (0 + 1 + length instances)%nat)
    /\ Z.of_nat (length instances) = Z.max 0 (ceilDiv 5 2).
Proof.
  destruct (expandDraft_recurring_spec sampleUuid 10 "2024-01-07" "e"
              (DateFns.mkDateTime 19729 0) [] (feedEntry 2 5) (mkRecurrence 2 5) 0%nat)
    as (instances & Hrun & Hlen & _).
  - reflexivity.
  - cbn. lia.
  - vm_compute. reflexivity.
  - cbn. lia.
  - cbn. lia.
  - vm_compute. lia.
  - exists instances. split; assumption.
Defined.

Example expandDraft_recurring_run :
  fst (expandDraft sampleUuid 10 "2024-01-07" "e" [] (feedEntry 2 5) 0%nat)
  = Done [Task.mk "u1" "e" "Feed (1)" "" "2024-01-21" DEFAULT 3 false [] [] []
                  (Some "u0") (Some "p1");
          Task.mk "u2" "e" "Feed (2)" "" "2024-02-04" DEFAULT 3 false [] [] []
                  (Some "u0") (Some "p1");
          Task.mk "u3" "e" "Feed (3)" "" "2024-02-18" DEFAULT 3 false [] [] []
                  (Some "u0") (Some "p1")].
Proof. vm_compute. reflexivity. Qed.

Lemma expandDraft_zero_interval_diverges_witness :
  fst (expandDraft sampleUuid 1000 "2024-01-07" "e" [] (feedEntry 0 4) 0%nat) = OutOfFuel.
Proof.
  apply (expandDraft_zero_interval_diverges sampleUuid 1000 "2024-01-07" "e"
           (DateFns.mkDateTime 19729 0) [] (feedEntry 0 4) (mkRecurrence 0 4) 0%nat).
  - reflexivity.
  - reflexivity.
  - cbn. lia.
  - vm_compute. reflexivity.
  - cbn. lia.
Defined.

(** ** Cycle guard *)

(** A non-empty path starts with a step. *)
Lemma tc_first_step {A} (R : relation A) (x z : A) :
  tc R x z -> exists y, R x y /\ rtc R y z.
Proof.
  intros H. destruct H as [x z Hxz | x y z Hxy Hyz].
  - exists z. split; [exact Hxz | apply rtc_refl].
  - exists y. split; [exact Hxy | now apply tc_rtc].
Qed.

Section Traversal.

(** The adjacency map the traversal walks, and a finite set of identifiers
    that contains every neighbour. *)
Variable adj : gmap string (list string).
Variable U : gset string.

Definition edge (u v : string) : Prop := v ∈ neighborsOf adj u.

(** A directed cycle that can be reached from [x]. *)
Definition cycleFrom (x : string) : Prop :=
  exists c, rtc edge x c /\ tc edge c c.

Hypothesis U_closed : forall u v, edge u v -> v ∈ U.

(** Finished nodes: visited and no longer on the current path. *)
Definition finished (st : DfsState) : gset string :=
  visited st ∖ recursionStack st.

Record dfsInv (st : DfsState) : Prop := mkDfsInv {
  inv_stack : recursionStack st ⊆ visited st;
  inv_closed : forall b n, b ∈ finished st -> edge b n -> n ∈ finished st;
  inv_acyclic : forall b, b ∈ finished st -> ~ tc edge b b
}.

(** What a call on [curr] from state [st] returns. *)
Definition dfsPost (curr : string) (st : DfsState) (r : option (bool * DfsState)) : Prop :=
  exists b st',
    r = Some (b, st')
    /\ match b with
       | true => cycleFrom curr
       | false => visited st ⊆ visited st'
                  /\ recursionStack st' = recursionStack st
                  /\ dfsInv st'
                  /\ curr ∈ finished st'
       end.

Definition dfsPre (fuel : nat) (curr : string) (st : DfsState) : Prop :=
  (curr ∉ visited st)
  /\ curr ∈ U
  /\ dfsInv st
  /\ (forall s, s ∈ recursionStack st -> rtc edge s curr)
  /\ (size (U ∖ visited st) < fuel)%nat.

Lemma finished_closed_rtc st x y :
  dfsInv st -> x ∈ finished st -> rtc edge x y -> y ∈ finished st.
Proof.
  intros Hinv Hx Hxy. induction Hxy as [|x y z Hxy _ IH]; [exact Hx|].
  apply IH. now apply (inv_closed st Hinv x y).
Qed.

Lemma forNeighbors_spec recurse (fuel : nat) (curr : string) :
  (forall n st, dfsPre fuel n st -> dfsPost n st (recurse n st)) ->
  forall (neighbors : list string) (st : DfsState),
    (forall n, n ∈ neighbors -> edge curr n) ->
    curr ∈ recursionStack st ->
    dfsInv st ->
    (forall s, s ∈ recursionStack st -> rtc edge s curr) ->
    (size (U ∖ visited st) < fuel)%nat ->
    exists b st',
      forNeighbors recurse neighbors st = Some (b, st')
      /\ match b with
         | true => cycleFrom curr
         | false => visited st ⊆ visited st'
                    /\ recursionStack st' = recursionStack st
                    /\ dfsInv st'
                    /\ (forall n, n ∈ neighbors -> n ∈ finished st')
         end.
Proof.
  intros Hrec. induction neighbors as [|n rest IH]; intros st Hnb Hcurr Hinv Hpath Hfuel.
  - exists false, st. split; [reflexivity|].
    split; [done|]. split; [done|]. split; [done|]. intros n Hn. inversion Hn.
  - cbn [forNeighbors].
    assert (Hedge : edge curr n) by (apply Hnb; left).
    assert (Hrest : forall m, m ∈ rest -> edge curr m) by (intros m Hm; apply Hnb; now right).
    case_bool_decide as Hvis; cbn [negb].
    + case_bool_decide as Hstack.
      * (* a node on the current path: the path closes a cycle *)
        exists true, st. split; [reflexivity|].
        exists curr. split; [apply rtc_refl|].
        apply tc_rtc_r with n; [now apply tc_once | now apply Hpath].
      * (* a finished node: skipped *)
        destruct (IH st Hrest Hcurr Hinv Hpath Hfuel) as (b & st' & Hrun & Hpost).
        exists b, st'. split; [exact Hrun|].
        destruct b; [exact Hpost|].
        destruct Hpost as (Hsub & Hstk & Hinv' & Hfin).
        split; [exact Hsub|]. split; [exact Hstk|]. split; [exact Hinv'|].
        intros m Hm. apply elem_of_cons in Hm as [->|Hm]; [|now apply Hfin].
        unfold finished. rewrite Hstk. set_solver.
    + (* an unvisited node: recursive call *)
      destruct (Hrec n st) as (b & st1 & Hcall & Hpost1).
      { split; [exact Hvis|]. split; [now apply (U_closed curr)|]. split; [exact Hinv|].
        split; [|exact Hfuel].
        intros s Hs. apply rtc_r with curr; [now apply Hpath | exact Hedge]. }
      rewrite Hcall. destruct b.
      * exists true, st1. split; [reflexivity|].
        destruct Hpost1 as (c & Hnc & Hcc). exists c. split; [|exact Hcc].
        now apply rtc_l with n.
      * destruct Hpost1 as (Hsub1 & Hstk1 & Hinv1 & Hfin1).
        destruct (IH st1 Hrest) as (b & st' & Hrun & Hpost).
        { now rewrite Hstk1. }
        { exact Hinv1. }
        { intros s Hs. apply Hpath. now rewrite <- Hstk1. }
        { pose proof (subseteq_size (U ∖ visited st1) (U ∖ visited st)
                        ltac:(set_solver)). lia. }
        exists b, st'. split; [exact Hrun|].
        destruct b; [exact Hpost|].
        destruct Hpost as (Hsub & Hstk & Hinv' & Hfin).
        split; [set_solver|]. split; [congruence|]. split; [exact Hinv'|].
        intros m Hm. apply elem_of_cons in Hm as [->|Hm]; [|now apply Hfin].
        unfold finished in *. rewrite Hstk. set_solver.
Qed.

(** The traversal returns, and it returns [true] only with a cycle at hand
    and [false] only after finishing [curr] with the invariant kept. *)
Lemma isCyclic_spec (fuel : nat) :
  forall curr st, dfsPre fuel curr st -> dfsPost curr st (isCyclic fuel adj curr st).
Proof.
  induction fuel as [|fuel IH]; intros curr st (Hvis & HU & Hinv & Hpath & Hfuel); [lia|].
  cbn [isCyclic].
  set (st1 := mkDfsState ({[curr]} ∪ visited st) ({[curr]} ∪ recursionStack st)).
  pose proof (inv_stack st Hinv) as Hstack.
  assert (HnotS : curr ∉ recursionStack st) by set_solver.
  assert (Hfin1 : finished st1 = finished st).
  { unfold finished, st1. cbn. set_solver. }
  destruct (forNeighbors_spec (isCyclic fuel adj) fuel curr IH (neighborsOf adj curr) st1)
    as (b & st2 & Hrun & Hpost).
  - intros n Hn. exact Hn.
  - cbn. set_solver.
  - split.
    + cbn. set_solver.
    + intros b n. rewrite Hfin1. apply (inv_closed st Hinv).
    + intros b. rewrite Hfin1. apply (inv_acyclic st Hinv).
  - intros s Hs. cbn in Hs. apply elem_of_union in Hs as [Hs|Hs].
    + apply elem_of_singleton in Hs as ->. apply rtc_refl.
    + now apply Hpath.
  - cbn [visited st1].
    assert (Hsub : U ∖ ({[curr]} ∪ visited st) ⊂ U ∖ visited st).
    { split; [set_solver|]. intros Hcontra.
      assert (curr ∈ U ∖ ({[curr]} ∪ visited st)) by (apply Hcontra; set_solver).
      set_solver. }
    apply subset_size in Hsub. lia.
  - rewrite Hrun. destruct b.
    + exists true, st2. split; [reflexivity | exact Hpost].
    + destruct Hpost as (Hsub & Hstk & Hinv2 & Hnbrs).
      cbn [visited recursionStack st1] in Hsub, Hstk.
      exists false, (mkDfsState (visited st2) (recursionStack st2 ∖ {[curr]})).
      split; [reflexivity|].
      assert (Hstk' : recursionStack st2 ∖ {[curr]} = recursionStack st).
      { rewrite Hstk. set_solver. }
      assert (Hfin3 : forall x, x ∈ visited st2 ∖ recursionStack st <->
                                x = curr \/ x ∈ finished st2).
      { intros x. unfold finished. rewrite Hstk.
        destruct (decide (x = curr)) as [->|Hne]; set_solver. }
      assert (Hcurr2 : curr ∉ finished st2) by (unfold finished; rewrite Hstk; set_solver).
      split; [set_solver|]. split; [exact Hstk'|]. split; [|].
      * split; cbn [visited recursionStack]; unfold finished; cbn [visited recursionStack];
          rewrite Hstk'.
        -- pose proof (inv_stack st2 Hinv2). set_solver.
        -- intros x n Hx Hxn. apply Hfin3. right.
           apply Hfin3 in Hx as [->|Hx].
           ++ now apply Hnbrs.
           ++ now apply (inv_closed st2 Hinv2 x).
        -- intros x Hx Hcyc. apply Hfin3 in Hx as [->|Hx].
           ++ apply tc_first_step in Hcyc as (n & Hcn & Hnc).
              apply Hcurr2.
              apply (finished_closed_rtc st2 n curr Hinv2); [now apply Hnbrs | exact Hnc].
           ++ now apply (inv_acyclic st2 Hinv2 x).
      * unfold finished. cbn [visited recursionStack]. rewrite Hstk'. set_solver.
Qed.

(** From the empty state the answer is exact. *)
Lemma isCyclic_from_scratch (fuel : nat) (root : string) :
  root ∈ U -> (size U < fuel)%nat ->
  exists b st',
    isCyclic fuel adj root (mkDfsState ∅ ∅) = Some (b, st')
    /\ (b = true <-> cycleFrom root).
Proof.
  intros HU Hfuel.
  destruct (isCyclic_spec fuel root (mkDfsState ∅ ∅)) as (b & st' & Hrun & Hpost).
  - split; [set_solver|]. split; [exact HU|]. split; [|split].
    + split; unfold finished; cbn; set_solver.
    + cbn. set_solver.
    + cbn. pose proof (subseteq_size (U ∖ ∅) U ltac:(set_solver)). lia.
  - exists b, st'. split; [exact Hrun|]. destruct b.
    + tauto.
    + destruct Hpost as (_ & _ & Hinv & Hfin). split; [discriminate|].
      intros (c & Hrc & Hcc). exfalso.
      apply (inv_acyclic st' Hinv c); [|exact Hcc].
      now apply (finished_closed_rtc st' root c).
Qed.

End Traversal.

Section CycleGuard.

(** The dependency graph after adding the candidate edge: an edge leads from
    a task to each task it depends on, and from [taskId] to the candidate. *)
Definition dependsOn (allTasks : list Task.t) (taskId candidate : string)
    (u v : string) : Prop :=
  (exists t, t ∈ allTasks /\ Task.id t = u /\ v ∈ Task.dependencies t)
  \/ (u = taskId /\ v = candidate).

Definition cycleReachable (allTasks : list Task.t) (taskId candidate : string) : Prop :=
  exists c, rtc (dependsOn allTasks taskId candidate) taskId c
            /\ tc (dependsOn allTasks taskId candidate) c c.

Lemma buildAdj_fold (l : list Task.t) (acc : gmap string (list string)) (u : string)
    (ds : list string) :
  fold_left (fun adj t => <[Task.id t := Task.dependencies t]> adj) l acc !! u = Some ds ->
  (exists t, t ∈ l /\ Task.id t = u /\ Task.dependencies t = ds)
  \/ acc !! u = Some ds.
Proof.
  revert acc. induction l as [|a l IH]; intros acc H; cbn [fold_left] in H.
  - now right.
  - apply IH in H as [(t & Hin & Hid & Hds)|H].
    + left. exists t. split; [now right | auto].
    + destruct (decide (Task.id a = u)) as [E|E].
      * rewrite E, lookup_insert_eq in H. injection H as <-.
        left. exists a. split; [now left | auto].
      * rewrite lookup_insert_ne in H by exact E. now right.
Qed.

Lemma buildAdj_fold_other (l : list Task.t) (acc : gmap string (list string)) (u : string) :
  u ∉ List.map Task.id l ->
  fold_left (fun adj t => <[Task.id t := Task.dependencies t]> adj) l acc !! u = acc !! u.
Proof.
  revert acc. induction l as [|a l IH]; intros acc Hu; [reflexivity|].
  cbn [fold_left]. cbn [List.map] in Hu. apply not_elem_of_cons in Hu as [Hne Hu].
  rewrite IH by exact Hu. now apply lookup_insert_ne.
Qed.

Lemma buildAdj_fold_unique (l : list Task.t) (acc : gmap string (list string)) (t : Task.t) :
  NoDup (List.map Task.id l) -> t ∈ l ->
  fold_left (fun adj t => <[Task.id t := Task.dependencies t]> adj) l acc !! Task.id t
  = Some (Task.dependencies t).
Proof.
  revert acc. induction l as [|a l IH]; intros acc Hnd Hin; [inversion Hin|].
  cbn [fold_left]. cbn [List.map] in Hnd. apply NoDup_cons in Hnd as [Hnotin Hnd].
  apply elem_of_cons in Hin as [->|Hin]; [|now apply IH].
  rewrite buildAdj_fold_other by exact Hnotin. apply lookup_insert_eq.
Qed.

(** With pairwise distinct ids the adjacency map is the dependency relation. *)
Lemma neighborsOf_buildAdj (allTasks : list Task.t) (u v : string) :
  NoDup (List.map Task.id allTasks) ->
  v ∈ neighborsOf (buildAdj allTasks) u <->
  exists t, t ∈ allTasks /\ Task.id t = u /\ v ∈ Task.dependencies t.
Proof.
  intros Hnd. unfold neighborsOf, buildAdj. split.
  - destruct (fold_left _ allTasks ∅ !! u) as [ds|] eqn:Hl; cbn [default from_option id].
    + intros Hv. apply buildAdj_fold in Hl as [(t & Hin & Hid & <-)|Hl].
      * eauto.
      * now rewrite lookup_empty in Hl.
    + intros Hv. inversion Hv.
  - intros (t & Hin & <- & Hv).
    now rewrite (buildAdj_fold_unique allTasks ∅ t Hnd Hin).
Qed.

Lemma neighborsOf_mentioned (allTasks : list Task.t) (u v : string) :
  v ∈ neighborsOf (buildAdj allTasks) u ->
  exists t, t ∈ allTasks /\ v ∈ Task.dependencies t.
Proof.
  unfold neighborsOf, buildAdj.
  destruct (fold_left _ allTasks ∅ !! u) as [ds|] eqn:Hl; cbn [default from_option id].
  - intros Hv. apply buildAdj_fold in Hl as [(t & Hin & Hid & <-)|Hl].
    + eauto.
    + now rewrite lookup_empty in Hl.
  - intros Hv. inversion Hv.
Qed.

(** The adjacency map with the candidate edge added. *)
Definition candidateAdj (allTasks : list Task.t) (taskId candidate : string)
  : gmap string (list string) :=
  <[taskId := neighborsOf (buildAdj allTasks) taskId ++ [candidate]]> (buildAdj allTasks).

Lemma edge_candidateAdj (allTasks : list Task.t) (taskId candidate u v : string) :
  edge (candidateAdj allTasks taskId candidate) u v <->
  v ∈ neighborsOf (buildAdj allTasks) u \/ (u = taskId /\ v = candidate).
Proof.
  unfold edge, candidateAdj, neighborsOf at 1.
  destruct (decide (taskId = u)) as [<-|Hne].
  - rewrite lookup_insert_eq. cbn [default from_option id]. fold (neighborsOf (buildAdj allTasks) taskId).
    rewrite elem_of_app, list_elem_of_singleton. tauto.
  - rewrite lookup_insert_ne by exact Hne. fold (neighborsOf (buildAdj allTasks) u).
    split; [tauto | intros [H|[H _]]; [exact H | congruence]].
Qed.

Lemma edge_dependsOn (allTasks : list Task.t) (taskId candidate u v : string) :
  NoDup (List.map Task.id allTasks) ->
  edge (candidateAdj allTasks taskId candidate) u v <->
  dependsOn allTasks taskId candidate u v.
Proof.
  intros Hnd. rewrite edge_candidateAdj, neighborsOf_buildAdj by exact Hnd.
  reflexivity.
Qed.

Lemma mentionedIds_task (allTasks : list Task.t) (taskId candidate : string) (t : Task.t)
    (v : string) :
  t ∈ allTasks -> v ∈ Task.dependencies t ->
  v ∈ mentionedIds allTasks taskId candidate.
Proof.
  intros Hin Hv. unfold mentionedIds. do 2 apply list_elem_of_further.
  apply list_elem_of_In, in_concat.
  exists (Task.id t :: Task.dependencies t). split.
  - apply in_map_iff. exists t. split; [reflexivity | now apply list_elem_of_In].
  - right. now apply list_elem_of_In.
Qed.

Lemma size_list_to_set_le (l : list string) :
  (size (list_to_set l : gset string) <= length l)%nat.
Proof.
  induction l as [|x l IH]; cbn [list_to_set length].
  - now rewrite size_empty.
  - rewrite size_union_alt, size_singleton.
    pose proof (subseteq_size (list_to_set l ∖ {[x]}) (list_to_set l : gset string)
                  ltac:(set_solver)).
    lia.
Qed.

(** The guard always answers, and its answer is the existence of a cycle
    that can be reached from [taskId] through the adjacency map. *)
Lemma hasCircularDependency_adj (allTasks : list Task.t) (taskId candidate : string) :
  taskId <> candidate ->
  exists b,
    hasCircularDependency allTasks taskId candidate = Some b
    /\ (b = true <-> cycleFrom (candidateAdj allTasks taskId candidate) taskId).
Proof.
  intros Hne. unfold hasCircularDependency.
  destruct (String.eqb_spec taskId candidate) as [E|_]; [contradiction|].
  fold (candidateAdj allTasks taskId candidate).
  set (ids := mentionedIds allTasks taskId candidate).
  destruct (isCyclic_from_scratch (candidateAdj allTasks taskId candidate)
              (list_to_set ids) ) with (fuel := S (length ids)) (root := taskId)
    as (b & st' & Hrun & Hiff).
  - intros u v Huv. apply elem_of_list_to_set.
    apply edge_candidateAdj in Huv as [Huv|[_ ->]].
    + apply neighborsOf_mentioned in Huv as (t & Hin & Hv).
      now apply (mentionedIds_task allTasks taskId candidate t).
    + subst ids. unfold mentionedIds. apply list_elem_of_further, list_elem_of_here.
  - apply elem_of_list_to_set. subst ids. unfold mentionedIds. apply list_elem_of_here.
  - pose proof (size_list_to_set_le ids). lia.
  - exists b. rewrite Hrun. split; [reflexivity | exact Hiff].
Qed.

Lemma cycleFrom_cycleReachable (allTasks : list Task.t) (taskId candidate : string) :
  NoDup (List.map Task.id allTasks) ->
  cycleFrom (candidateAdj allTasks taskId candidate) taskId <->
  cycleReachable allTasks taskId candidate.
Proof.
  intros Hnd. unfold cycleFrom, cycleReachable.
  split; intros (c & Hreach & Hcyc); exists c; split.
  - eapply rtc_subrel; [|exact Hreach]. intros x y. now apply edge_dependsOn.
  - apply (tc_congruence (fun x => x) (dependsOn allTasks taskId candidate)) in Hcyc;
      [exact Hcyc|]. intros x y. now apply edge_dependsOn.
  - eapply rtc_subrel; [|exact Hreach]. intros x y. now apply edge_dependsOn.
  - apply (tc_congruence (fun x => x)
             (edge (candidateAdj allTasks taskId candidate))) in Hcyc;
      [exact Hcyc|]. intros x y. now apply edge_dependsOn.
Qed.

(** C1. The cycle guard always answers: [true] exactly when [taskId] is the
    candidate itself or the adjacency map with the candidate edge added has
    a directed cycle that can be reached from [taskId].  For a task list
    with pairwise distinct ids that map is the dependency graph with the
    edge [taskId -> candidate] added, so the guard answers [true] exactly
    when [taskId] is the candidate or that graph contains a directed cycle
    reachable from [taskId].  On a diamond (A depends on B and on C, B and
    C on nothing) proposing B -> C is answered [false]. *)
Theorem hasCircularDependency_spec :
  (forall (allTasks : list Task.t) (taskId candidateDependencyId : string),
      exists b,
        hasCircularDependency allTasks taskId candidateDependencyId = Some b
        /\ (b = true <->
            taskId = candidateDependencyId
            \/ cycleFrom (candidateAdj allTasks taskId candidateDependencyId) taskId))
  /\ (forall (allTasks : list Task.t) (taskId candidateDependencyId : string),
      NoDup (List.map Task.id allTasks) ->
      exists b,
        hasCircularDependency allTasks taskId candidateDependencyId = Some b
        /\ (b = true <->
            taskId = candidateDependencyId
            \/ cycleReachable allTasks taskId candidateDependencyId))
  /\ (forall A B C : Task.t,
        Task.id A <> Task.id B -> Task.id A <> Task.id C -> Task.id B <> Task.id C ->
        Task.dependencies A = [Task.id B; Task.id C] ->
        Task.dependencies B = [] -> Task.dependencies C = [] ->
        hasCircularDependency [A; B; C] (Task.id B) (Task.id C) = Some false).
Proof.
  assert (Hadj : forall (allTasks : list Task.t) (taskId candidate : string),
      exists b,
        hasCircularDependency allTasks taskId candidate = Some b
        /\ (b = true <->
            taskId = candidate \/ cycleFrom (candidateAdj allTasks taskId candidate) taskId)).
  { intros allTasks taskId candidate.
    destruct (decide (taskId = candidate)) as [->|Hne].
    - exists true. unfold hasCircularDependency. rewrite String.eqb_refl.
      split; [reflexivity | tauto].
    - destruct (hasCircularDependency_adj allTasks taskId candidate Hne) as (b & Hrun & Hiff).
      exists b. split; [exact Hrun|]. rewrite Hiff. tauto. }
  assert (Hmain : forall (allTasks : list Task.t) (taskId candidate : string),
      NoDup (List.map Task.id allTasks) ->
      exists b,
        hasCircularDependency allTasks taskId candidate = Some b
        /\ (b = true <-> taskId = candidate \/ cycleReachable allTasks taskId candidate)).
  { intros allTasks taskId candidate Hnd.
    destruct (Hadj allTasks taskId candidate) as (b & Hrun & Hiff).
    exists b. split; [exact Hrun|].
    now rewrite Hiff, (cycleFrom_cycleReachable allTasks taskId candidate Hnd). }
  split; [exact Hadj|].
  split; [exact Hmain|].
  intros A B C HAB HAC HBC HdA HdB HdC.
  destruct (Hmain [A; B; C] (Task.id B) (Task.id C)) as (b & Hrun & Hiff).
  { cbn [List.map]. repeat (apply NoDup_cons; split); [| |set_solver|apply NoDup_nil_2].
    - rewrite !not_elem_of_cons. repeat split; [assumption..|apply not_elem_of_nil].
    - rewrite !not_elem_of_cons. repeat split; [assumption|apply not_elem_of_nil]. }
  rewrite Hrun. f_equal. destruct b; [|reflexivity]. exfalso.
  destruct (proj1 Hiff eq_refl) as [E|(c & Hreach & Hcyc)]; [contradiction|].
  (* the only edges are A -> B, A -> C and the candidate B -> C *)
  assert (Hedges : forall u v, dependsOn [A; B; C] (Task.id B) (Task.id C) u v ->
                     (u = Task.id A /\ (v = Task.id B \/ v = Task.id C))
                     \/ (u = Task.id B /\ v = Task.id C)).
  { intros u v [(t & Hin & Hid & Hv)|[-> ->]]; [|now right].
    rewrite !elem_of_cons in Hin. destruct Hin as [->|[->|[->|Hin]]].
    - left. split; [now symmetry|]. rewrite HdA in Hv.
      rewrite !elem_of_cons in Hv. destruct Hv as [->|[->|Hv]]; [tauto..|inversion Hv].
    - rewrite HdB in Hv. inversion Hv.
    - rewrite HdC in Hv. inversion Hv.
    - inversion Hin. }
  assert (HnoC : forall v, ~ dependsOn [A; B; C] (Task.id B) (Task.id C) (Task.id C) v).
  { intros v Hv. apply Hedges in Hv as [[E _]|[E _]]; congruence. }
  set (R := dependsOn [A; B; C] (Task.id B) (Task.id C)) in *.
  assert (HfromC : forall z, rtc R (Task.id C) z -> z = Task.id C).
  { intros z Hz. apply rtc_tc in Hz as [<-|Hz]; [reflexivity|].
    apply tc_first_step in Hz as (y & Hy & _). now apply HnoC in Hy. }
  assert (HfromB : forall z, tc R (Task.id B) z -> z = Task.id C).
  { intros z Hz. apply tc_first_step in Hz as (y & Hy & Hyz).
    apply Hedges in Hy as [[E _]|[_ ->]]; [congruence|]. now apply HfromC. }
  apply rtc_tc in Hreach as [<-|Hreach].
  - apply HfromB in Hcyc. congruence.
  - apply HfromB in Hreach. subst c.
    apply tc_first_step in Hcyc as (y & Hy & _). now apply HnoC in Hy.
Qed.

Lemma hasCircularDependency_spec_witness :
  (exists b,
      hasCircularDependency
        [sampleTask "A" "e" "2024-01-07" false ["B"];
         sampleTask "B" "e" "2024-01-07" false ["C"];
         sampleTask "C" "e" "2024-01-07" false []] "C" "A" = Some b
      /\ (b = true <->
          "C" = "A"
          \/ cycleReachable
               [sampleTask "A" "e" "2024-01-07" false ["B"];
                sampleTask "B" "e" "2024-01-07" false ["C"];
                sampleTask "C" "e" "2024-01-07" false []] "C" "A"))
  /\ hasCircularDependency
       [sampleTask "A" "e" "2024-01-07" false ["B"; "C"];
        sampleTask "B" "e" "2024-01-07" false [];
        sampleTask "C" "e" "2024-01-07" false []] "B" "C" = Some false.
Proof.
  split.
  - apply (proj1 (proj2 hasCircularDependency_spec)).
    cbn [List.map sampleTask Task.id].
    repeat (apply NoDup_cons; split); [| |apply not_elem_of_nil|apply NoDup_nil_2].
    + rewrite !not_elem_of_cons. repeat split; [discriminate..|apply not_elem_of_nil].
    + rewrite !not_elem_of_cons. repeat split; [discriminate|apply not_elem_of_nil].
  - apply (proj2 (proj2 hasCircularDependency_spec)
             (sampleTask "A" "e" "2024-01-07" false ["B"; "C"])
             (sampleTask "B" "e" "2024-01-07" false [])
             (sampleTask "C" "e" "2024-01-07" false []));
      try discriminate; reflexivity.
Defined.

(** A three-cycle is rejected, and a cycle elsewhere on the board is not
    blamed on an unrelated edge. *)
Example hasCircularDependency_run :
  hasCircularDependency
    [sampleTask "A" "e" "2024-01-07" false ["B"];
     sampleTask "B" "e" "2024-01-07" false ["C"];
     sampleTask "C" "e" "2024-01-07" false []] "C" "A" = Some true
  /\ hasCircularDependency
       [sampleTask "A" "e" "2024-01-07" false ["B"];
        sampleTask "B" "e" "2024-01-07" false ["A"];
        sampleTask "C" "e" "2024-01-07" false []] "C" "D" = Some false.
Proof. split; vm_compute; reflexivity. Qed.

End CycleGuard.

(** ** Import sanitization *)

Section Sanitization.
Import Migration.

Variable Number : Type.
Variable numberOfZ : Z -> Number.
Variable numberFalsy : Number -> bool.
Variable sameNumber : Number -> Number -> bool.
Variable uuid : nat -> string.
Variable thisWeek : string.
Variable storedSettings : JsValue Number.

Local Abbreviation Value := (JsValue Number).
Local Abbreviation sameValue := (sameValueZero Number sameNumber).
Local Abbreviation hasValue := (has Number sameNumber).
Local Abbreviation sanitize := (sanitizeTask Number numberOfZ numberFalsy thisWeek).

(** No two tasks of the list, the first before the second, have the same id. *)
Definition distinctIds (l : list (CleanTask Number)) : Prop :=
  ForallOrdPairs
    (fun a b => sameValue (task_id Number a) (task_id Number b) = false) l.

(** Where a sanitized task comes from: an element of the imported array,
    kept under its own id when that is truthy and under a generated one
    otherwise. *)
Definition sanitizedFrom (tasks : list Value) (c : CleanTask Number) : Prop :=
  exists t tId,
    In t tasks /\ nullish Number t = false
    /\ c = sanitize tId t
    /\ (tId = prop Number t "id" \/
        (truthy Number numberFalsy (prop Number t "id") = false
         /\ exists i, tId = JsString Number (uuid i))).

Lemma distinctIds_snoc (l : list (CleanTask Number)) (c : CleanTask Number) :
  distinctIds l ->
  (forall a, In a l -> sameValue (task_id Number a) (task_id Number c) = false) ->
  distinctIds (l ++ [c]).
Proof.
  unfold distinctIds. induction 1 as [|a l Ha Hl IH]; intros Hc; cbn [app].
  - constructor; constructor.
  - constructor.
    + apply Forall_app. split; [exact Ha|].
      constructor; [apply Hc; now left | constructor].
    + apply IH. intros b Hb. apply Hc. now right.
Qed.

Lemma has_false (set : list Value) (v x : Value) :
  hasValue set v = false -> In x set -> sameValue x v = false.
Proof.
  unfold has. intros H Hin.
  destruct (sameValue x v) eqn:E; [|reflexivity].
  assert (existsb (fun y => sameValue y v) set = true)
    by (apply existsb_exists; eauto).
  congruence.
Qed.

Lemma has_true (set : list Value) (v : Value) :
  hasValue set v = true -> exists x, In x set /\ sameValue x v = true.
Proof. unfold has. intros H. now apply existsb_exists in H. Qed.

Lemma orGenerate_runs (v : Value) (k : nat) :
  exists tId k',
    orGenerate Number numberFalsy uuid v k = (Done tId, k')
    /\ (tId = v \/ (truthy Number numberFalsy v = false
                    /\ exists i, tId = JsString Number (uuid i))).
Proof.
  unfold orGenerate. destruct (truthy Number numberFalsy v) eqn:Ht.
  - exists v, k. split; [reflexivity | now left].
  - exists (JsString Number (uuid k)), (S k). split; [reflexivity|].
    right. split; [reflexivity | eauto].
Qed.

(** The reduction over the imported tasks keeps what it has, adds sanitized
    elements only, never repeats an id and never keeps an orphan. *)
Lemma reduceTasks_spec (validExpIds : list Value) :
  forall (tasks processed : list Value) (acc : list (CleanTask Number)) (k : nat),
    Forall (fun t => nullish Number t = false) tasks ->
    distinctIds acc ->
    (forall a, In a acc -> In (task_id Number a) processed) ->
    exists out k',
      reduceTasks Number numberOfZ numberFalsy sameNumber uuid thisWeek
                  validExpIds tasks processed acc k = (Done out, k')
      /\ distinctIds out
      /\ (forall c, In c out ->
            In c acc
            \/ (sanitizedFrom tasks c
                /\ hasValue validExpIds (task_experimentId Number c) = true)).
Proof.
  induction tasks as [|t0 rest IH]; intros processed acc k Hnn Hdist Hproc.
  - exists acc, k. cbn [reduceTasks]. split; [reflexivity|]. split; [exact Hdist | auto].
  - apply Forall_cons in Hnn as [Ht0 Hrest].
    cbn [reduceTasks]. unfold bind at 1. unfold element at 1. rewrite Ht0. unfold ret at 1.
    destruct (orGenerate_runs (prop Number t0 "id") k) as (tId & k1 & Hgen & HtId).
    unfold bind at 1. rewrite Hgen.
    assert (Hlift : forall c, sanitizedFrom rest c -> sanitizedFrom (t0 :: rest) c).
    { intros c (t & i & Hin & Hrest'). exists t, i. split; [now right | exact Hrest']. }
    destruct (hasValue processed tId) eqn:Hdup.
    + (* a duplicate id: dropped *)
      destruct (IH processed acc k1 Hrest Hdist Hproc) as (out & k' & Hrun & Hd & Hfrom).
      exists out, k'. split; [exact Hrun|]. split; [exact Hd|].
      intros c Hc. destruct (Hfrom c Hc) as [?|[? ?]]; [now left | right; auto].
    + assert (Hproc' : forall a, In a acc -> In (task_id Number a) (processed ++ [tId])).
      { intros a Ha. apply in_or_app. left. now apply Hproc. }
      destruct (hasValue validExpIds (prop Number t0 "experimentId")) eqn:Hexp; cbn [negb].
      * (* kept *)
        destruct (IH (processed ++ [tId]) (acc ++ [sanitize tId t0]) k1 Hrest)
          as (out & k' & Hrun & Hd & Hfrom).
        { apply distinctIds_snoc; [exact Hdist|].
          intros a Ha. cbn [sanitizeTask task_id].
          apply (has_false processed); [exact Hdup | now apply Hproc]. }
        { intros a Ha. apply in_app_or in Ha as [Ha|[<-|[]]].
          - now apply Hproc'.
          - cbn [sanitizeTask task_id]. apply in_or_app. right. now left. }
        exists out, k'. split; [exact Hrun|]. split; [exact Hd|].
        intros c Hc. destruct (Hfrom c Hc) as [Hin|[? ?]]; [|right; auto].
        apply in_app_or in Hin as [Hin|[<-|[]]]; [now left|]. right. split.
        -- exists t0, tId. split; [now left|]. split; [exact Ht0|]. split; [reflexivity|].
           exact HtId.
        -- exact Hexp.
      * (* an orphan: dropped, its id remembered *)
        destruct (IH (processed ++ [tId]) acc k1 Hrest Hdist Hproc')
          as (out & k' & Hrun & Hd & Hfrom).
        exists out, k'. split; [exact Hrun|]. split; [exact Hd|].
        intros c Hc. destruct (Hfrom c Hc) as [?|[? ?]]; [now left | right; auto].
Qed.

Lemma mapExperiments_runs (es : list Value) (k : nat) :
  Forall (fun e => nullish Number e = false) es ->
  exists out k',
    mapExperiments Number numberOfZ numberFalsy sameNumber uuid thisWeek es k
    = (Done out, k')
    /\ length out = length es.
Proof.
  revert k. induction es as [|e rest IH]; intros k Hnn.
  - exists [], k. split; reflexivity.
  - apply Forall_cons in Hnn as [He Hrest].
    cbn [mapExperiments]. unfold bind at 1. unfold cleanExperiment.
    unfold bind at 1. unfold element at 1. rewrite He. unfold ret at 1.
    destruct (orGenerate_runs (prop Number e "id") k) as (eid & k1 & Hgen & _).
    unfold bind at 1. rewrite Hgen. unfold ret at 1.
    destruct (IH k1 Hrest) as (out & k' & Hrun & Hlen).
    unfold bind at 1. rewrite Hrun. unfold ret.
    eexists _, k'. split; [reflexivity|]. cbn [length]. now rewrite Hlen.
Qed.

(** C10, as the code has it.  An imported object whose [experiments] and
    [tasks] are arrays without null entries is accepted, and in the data
    returned: no two tasks have the same id (a later task with an id
    already seen is dropped); every task's [experimentId] is the id of a
    returned experiment; every task comes from an imported task, with
    [completed] a boolean (its truthiness), [dependencies] an array (its
    own if it is one, else empty) and [weekId] the imported value when
    that is truthy, whatever its type, and otherwise the string of the
    current week. *)
Theorem validateAndMigrateAppData_spec :
  forall (ref r1 r2 : nat) (fields : list (string * Value)) (es ts : list Value)
         (k : nat),
    lookupField Number fields "experiments" = JsArray Number r1 es ->
    lookupField Number fields "tasks" = JsArray Number r2 ts ->
    Forall (fun e => nullish Number e = false) es ->
    Forall (fun t => nullish Number t = false) ts ->
    exists data k',
      validateAndMigrateAppData Number numberOfZ numberFalsy sameNumber
        uuid thisWeek storedSettings (JsObject Number ref fields) k = (Done data, k')
      /\ distinctIds (data_tasks Number data)
      /\ (forall c, In c (data_tasks Number data) ->
            exists e, In e (data_experiments Number data)
                      /\ sameValue (exp_id Number e) (task_experimentId Number c) = true)
      /\ (forall c, In c (data_tasks Number data) ->
            exists t, In t ts
              /\ task_completed Number c = truthy Number numberFalsy (prop Number t "completed")
              /\ task_dependencies Number c = arrayOr Number (prop Number t "dependencies") []
              /\ task_weekId Number c
                 = (if truthy Number numberFalsy (prop Number t "weekId")
                    then prop Number t "weekId" else JsString Number thisWeek)).
Proof.
  intros ref r1 r2 fields es ts k Hes Hts Hnes Hnts.
  unfold validateAndMigrateAppData. cbn [prop]. rewrite Hes, Hts.
  destruct (mapExperiments_runs es k Hnes) as (ces & k1 & Hmap & _).
  unfold bind at 1. rewrite Hmap.
  destruct (reduceTasks_spec (List.map (exp_id Number) ces) ts [] [] k1 Hnts)
    as (cts & k2 & Hred & Hdist & Hfrom).
  { constructor. }
  { intros a []. }
  unfold bind at 1. rewrite Hred. unfold ret.
  eexists _, k2. split; [reflexivity|]. cbn [data_tasks data_experiments].
  split; [exact Hdist|]. split.
  - intros c Hc. destruct (Hfrom c Hc) as [[]|[_ Hexp]].
    apply has_true in Hexp as (v & Hv & Hsame).
    apply in_map_iff in Hv as (e & <- & He). eauto.
  - intros c Hc. destruct (Hfrom c Hc) as [[]|[(t & tId & Hin & _ & -> & _) _]].
    exists t. split; [exact Hin|]. repeat split.
Qed.

End Sanitization.

(** A concrete import: numbers are integers, the week is that of 2024-01-07. *)
Definition importedFile : Migration.JsValue Z :=
  let str := Migration.JsString Z in
  let obj := Migration.JsObject Z in
  obj 0%nat
    [("experiments",
      Migration.JsArray Z 1%nat [obj 2%nat [("id", str "e1"); ("name", str "Growth")]]);
     ("tasks",
      Migration.JsArray Z 3%nat
        [obj 4%nat [("id", str "t1"); ("experimentId", str "e1");
                    ("weekId", str "2024-01-14"); ("completed", Migration.JsNumber Z 1)];
         obj 5%nat [("id", str "t1"); ("experimentId", str "e1")];
         obj 6%nat [("id", str "t2"); ("experimentId", str "gone")];
         obj 7%nat [("experimentId", str "e1"); ("weekId", Migration.JsBool Z true)]])].

Definition runImport (imported : Migration.JsValue Z)
  : Outcome (Migration.CleanAppData Z) * nat :=
  Migration.validateAndMigrateAppData Z (fun z => z) (Z.eqb 0) Z.eqb
    sampleUuid "2024-01-07" (Migration.JsUndefined Z) imported 0%nat.

Lemma validateAndMigrateAppData_spec_witness :
  exists data k',
    runImport importedFile = (Done data, k')
    /\ distinctIds Z Z.eqb (Migration.data_tasks Z data).
Proof.
  destruct (validateAndMigrateAppData_spec Z (fun z => z) (Z.eqb 0) Z.eqb
              sampleUuid "2024-01-07" (Migration.JsUndefined Z)
              0%nat 1%nat 3%nat
              match importedFile with
              | Migration.JsObject _ _ fields => fields
              | _ => []
              end
              [Migration.JsObject Z 2%nat
                 [("id", Migration.JsString Z "e1"); ("name", Migration.JsString Z "Growth")]]
              match Migration.lookupField Z
                      match importedFile with
                      | Migration.JsObject _ _ fields => fields
                      | _ => []
                      end "tasks" with
              | Migration.JsArray _ _ items => items
              | _ => []
              end 0%nat)
    as (data & k' & Hrun & Hdist & _).
  - reflexivity.
  - reflexivity.
  - repeat constructor.
  - repeat constructor.
  - exists data, k'. split; [exact Hrun | exact Hdist].
Defined.

Example validateAndMigrateAppData_run :
  option_map (fun d => List.map (Migration.task_id Z) (Migration.data_tasks Z d))
             match fst (runImport importedFile) with Done d => Some d | _ => None end
  = Some [Migration.JsString Z "t1"; Migration.JsString Z "u0"].
Proof. vm_compute. reflexivity. Qed.

(** C10, as stated, fails in its last part: a truthy [weekId] that is not
    a string is returned as it is. *)
Lemma validateAndMigrateAppData_counterexample :
  ~ (forall imported data k',
        runImport imported = (Done data, k') ->
        forall c, In c (Migration.data_tasks Z data) ->
                  exists s, Migration.task_weekId Z c = Migration.JsString Z s).
Proof.
  intros H.
  destruct (fst (runImport importedFile)) as [data| |] eqn:Hrun; try discriminate.
  assert (Hfull : runImport importedFile = (Done data, snd (runImport importedFile))).
  { rewrite <- Hrun. now destruct (runImport importedFile). }
  specialize (H importedFile data _ Hfull).
  vm_compute in Hrun. injection Hrun as <-.
  destruct (H (Migration.sanitizeTask Z (fun z => z) (Z.eqb 0) "2024-01-07"
                 (Migration.JsString Z "u0")
                 (Migration.JsObject Z 7%nat
                    [("experimentId", Migration.JsString Z "e1");
                     ("weekId", Migration.JsBool Z true)]))) as [s Hs].
  - vm_compute. right. left. reflexivity.
  - vm_compute in Hs. discriminate.
Qed.

(* ================================================================== *)
(** * Further handlers of the board *)
(* ================================================================== *)

From Stdlib Require DecimalN DecimalPos.

(** ** Record updates used by the handlers below *)

(** [{ ...e, status: s }] *)
Definition experiment_with_status (s : ExperimentStatus) (x : Experiment.t) : Experiment.t :=
  Experiment.mk (Experiment.id x) (Experiment.name x) (Experiment.description x)
                (Experiment.collaborators x) (Experiment.startDate x) (Experiment.endDate x)
                (Experiment.expectedWeeks x) s (Experiment.attachments x)
                (Experiment.proposalText x) (Experiment.originalPlan x)
                (Experiment.style x) (Experiment.aiInsights x).

(** [{ ...e, originalPlan: p }] *)
Definition experiment_with_originalPlan (p : option (list PlanTaskItem.t))
    (x : Experiment.t) : Experiment.t :=
  Experiment.mk (Experiment.id x) (Experiment.name x) (Experiment.description x)
                (Experiment.collaborators x) (Experiment.startDate x) (Experiment.endDate x)
                (Experiment.expectedWeeks x) (Experiment.status x) (Experiment.attachments x)
                (Experiment.proposalText x) p
                (Experiment.style x) (Experiment.aiInsights x).

(** [{ ...e, id: i }] *)
Definition experiment_with_id (i : string) (x : Experiment.t) : Experiment.t :=
  Experiment.mk i (Experiment.name x) (Experiment.description x)
                (Experiment.collaborators x) (Experiment.startDate x) (Experiment.endDate x)
                (Experiment.expectedWeeks x) (Experiment.status x) (Experiment.attachments x)
                (Experiment.proposalText x) (Experiment.originalPlan x)
                (Experiment.style x) (Experiment.aiInsights x).

(** [{ ...p, title, description, importance }] *)
Definition planItem_synced (title description : string) (importance : Z)
    (p : PlanTaskItem.t) : PlanTaskItem.t :=
  PlanTaskItem.mk (PlanTaskItem.id p) title description (PlanTaskItem.weekOffset p)
                  importance (PlanTaskItem.status p) (PlanTaskItem.recurrence p)
                  (PlanTaskItem.dependencies p).

(** [arr.findIndex(p)]; [None] is the index -1. *)
Fixpoint findIndex {A} (p : A -> bool) (l : list A) : option nat :=
  match l with
  | [] => None
  | x :: rest => if p x then Some 0%nat else S <$> findIndex p rest
  end.

(** ** Experiment handlers (App.tsx) *)

Definition handleSaveExperiment (experiment : Experiment.t) (tasks : list Task.t)
    (prev : AppData.t) : AppData.t :=
  AppData.mk (AppData.experiments prev ++ [experiment]) (AppData.tasks prev ++ tasks)
             (AppData.schemaVersion prev) (AppData.hiddenWeeks prev).

(** [updatedTasks] is optional; an array, even an empty one, is truthy. *)
Definition handleUpdateExperiment (updatedExp : Experiment.t)
    (updatedTasks : option (list Task.t)) (prev : AppData.t) : AppData.t :=
  let newExperiments :=
    List.map (fun e => if String.eqb (Experiment.id e) (Experiment.id updatedExp)
                       then updatedExp else e)
             (AppData.experiments prev) in
  let newTasks :=
    match updatedTasks with
    | Some updated =>
        let updatedIds : gset string := list_to_set (List.map Task.id updated) in
        let otherTasks :=
          List.filter (fun t => negb (bool_decide (Task.id t ∈ updatedIds)))
                      (AppData.tasks prev) in
        otherTasks ++ updated
    | None => AppData.tasks prev
    end in
  AppData.mk newExperiments newTasks (AppData.schemaVersion prev) (AppData.hiddenWeeks prev).

Definition statusIsActive (s : ExperimentStatus) : bool :=
  match s with active => true | archived => false end.

Definition handleArchiveExperiment (id : string) (prev : AppData.t) : AppData.t :=
  AppData.mk
    (List.map (fun e => if String.eqb (Experiment.id e) id
                        then experiment_with_status
                               (if statusIsActive (Experiment.status e) then archived else active) e
                        else e)
              (AppData.experiments prev))
    (AppData.tasks prev) (AppData.schemaVersion prev) (AppData.hiddenWeeks prev).

Definition handleRestoreExperiment (id : string) (prev : AppData.t) : AppData.t :=
  AppData.mk
    (List.map (fun e => if String.eqb (Experiment.id e) id
                        then experiment_with_status active e else e)
              (AppData.experiments prev))
    (AppData.tasks prev) (AppData.schemaVersion prev) (AppData.hiddenWeeks prev).

Definition handleDeleteExperiment (id : string) (prev : AppData.t) : AppData.t :=
  AppData.mk
    (List.filter (fun e => negb (String.eqb (Experiment.id e) id)) (AppData.experiments prev))
    (List.filter (fun t => negb (String.eqb (Task.experimentId t) id)) (AppData.tasks prev))
    (AppData.schemaVersion prev) (AppData.hiddenWeeks prev).

Definition handleResetExperimentTasks (id : string) (prev : AppData.t) : AppData.t :=
  AppData.mk
    (AppData.experiments prev)
    (List.filter (fun t => negb (String.eqb (Task.experimentId t) id)) (AppData.tasks prev))
    (AppData.schemaVersion prev) (AppData.hiddenWeeks prev).

(** ** Saving a task (App.tsx, handleUpdateTask) *)

Definition isDigit (c : ascii) : bool :=
  let n := nat_of_ascii c in (48 <=? n)%nat && (n <=? 57)%nat.

(** The class [\s] among the characters below 256: tab, line feed, vertical
    tab, form feed, carriage return, space and no-break space. *)
Definition isSpace (c : ascii) : bool :=
  let n := nat_of_ascii c in
  ((9 <=? n)%nat && (n <=? 13)%nat) || (n =? 32)%nat || (n =? 160)%nat.

(** The longest prefix of characters satisfying [p], and the rest. *)
Fixpoint span (p : ascii -> bool) (l : list ascii) : list ascii * list ascii :=
  match l with
  | [] => ([], [])
  | c :: rest =>
      if p c then let (a, b) := span p rest in (c :: a, b) else ([], l)
  end.

Definition openParen : ascii := ascii_of_nat 40.
Definition closeParen : ascii := ascii_of_nat 41.

(** [s.replace(/\s\(\d+\)$/, '')]: the pattern is anchored at the end of
    the string, so it is matched from the last character backwards: a
    closing parenthesis, the digits before it (at least one), an opening
    parenthesis and one white-space character.  No other start position
    can match, since an opening parenthesis is not a digit. *)
Definition stripRecurrenceSuffix (s : string) : string :=
  match rev (list_ascii_of_string s) with
  | c :: r1 =>
      if Ascii.eqb c closeParen then
        match span isDigit r1 with
        | (_ :: _, o :: w :: r2) =>
            if Ascii.eqb o openParen && isSpace w
            then string_of_list_ascii (rev r2)
            else s
        | _ => s
        end
      else s
  | [] => s
  end.

(** [data] is the snapshot the handler closes over; the updater it passes
    to [setData] is applied to that same snapshot. *)
Definition handleUpdateTask (updatedTask : Task.t) (data : AppData.t) : AppData.t :=
  let existingIndex :=
    findIndex (fun t => String.eqb (Task.id t) (Task.id updatedTask)) (AppData.tasks data) in
  let newTasks :=
    match existingIndex with
    | None => AppData.tasks data ++ [updatedTask]
    | Some _ =>
        List.map (fun t => if String.eqb (Task.id t) (Task.id updatedTask)
                           then updatedTask else t)
                 (AppData.tasks data)
    end in
  let newExperiments := AppData.experiments data in
  let newExperiments :=
    match Task.planTaskId updatedTask with
    | Some planTaskId =>
        if truthy (Some planTaskId) then
          match findIndex (fun e => String.eqb (Experiment.id e)
                                               (Task.experimentId updatedTask))
                          newExperiments with
          | Some experimentIndex =>
              match newExperiments !! experimentIndex with
              | Some experiment =>
                  match Experiment.originalPlan experiment with
                  | Some originalPlan =>
                      match findIndex (fun p => String.eqb (PlanTaskItem.id p) planTaskId)
                                      originalPlan with
                      | Some planItemIndex =>
                          match originalPlan !! planItemIndex with
                          | Some item =>
                              let baseTitle :=
                                if truthy (Task.recurrenceGroupId updatedTask)
                                then stripRecurrenceSuffix (Task.title updatedTask)
                                else Task.title updatedTask in
                              let newPlan :=
                                <[planItemIndex :=
                                    planItem_synced baseTitle
                                      (Task.description updatedTask)
                                      (Task.importance updatedTask) item]> originalPlan in
                              <[experimentIndex :=
                                  experiment_with_originalPlan (Some newPlan) experiment]>
                                newExperiments
                          | None => newExperiments
                          end
                      | None => newExperiments
                      end
                  | None => newExperiments
                  end
              | None => newExperiments
              end
          | None => newExperiments
          end
        else newExperiments
    | None => newExperiments
    end in
  AppData.mk newExperiments newTasks (AppData.schemaVersion data) (AppData.hiddenWeeks data).

(** ** Editing dependencies (TaskModal.tsx) *)

(** The edited task after the click, and whether the circular-dependency
    alert was shown. *)
Definition handleAddDependency (allTasks : list Task.t) (editedTask : Task.t)
    (taskId : string) : option (Task.t * bool) :=
  if negb (String.eqb taskId "") && negb (includes (Task.dependencies editedTask) taskId)
  then
    circular ← hasCircularDependency allTasks (Task.id editedTask) taskId;
    match circular with
    | true => Some (editedTask, true)
    | false =>
        Some (Task.with_dependencies (Task.dependencies editedTask ++ [taskId]) editedTask,
              false)
    end
  else Some (editedTask, false).

Definition handleRemoveDependency (editedTask : Task.t) (taskId : string) : Task.t :=
  Task.with_dependencies
    (List.filter (fun id => negb (String.eqb id taskId)) (Task.dependencies editedTask))
    editedTask.

(** ** Duration in weeks (utils.ts, getWeeksDifference) *)

(** In the time zone [tz].  [None] is NaN, the result when one of the two
    dates is the Invalid Date. *)
Definition getWeeksDifference (tz : LocalTime.TimeZone) (start end_ : string) : option Z :=
  match LocalTime.parseISO tz end_, LocalTime.parseISO tz start with
  | Some e, Some s => Some (Z.abs (LocalTime.differenceInWeeks tz e s) + 1)
  | _, _ => None
  end.

(** ** Merging an imported file into the board (App.tsx, handleMergeImport) *)

Section MergeImport.
Variable uuid : nat -> string.

(** [importCandidate.experiments.forEach(exp => { ... })], entered with the
    current [expIdMap] and [newExperiments]. *)
Fixpoint reIdExperiments (exps : list Experiment.t)
    (expIdMap : gmap string string) (newExperiments : list Experiment.t)
  : Gen (gmap string string * list Experiment.t) :=
  match exps with
  | [] => ret (expIdMap, newExperiments)
  | exp :: rest =>
      do newId <- generateUUID uuid;
      reIdExperiments rest (<[Experiment.id exp := newId]> expIdMap)
                      (newExperiments ++ [experiment_with_id newId exp])
  end.

(** [importCandidate.tasks.forEach(task => { ... })]. *)
Fixpoint reIdTasks (tasks : list Task.t) (expIdMap : gmap string string)
    (newTasks : list Task.t) : Gen (list Task.t) :=
  match tasks with
  | [] => ret newTasks
  | task :: rest =>
      let newExpId := expIdMap !! Task.experimentId task in
      match newExpId with
      | Some e =>
          if truthy newExpId then
            do id <- generateUUID uuid;
            reIdTasks rest expIdMap
              (newTasks ++
               [Task.mk id e (Task.title task) (Task.description task) (Task.weekId task)
                        (Task.status task) (Task.importance task) (Task.completed task)
                        (Task.tags task) (Task.attachments task) []
                        (Task.recurrenceGroupId task) (Task.planTaskId task)])
          else reIdTasks rest expIdMap newTasks
      | None => reIdTasks rest expIdMap newTasks
      end
  end.

(** The updater run by [handleMergeImport]; without a candidate the handler
    returns at once. *)
Definition handleMergeImport (importCandidate : option AppData.t) (prev : AppData.t)
  : Gen AppData.t :=
  match importCandidate with
  | None => ret prev
  | Some candidate =>
      do r <- reIdExperiments (AppData.experiments candidate) ∅ [];
      do newTasks <- reIdTasks (AppData.tasks candidate) (fst r) [];
      ret (AppData.mk (AppData.experiments prev ++ snd r)
                      (AppData.tasks prev ++ newTasks)
                      (AppData.schemaVersion prev) (AppData.hiddenWeeks prev))
  end.

End MergeImport.

(** ** CSV export (utils.ts, csvEscape; App.tsx, handleExportCsv) *)

Definition dquote : ascii := "034"%char.
Definition lineFeed : ascii := "010"%char.
Definition carriageReturn : ascii := "013"%char.

(** The values the export passes to [csvEscape]. *)
Inductive CsvValue :=
| CsvNullish
| CsvString (s : string)
| CsvNumber (n : Z).

(** [String(value ?? EMPTY)], with [EMPTY] the empty string. *)
Definition csvString (value : CsvValue) : string :=
  match value with
  | CsvNullish => ""
  | CsvString s => s
  | CsvNumber n => numberToString n
  end.

(** The character class of the test: double quote, comma, line feed,
    carriage return. *)
Definition csvSpecial (c : ascii) : bool :=
  Ascii.eqb c dquote || Ascii.eqb c "," || Ascii.eqb c lineFeed || Ascii.eqb c carriageReturn.

(** [needsQuotes]: the test of the class on [str]. *)
Fixpoint testSpecial (str : string) : bool :=
  match str with
  | EmptyString => false
  | String c rest => csvSpecial c || testSpecial rest
  end.

(** The global replace of [str]: every double quote is written twice. *)
Fixpoint doubleQuotes (str : string) : string :=
  match str with
  | EmptyString => EmptyString
  | String c rest =>
      if Ascii.eqb c dquote then String dquote (String dquote (doubleQuotes rest))
      else String c (doubleQuotes rest)
  end.

Definition csvEscape (value : CsvValue) : string :=
  let str := csvString value in
  let needsQuotes := testSpecial str in
  if needsQuotes then String dquote (doubleQuotes str +:+ String dquote EmptyString)
  else str.

(** [TaskStatus] as the string it is at run time. *)
Definition statusString (s : TaskStatus) : string :=
  match s with
  | DEFAULT => "default"
  | IMPORTANT => "important"
  | WARNING => "warning"
  | INFO => "info"
  | COMPLETED => "completed"
  end.

(** [[headers.join(','), ...rows].join('\n')] behind the byte-order mark. *)
Definition byteOrderMark : string :=
  String "239"%char (String "187"%char (String "191"%char EmptyString)).

Definition csvContent (headers : string) (rows : list string) : string :=
  byteOrderMark +:+ String.concat (String lineFeed EmptyString) (headers :: rows).

(** The export of the earlier copy of the application (part_006), whose
    texts are literals: [unknownText] stands for the name shown for a
    missing experiment, [yesText] and [noText] for the two values of the
    last column, [headerTexts] for the six column titles. *)
Module Part006.
Section Rows.
Variables unknownText yesText noText : string.
Variable headerTexts : list string.

Definition exportFields (data : AppData.t) (t : Task.t) : list CsvValue :=
  let exp := List.find (fun e => String.eqb (Experiment.id e) (Task.experimentId t))
                       (AppData.experiments data) in
  [ CsvString (match exp with
               | Some e => if String.eqb (Experiment.name e) "" then unknownText
                           else Experiment.name e
               | None => unknownText
               end);
    CsvString (Task.title t);
    CsvString (Task.weekId t);
    CsvString (statusString (Task.status t));
    CsvNumber (Task.importance t);
    CsvString (match Task.completed t with true => yesText | false => noText end) ].

Definition exportRow (data : AppData.t) (t : Task.t) : string :=
  String.concat "," (List.map csvEscape (exportFields data t)).

(** [handleExportCsv], up to the text handed to the download. *)
Definition handleExportCsv (data : AppData.t) : string :=
  let headers := List.map (fun h => csvEscape (CsvString h)) headerTexts in
  let rows := List.map (exportRow data) (AppData.tasks data) in
  csvContent (String.concat "," headers) rows.

End Rows.
End Part006.

(** The export of App.tsx.  The column titles are read from the
    translations [t] of the component.  Inside the callback of
    [data.tasks.map(t => ...)] the name [t] is the task: it hides the
    translations, so [t.common] and [t.csv] are properties of a task.  A
    task has neither, both are [undefined], and reading a property of
    [undefined] throws a TypeError ([None] below). *)
Definition requiredProperties : list string :=
  ["id"; "experimentId"; "title"; "description"; "weekId"; "status"; "importance";
   "completed"; "tags"; "attachments"; "dependencies"].

(** Whether [t[property]] is a value other than [undefined]. *)
Definition hasValue (t : Task.t) (property : string) : bool :=
  if includes requiredProperties property then true
  else if String.eqb property "recurrenceGroupId"
       then match Task.recurrenceGroupId t with Some _ => true | None => false end
  else if String.eqb property "planTaskId"
       then match Task.planTaskId t with Some _ => true | None => false end
  else false.

(** [t[group][key]] for a key that strings, numbers, booleans and arrays do
    not have: [undefined] when [t[group]] is a value, a TypeError when it is
    [undefined]. *)
Definition taskMember (t : Task.t) (group key : string) : option CsvValue :=
  if hasValue t group then Some CsvNullish else None.

(** The elements of the array literal are evaluated from left to right. *)
Definition exportRow (data : AppData.t) (t : Task.t) : option string :=
  let exp := List.find (fun e => String.eqb (Experiment.id e) (Task.experimentId t))
                       (AppData.experiments data) in
  name ← match exp with
         | Some e => if String.eqb (Experiment.name e) ""
                     then taskMember t "common" "notImplemented"
                     else Some (CsvString (Experiment.name e))
         | None => taskMember t "common" "notImplemented"
         end;
  completed ← match Task.completed t with
              | true => taskMember t "csv" "yes"
              | false => taskMember t "csv" "no"
              end;
  Some (String.concat ","
          (List.map csvEscape
             [name; CsvString (Task.title t); CsvString (Task.weekId t);
              CsvString (statusString (Task.status t)); CsvNumber (Task.importance t);
              completed])).

Definition handleExportCsv (headerTexts : list string) (data : AppData.t) : option string :=
  let headers := List.map (fun h => csvEscape (CsvString h)) headerTexts in
  rows ← mapM (exportRow data) (AppData.tasks data);
  Some (csvContent (String.concat "," headers) rows).

(** ** The plan table of an experiment (ExperimentDetailsModal) *)

(** The row shown for a task, in the time zone [tz]: the callback of
    [experimentTasks.map] in the effect that fills the table. *)
Definition rowOf (tz : LocalTime.TimeZone) (experiment : Experiment.t) (t : Task.t)
  : PlanRow :=
  let startDate := LocalTime.parseISO tz (Experiment.startDate experiment) in
  let taskDate := LocalTime.parseISO tz (Task.weekId t) in
  let offset :=
    match startDate, taskDate with
    | Some s, Some d => LocalTime.differenceInWeeks tz d s
    | _, _ => 0
    end in
  mkPlanRow
    (PlanTaskItem.mk
       (match Task.planTaskId t with
        | Some p => if truthy (Some p) then p else Task.id t
        | None => Task.id t
        end)
       (Task.title t) (Task.description t) offset (Task.importance t) (Task.status t)
       None (Task.dependencies t))
    (Some (Task.id t)) (Task.weekId t).

(** [savePlanChanges], up to the task list it hands to [onSave]. *)
Definition savePlanChanges (tasks : list Task.t) (experiment : Experiment.t)
    (planRows : list PlanRow) : list Task.t :=
  let experimentTasks :=
    List.filter (fun t => String.eqb (Task.experimentId t) (Experiment.id experiment)) tasks in
  fold_left
    (fun updatedTasks row =>
       let originalTask :=
         match actualTaskId row with
         | Some a => findTask experimentTasks a
         | None => None
         end in
       match originalTask with
       | Some o =>
           updatedTasks ++
           [Task.mk (Task.id o) (Task.experimentId o)
                    (PlanTaskItem.title (rowItem row))
                    (PlanTaskItem.description (rowItem row))
                    (actualDate row) (Task.status o)
                    (PlanTaskItem.importance (rowItem row))
                    (Task.completed o) (Task.tags o) (Task.attachments o)
                    (Task.dependencies o) (Task.recurrenceGroupId o) (Task.planTaskId o)]
       | None => updatedTasks
       end)
    planRows [].

(** ** Dependency graphs *)

Section DependencyGraph.

(** The dependency relation of a task list: an edge from the id of a task
    to each id it lists. *)
Definition depGraph (l : list Task.t) (u v : string) : Prop :=
  exists t, t ∈ l /\ Task.id t = u /\ v ∈ Task.dependencies t.

Definition acyclic (l : list Task.t) : Prop :=
  forall c, ~ tc (depGraph l) c c.

(** The part of a relation that does not leave from [a]. *)
Definition avoiding (R : relation string) (a : string) : relation string :=
  fun u v => u <> a /\ R u v.

Lemma tc_split_at (R : relation string) (a x y : string) :
  tc R x y -> tc (avoiding R a) x y \/ (rtc R x a /\ tc R a y).
Proof.
  induction 1 as [x y Hxy | x z y Hxz Hzy IH].
  - destruct (decide (x = a)) as [->|Hne].
    + right. split; [apply rtc_refl | now apply tc_once].
    + left. apply tc_once. now split.
  - destruct (decide (x = a)) as [->|Hne].
    + right. split; [apply rtc_refl | now apply tc_l with z].
    + destruct IH as [IH|[IH1 IH2]].
      * left. apply tc_l with z; [now split | exact IH].
      * right. split; [now apply rtc_l with z | exact IH2].
Qed.

Lemma rtc_avoiding (R : relation string) (a x : string) :
  rtc R x a -> rtc (avoiding R a) x a.
Proof.
  induction 1 as [|x y z Hxy Hyz IH]; [apply rtc_refl|].
  destruct (decide (x = z)) as [->|Hne]; [apply rtc_refl|].
  apply rtc_l with y; [now split | exact IH].
Qed.

Lemma rtc_incl (R R' : relation string) (x y : string) :
  (forall u v, R u v -> R' u v) -> rtc R x y -> rtc R' x y.
Proof. intros Hsub H. eapply rtc_subrel; [|exact H]. exact Hsub. Qed.

Lemma tc_incl (R R' : relation string) (x y : string) :
  (forall u v, R u v -> R' u v) -> tc R x y -> tc R' x y.
Proof.
  intros Hsub H. apply (tc_congruence (fun z => z) R') in H; [exact H|]. exact Hsub.
Qed.

(** A cycle through [a] in a relation whose edges out of [a] are [R0]'s or
    the one edge to [x], the others being shared with [R0] and [G]: either
    [R0] has a cycle, or [x] reaches [a] in [G]. *)
Lemma cycle_through_new_edge (R R0 G : relation string) (a x c : string) :
  (forall u v, avoiding R a u v -> R0 u v) ->
  (forall u v, avoiding R a u v -> G u v) ->
  (forall v, R a v -> R0 a v \/ v = x) ->
  tc R c c ->
  (exists c', tc R0 c' c') \/ rtc G x a.
Proof.
  intros HR0 HG Ha Hcyc.
  destruct (tc_split_at R a c c Hcyc) as [Hav|[Hca Hac]].
  - left. exists c. now apply (tc_incl (avoiding R a)).
  - assert (Haa : tc R a a) by (now apply tc_rtc_r with c).
    apply tc_first_step in Haa as (y & Hay & Hya).
    apply rtc_avoiding in Hya.
    destruct (Ha y Hay) as [Hy| ->].
    + left. exists a. apply tc_rtc_r with y; [now apply tc_once|].
      now apply (rtc_incl (avoiding R a)).
    + right. now apply (rtc_incl (avoiding R a)).
Qed.

Lemma dependsOn_depGraph (l : list Task.t) (a x u v : string) :
  dependsOn l a x u v <-> depGraph l u v \/ (u = a /\ v = x).
Proof. reflexivity. Qed.

(** The answer of the guard on a list with pairwise distinct ids. *)
Lemma guard_answer (allTasks : list Task.t) (taskId candidate : string) :
  NoDup (List.map Task.id allTasks) ->
  exists b,
    hasCircularDependency allTasks taskId candidate = Some b
    /\ (b = true <-> taskId = candidate \/ cycleReachable allTasks taskId candidate).
Proof.
  intros Hnd. destruct (decide (taskId = candidate)) as [->|Hne].
  - exists true. unfold hasCircularDependency. rewrite String.eqb_refl.
    split; [reflexivity | tauto].
  - destruct (hasCircularDependency_adj allTasks taskId candidate Hne) as (b & Hrun & Hiff).
    exists b. split; [exact Hrun|].
    rewrite Hiff, (cycleFrom_cycleReachable allTasks taskId candidate Hnd). tauto.
Qed.

(** X1. On a board without cycles and with pairwise distinct ids the guard
    rejects a candidate exactly when the candidate already depends, through
    any number of steps (none included), on the task. *)
Theorem hasCircularDependency_acyclic :
  forall (allTasks : list Task.t) (taskId candidate : string),
    NoDup (List.map Task.id allTasks) ->
    acyclic allTasks ->
    exists b,
      hasCircularDependency allTasks taskId candidate = Some b
      /\ (b = true <-> rtc (depGraph allTasks) candidate taskId).
Proof.
  intros l a x Hnd Hac.
  destruct (guard_answer l a x Hnd) as (b & Hrun & Hiff).
  exists b. split; [exact Hrun|]. rewrite Hiff. split.
  - intros [->|(c & _ & Hcyc)]; [apply rtc_refl|].
    destruct (cycle_through_new_edge (dependsOn l a x) (depGraph l) (depGraph l) a x c)
      as [(c' & Hc')|Hreach]; try assumption.
    + intros u v [Hne [H|[E _]]]; [exact H | contradiction].
    + intros u v [Hne [H|[E _]]]; [exact H | contradiction].
    + intros v [H|[_ ->]]; [now left | now right].
    + now apply Hac in Hc'.
  - intros Hreach. destruct (decide (a = x)) as [E|Hne]; [now left|]. right.
    exists a. split; [apply rtc_refl|].
    apply tc_rtc_r with x.
    + apply tc_once. right. now split.
    + apply (rtc_incl (depGraph l)); [|exact Hreach]. intros u v H. now left.
Qed.







End DependencyGraph.

(** ** Saving a task *)

Section SavingTasks.

Lemma findTask_app_None (l1 l2 : list Task.t) (d : string) :
  findTask l1 d = None -> findTask (l1 ++ l2) d = findTask l2 d.
Proof.
  unfold findTask. induction l1 as [|a l IH]; cbn [find app]; [reflexivity|].
  destruct (String.eqb (Task.id a) d); [discriminate | exact IH].
Qed.

Lemma findTask_app_Some (l1 l2 : list Task.t) (d : string) (t : Task.t) :
  findTask l1 d = Some t -> findTask (l1 ++ l2) d = Some t.
Proof.
  unfold findTask. induction l1 as [|a l IH]; cbn [find app]; [discriminate|].
  destruct (String.eqb (Task.id a) d); [auto | exact IH].
Qed.

Lemma findIndex_findTask (l : list Task.t) (d : string) :
  findIndex (fun t => String.eqb (Task.id t) d) l = None <-> findTask l d = None.
Proof.
  unfold findTask. induction l as [|a l IH]; cbn [findIndex find]; [tauto|].
  destruct (String.eqb (Task.id a) d); [split; discriminate|].
  destruct (findIndex _ l); cbn.
  - split; [discriminate|]. intros H. apply IH in H. discriminate.
  - split; [intros _; now apply IH | reflexivity].
Qed.

(** X3. Saving a task and looking it up: after [handleUpdateTask] the saved
    task is what its id resolves to, every other id resolves as before, and
    the list keeps its ids in order when the task existed (it is replaced in
    place) or gains the task at the end when it did not; pairwise distinct
    ids stay pairwise distinct. *)
Theorem handleUpdateTask_lookup :
  forall (updatedTask : Task.t) (data : AppData.t),
    let next := handleUpdateTask updatedTask data in
    findTask (AppData.tasks next) (Task.id updatedTask) = Some updatedTask
    /\ (forall d, d <> Task.id updatedTask ->
          findTask (AppData.tasks next) d = findTask (AppData.tasks data) d)
    /\ (List.map Task.id (AppData.tasks next)
        = match findTask (AppData.tasks data) (Task.id updatedTask) with
          | Some _ => List.map Task.id (AppData.tasks data)
          | None => List.map Task.id (AppData.tasks data) ++ [Task.id updatedTask]
          end)
    /\ (NoDup (List.map Task.id (AppData.tasks data)) ->
        NoDup (List.map Task.id (AppData.tasks next))).
Proof.
  intros e data next. subst next. unfold handleUpdateTask. cbn [AppData.tasks].
  set (l := AppData.tasks data).
  assert (Hmap : forall d,
             findTask (List.map (fun t => if String.eqb (Task.id t) (Task.id e) then e else t) l) d
             = if String.eqb d (Task.id e)
               then match findTask l d with Some _ => Some e | None => None end
               else findTask l d).
  { intros d. unfold findTask. induction l as [|a l IH]; cbn [List.map find].
    - now destruct (String.eqb d (Task.id e)).
    - destruct (String.eqb_spec (Task.id a) (Task.id e)) as [Ea|Ea].
      + destruct (String.eqb_spec d (Task.id e)) as [Ed|Ed].
        * subst d. rewrite String.eqb_refl, Ea, String.eqb_refl. reflexivity.
        * rewrite Ea. destruct (String.eqb_spec (Task.id e) d) as [E|_]; [congruence|].
          rewrite IH. now destruct (String.eqb_spec d (Task.id e)).
      + destruct (String.eqb_spec (Task.id a) d) as [Ead|Ead].
        * destruct (String.eqb_spec d (Task.id e)) as [Ed|Ed]; [congruence | reflexivity].
        * exact IH. }
  assert (Hids : List.map Task.id
                   (List.map (fun t => if String.eqb (Task.id t) (Task.id e) then e else t) l)
                 = List.map Task.id l).
  { rewrite map_map. apply map_ext. intros t.
    now destruct (String.eqb_spec (Task.id t) (Task.id e)). }
  destruct (findIndex _ l) as [i|] eqn:Hfi.
  - assert (Hsome : exists t, findTask l (Task.id e) = Some t).
    { destruct (findTask l (Task.id e)) as [t|] eqn:Hf; [eauto|].
      apply findIndex_findTask in Hf. congruence. }
    destruct Hsome as [t Ht]. rewrite Ht.
    split; [|split; [|split]].
    + now rewrite Hmap, String.eqb_refl, Ht.
    + intros d Hd. rewrite Hmap. now destruct (String.eqb_spec d (Task.id e)).
    + exact Hids.
    + now rewrite Hids.
  - apply findIndex_findTask in Hfi. rewrite Hfi.
    split; [|split; [|split]].
    + rewrite findTask_app_None by exact Hfi. unfold findTask. cbn [find].
      now rewrite String.eqb_refl.
    + intros d Hd. destruct (findTask l d) as [t|] eqn:Hf.
      * now apply findTask_app_Some.
      * rewrite findTask_app_None by exact Hf. unfold findTask. cbn [find].
        now destruct (String.eqb_spec (Task.id e) d) as [E|_]; [congruence|].
    + now rewrite map_app.
    + intros Hnd. rewrite map_app. cbn [List.map]. apply NoDup_app.
      split; [exact Hnd|]. split; [|apply NoDup_singleton].
      intros x Hx Hx'. apply list_elem_of_singleton in Hx'. subst x.
      apply findTask_None in Hfi. apply Hfi. now apply list_elem_of_In.
Qed.


Lemma list_ascii_app (a b : string) :
  list_ascii_of_string (a +:+ b) = list_ascii_of_string a ++ list_ascii_of_string b.
Proof.
  induction a as [|c a IH]; [reflexivity|].
  change (String c a +:+ b) with (String c (a +:+ b)).
  cbn [list_ascii_of_string app]. now rewrite IH.
Qed.

Lemma span_all (p : ascii -> bool) (l1 l2 : list ascii) (c : ascii) :
  Forall (fun x => p x = true) l1 -> p c = false ->
  span p (l1 ++ c :: l2) = (l1, c :: l2).
Proof.
  intros Hall Hc. induction Hall as [|x l Hx _ IH]; cbn [app span].
  - now rewrite Hc.
  - now rewrite Hx, IH.
Qed.

Lemma string_of_uint_digits (d : Decimal.uint) :
  Forall (fun x => isDigit x = true) (list_ascii_of_string (NilEmpty.string_of_uint d)).
Proof. induction d; cbn; constructor; (reflexivity || assumption). Qed.

Lemma toString_digits (n : Z) :
  let ds := list_ascii_of_string (DateFns.toString n) in
  Forall (fun x => isDigit x = true) ds /\ ds <> [].
Proof.
  unfold DateFns.toString, NilZero.string_of_uint.
  destruct (N.to_uint (Z.to_N (Z.abs n))) as [|d|d|d|d|d|d|d|d|d|d] eqn:E; cbn zeta.
  1: split; [repeat constructor | discriminate].
  all: split; [rewrite <- E at 1; rewrite E; apply string_of_uint_digits | discriminate].
Qed.

Lemma stripRecurrenceSuffix_counter (title : string) (n : Z) :
  0 <= n ->
  stripRecurrenceSuffix (title +:+ " (" +:+ numberToString n +:+ ")") = title.
Proof.
  intros Hn. unfold stripRecurrenceSuffix, numberToString.
  destruct (Z.ltb_spec n 0) as [|_]; [lia|].
  change ("" +:+ DateFns.toString n) with (DateFns.toString n).
  destruct (toString_digits n) as [Hdig Hne]. cbv zeta in Hdig, Hne.
  set (ds := list_ascii_of_string (DateFns.toString n)) in *.
  rewrite !list_ascii_app. fold ds.
  change (list_ascii_of_string " (") with [" "%char; "("%char].
  change (list_ascii_of_string ")") with [")"%char].
  rewrite !rev_app_distr. cbn [rev app]. rewrite <- !app_assoc. cbn [app].
  change (Ascii.eqb ")" closeParen) with true. cbv iota.
  rewrite (span_all isDigit (rev ds) (" "%char :: rev (list_ascii_of_string title)) "("%char).
  - destruct (rev ds) as [|d0 rd] eqn:Hrev.
    + exfalso. apply Hne. apply (f_equal (@rev ascii)) in Hrev.
      now rewrite rev_involutive in Hrev.
    + change (Ascii.eqb "(" openParen && isSpace " ") with true. cbv iota.
      now rewrite rev_involutive, string_of_list_ascii_of_string.
  - now apply List.Forall_rev.
  - reflexivity.
Qed.

(** X4. The suffix the wizard appends to the title of a recurring instance
    is exactly what saving a task strips again: for every title and every
    counter [n >= 0], removing the recurrence suffix of
    [title (n)] gives [title] back. *)
Theorem stripRecurrenceSuffix_instance :
  forall (title : string) (n : Z),
    0 <= n ->
    stripRecurrenceSuffix (title +:+ " (" +:+ numberToString n +:+ ")") = title.
Proof. intros title n Hn. now apply stripRecurrenceSuffix_counter. Qed.


(** X5. Saving a generated task that was not edited leaves the master plan
    as it is: when the plan entry the task points to still has the task's
    description and importance, and the task's title is the entry's title
    (followed by the recurrence counter when the task belongs to a
    recurrence group), [handleUpdateTask] returns the experiments unchanged. *)
Theorem handleUpdateTask_untouched_plan :
  forall (data : AppData.t) (t : Task.t) (exp : Experiment.t)
         (plan : list PlanTaskItem.t) (item : PlanTaskItem.t) (i j : nat)
         (planTaskId : string),
    Task.planTaskId t = Some planTaskId ->
    findIndex (fun e => String.eqb (Experiment.id e) (Task.experimentId t))
              (AppData.experiments data) = Some i ->
    AppData.experiments data !! i = Some exp ->
    Experiment.originalPlan exp = Some plan ->
    findIndex (fun p => String.eqb (PlanTaskItem.id p) planTaskId) plan = Some j ->
    plan !! j = Some item ->
    Task.description t = PlanTaskItem.description item ->
    Task.importance t = PlanTaskItem.importance item ->
    match Task.recurrenceGroupId t with
    | Some g =>
        g <> "" /\ exists n, 0 <= n /\
          Task.title t = PlanTaskItem.title item +:+ " (" +:+ numberToString n +:+ ")"
    | None => Task.title t = PlanTaskItem.title item
    end ->
    AppData.experiments (handleUpdateTask t data) = AppData.experiments data.
Proof.
  intros data t exp plan item i j planTaskId Hp Hi Hexp Hplan Hj Hitem Hdesc Himp Htitle.
  unfold handleUpdateTask. cbn [AppData.experiments]. rewrite Hp.
  destruct (truthy (Some planTaskId)); [|reflexivity].
  rewrite Hi, Hexp, Hplan, Hj, Hitem.
  assert (Hbase : (if truthy (Task.recurrenceGroupId t)
                   then stripRecurrenceSuffix (Task.title t)
                   else Task.title t) = PlanTaskItem.title item).
  { destruct (Task.recurrenceGroupId t) as [g|]; cbn [truthy].
    - destruct Htitle as (Hg & n & Hn & ->).
      destruct (String.eqb_spec g "") as [E|_]; [contradiction|]. cbn [negb].
      now apply stripRecurrenceSuffix_counter.
    - exact Htitle. }
  rewrite Hbase, Hdesc, Himp.
  assert (Hsame : planItem_synced (PlanTaskItem.title item) (PlanTaskItem.description item)
                    (PlanTaskItem.importance item) item = item) by (now destruct item).
  rewrite Hsame, (list_insert_id plan j item Hitem).
  assert (Hexp' : experiment_with_originalPlan (Some plan) exp = exp)
    by (destruct exp; cbn in *; now subst).
  rewrite Hexp'. now apply list_insert_id.
Qed.

End SavingTasks.

(** ** Removing a dependency *)

Section RemovingDependencies.

Lemma filter_not_in (x : string) (l : list string) :
  ~ In x l -> List.filter (fun id => negb (String.eqb id x)) l = l.
Proof.
  induction l as [|a l IH]; cbn [List.filter]; [reflexivity|].
  intros H. destruct (String.eqb_spec a x) as [E|E]; cbn [negb].
  - exfalso. apply H. now left.
  - rewrite IH; [reflexivity|]. intros Hin. apply H. now right.
Qed.

(** X6. Removing a dependency in the task editor removes every occurrence
    of the id and nothing else, so it undoes an accepted addition: adding an
    id that was not listed and then removing it gives the edited task back,
    and removing an id that is not listed changes nothing. *)
Theorem handleRemoveDependency_undoes_add :
  forall (allTasks : list Task.t) (editedTask edited' : Task.t) (taskId : string),
    ~ In taskId (Task.dependencies editedTask) ->
    handleAddDependency allTasks editedTask taskId = Some (edited', false) ->
    handleRemoveDependency edited' taskId = editedTask
    /\ handleRemoveDependency editedTask taskId = editedTask
    /\ ~ In taskId (Task.dependencies (handleRemoveDependency edited' taskId)).
Proof.
  intros allTasks e e' x Hnot Hadd.
  assert (Hsame : handleRemoveDependency e x = e).
  { unfold handleRemoveDependency. rewrite filter_not_in by exact Hnot. now destruct e. }
  assert (Hrem : handleRemoveDependency e' x = e).
  { unfold handleAddDependency in Hadd.
    destruct (negb (String.eqb x "") && negb (includes (Task.dependencies e) x)).
    - destruct (hasCircularDependency allTasks (Task.id e) x) as [[|]|];
        cbn [mbind option_bind] in Hadd; try discriminate.
      injection Hadd as <-. unfold handleRemoveDependency.
      cbn [Task.with_dependencies Task.dependencies].
      rewrite List.filter_app, filter_not_in by exact Hnot. cbn [List.filter].
      rewrite String.eqb_refl. cbn [negb]. rewrite app_nil_r. now destruct e.
    - injection Hadd as <-. exact Hsame. }
  split; [exact Hrem|]. split; [exact Hsame|]. now rewrite Hrem.
Qed.

End RemovingDependencies.

(** ** Experiments *)

Section ExperimentHandlers.

Lemma appData_eta (d : AppData.t) :
  AppData.mk (AppData.experiments d) (AppData.tasks d)
             (AppData.schemaVersion d) (AppData.hiddenWeeks d) = d.
Proof. now destruct d. Qed.

Lemma map_fixed {A} (g : A -> A) (l : list A) :
  (forall x, In x l -> g x = x) -> List.map g l = l.
Proof.
  intros H. rewrite <- (map_id l) at 2. now apply map_ext_in.
Qed.

(** All fields of an experiment but [status] agree. *)
Definition sameButStatus (e e' : Experiment.t) : Prop :=
  Experiment.id e' = Experiment.id e /\ Experiment.name e' = Experiment.name e
  /\ Experiment.description e' = Experiment.description e
  /\ Experiment.collaborators e' = Experiment.collaborators e
  /\ Experiment.startDate e' = Experiment.startDate e
  /\ Experiment.endDate e' = Experiment.endDate e
  /\ Experiment.expectedWeeks e' = Experiment.expectedWeeks e
  /\ Experiment.attachments e' = Experiment.attachments e
  /\ Experiment.proposalText e' = Experiment.proposalText e
  /\ Experiment.originalPlan e' = Experiment.originalPlan e
  /\ Experiment.style e' = Experiment.style e
  /\ Experiment.aiInsights e' = Experiment.aiInsights e.

(** The other status. *)
Definition otherStatus (s : ExperimentStatus) : ExperimentStatus :=
  match s with active => archived | archived => active end.

(** What a handler does to one experiment when it sets the status of the
    experiments with the id [id] to [f] of their status and leaves the
    others alone. *)
Definition statusChanged (id : string) (f : ExperimentStatus -> ExperimentStatus)
    (e e' : Experiment.t) : Prop :=
  (Experiment.id e <> id -> e' = e)
  /\ (Experiment.id e = id ->
      Experiment.status e' = f (Experiment.status e) /\ sameButStatus e e').

Lemma map_statusChanged (id : string) (f : ExperimentStatus -> ExperimentStatus)
    (l : list Experiment.t) :
  Forall2 (statusChanged id f) l
    (List.map (fun e => if String.eqb (Experiment.id e) id
                        then experiment_with_status (f (Experiment.status e)) e else e) l).
Proof.
  induction l as [|e l IH]; constructor; [|exact IH].
  destruct (String.eqb_spec (Experiment.id e) id) as [E|E]; split; intros H;
    try contradiction; try reflexivity.
  split; [reflexivity|]. unfold sameButStatus. cbn. tauto.
Qed.

(** X7. [handleArchiveExperiment] toggles the status: every experiment with
    the given id comes back with the other status ([archived] for [active],
    [active] for [archived]) and all its other fields, every other
    experiment and the rest of the data as they were, in the same order;
    [handleRestoreExperiment] does the same with the status [active].  So
    archiving twice gives the data back, and restoring after archiving does
    too when the experiments with that id were active. *)
Theorem handleArchiveExperiment_involutive :
  forall (id : string) (prev : AppData.t),
    (Forall2 (statusChanged id otherStatus)
             (AppData.experiments prev)
             (AppData.experiments (handleArchiveExperiment id prev))
     /\ AppData.tasks (handleArchiveExperiment id prev) = AppData.tasks prev
     /\ AppData.schemaVersion (handleArchiveExperiment id prev) = AppData.schemaVersion prev
     /\ AppData.hiddenWeeks (handleArchiveExperiment id prev) = AppData.hiddenWeeks prev)
    /\ (Forall2 (statusChanged id (fun _ => active))
                (AppData.experiments prev)
                (AppData.experiments (handleRestoreExperiment id prev))
        /\ AppData.tasks (handleRestoreExperiment id prev) = AppData.tasks prev
        /\ AppData.schemaVersion (handleRestoreExperiment id prev) = AppData.schemaVersion prev
        /\ AppData.hiddenWeeks (handleRestoreExperiment id prev) = AppData.hiddenWeeks prev)
    /\ handleArchiveExperiment id (handleArchiveExperiment id prev) = prev
    /\ ((forall e, In e (AppData.experiments prev) -> Experiment.id e = id ->
                   Experiment.status e = active) ->
        handleRestoreExperiment id (handleArchiveExperiment id prev) = prev).
Proof.
  intros id prev. split; [|split; [|split]].
  - split; [|repeat split]. unfold handleArchiveExperiment. cbn [AppData.experiments].
    assert (Hsame : forall e : Experiment.t,
               (if String.eqb (Experiment.id e) id
                then experiment_with_status
                       (if statusIsActive (Experiment.status e) then archived else active) e
                else e)
               = (if String.eqb (Experiment.id e) id
                  then experiment_with_status (otherStatus (Experiment.status e)) e else e)).
    { intros e. now destruct (Experiment.status e). }
    rewrite (map_ext _ _ Hsame). apply map_statusChanged.
  - split; [|repeat split]. unfold handleRestoreExperiment. cbn [AppData.experiments].
    apply (map_statusChanged id (fun _ => active)).
  - unfold handleArchiveExperiment. destruct prev as [exps tasks sv hw].
    cbn [AppData.experiments AppData.tasks AppData.schemaVersion AppData.hiddenWeeks].
    f_equal. rewrite map_map. apply map_fixed. intros e _.
    destruct (String.eqb_spec (Experiment.id e) id) as [E|E].
    + cbn [experiment_with_status Experiment.id]. rewrite E, String.eqb_refl.
      destruct e as [? ? ? ? ? ? ? [] ? ? ? ? ?]; reflexivity.
    + now destruct (String.eqb_spec (Experiment.id e) id).
  - intros Hactive. unfold handleRestoreExperiment, handleArchiveExperiment.
    destruct prev as [exps tasks sv hw].
    cbn [AppData.experiments AppData.tasks AppData.schemaVersion AppData.hiddenWeeks] in *.
    f_equal. rewrite map_map. apply map_fixed. intros e He.
    destruct (String.eqb_spec (Experiment.id e) id) as [E|E].
    + cbn [experiment_with_status Experiment.id]. rewrite E, String.eqb_refl.
      specialize (Hactive e He E).
      destruct e as [? ? ? ? ? ? ? st ? ? ? ? ?]. cbn in Hactive. now subst st.
    + now destruct (String.eqb_spec (Experiment.id e) id).
Qed.

(** Every task belongs to an experiment of the board. *)
Definition noOrphans (d : AppData.t) : Prop :=
  forall t, In t (AppData.tasks d) ->
            In (Task.experimentId t) (List.map Experiment.id (AppData.experiments d)).

(** X8. Deleting an experiment removes it together with all its tasks and
    touches nothing else: what remains are exactly the experiments with
    another id and the tasks of other experiments, in their order, and a
    board without orphaned tasks stays without. *)
Theorem handleDeleteExperiment_spec :
  forall (id : string) (prev : AppData.t),
    let next := handleDeleteExperiment id prev in
    (forall e, In e (AppData.experiments next) <->
               In e (AppData.experiments prev) /\ Experiment.id e <> id)
    /\ (forall t, In t (AppData.tasks next) <->
                  In t (AppData.tasks prev) /\ Task.experimentId t <> id)
    /\ (noOrphans prev -> noOrphans next)
    /\ AppData.tasks next = AppData.tasks (handleResetExperimentTasks id prev).
Proof.
  intros id prev next. subst next. unfold handleDeleteExperiment.
  cbn [AppData.experiments AppData.tasks].
  assert (He : forall e, In e (List.filter (fun e => negb (String.eqb (Experiment.id e) id))
                                  (AppData.experiments prev)) <->
                         In e (AppData.experiments prev) /\ Experiment.id e <> id).
  { intros e. rewrite filter_In, negb_true_iff.
    destruct (String.eqb_spec (Experiment.id e) id); intuition congruence. }
  assert (Ht : forall t, In t (List.filter (fun t => negb (String.eqb (Task.experimentId t) id))
                                  (AppData.tasks prev)) <->
                         In t (AppData.tasks prev) /\ Task.experimentId t <> id).
  { intros t. rewrite filter_In, negb_true_iff.
    destruct (String.eqb_spec (Task.experimentId t) id); intuition congruence. }
  split; [exact He|]. split; [exact Ht|]. split; [|reflexivity].
  intros Hno t Hin. cbn [AppData.experiments AppData.tasks] in *.
  apply Ht in Hin as [Hin Hne].
  specialize (Hno t Hin). apply in_map_iff in Hno as (e & Hid & Hein).
  apply in_map_iff. exists e. split; [exact Hid|]. apply He. split; [exact Hein | congruence].
Qed.

(** X9. Saving an experiment with a list of updated tasks replaces the
    tasks that carry an updated id and keeps the others: every updated task
    is in the result, a task with another id is there exactly when it was
    before, and ids that were pairwise distinct on the board and in the
    update are pairwise distinct afterwards.  Without a list of tasks the
    tasks are left alone. *)
Theorem handleUpdateExperiment_tasks :
  forall (updatedExp : Experiment.t) (updatedTasks : list Task.t) (prev : AppData.t),
    let next := handleUpdateExperiment updatedExp (Some updatedTasks) prev in
    (forall t, In t updatedTasks -> In t (AppData.tasks next))
    /\ (forall t, ~ In (Task.id t) (List.map Task.id updatedTasks) ->
                  (In t (AppData.tasks next) <-> In t (AppData.tasks prev)))
    /\ (forall t, In t (AppData.tasks next) ->
                  In (Task.id t) (List.map Task.id updatedTasks) -> In t updatedTasks)
    /\ (NoDup (List.map Task.id (AppData.tasks prev)) ->
        NoDup (List.map Task.id updatedTasks) ->
        NoDup (List.map Task.id (AppData.tasks next)))
    /\ AppData.tasks (handleUpdateExperiment updatedExp None prev) = AppData.tasks prev.
Proof.
  intros updatedExp updated prev next. subst next. unfold handleUpdateExperiment.
  cbn [AppData.tasks].
  set (keep := fun t : Task.t =>
         negb (bool_decide (Task.id t ∈ (list_to_set (List.map Task.id updated) : gset string)))).
  assert (Hkeep : forall t, keep t = true <-> ~ In (Task.id t) (List.map Task.id updated)).
  { intros t. unfold keep. rewrite negb_true_iff, bool_decide_eq_false.
    now rewrite elem_of_list_to_set, list_elem_of_In. }
  assert (Hmem : forall t, In t (List.filter keep (AppData.tasks prev) ++ updated) <->
                   (In t (AppData.tasks prev)
                    /\ ~ In (Task.id t) (List.map Task.id updated))
                   \/ In t updated).
  { intros t. now rewrite in_app_iff, filter_In, Hkeep. }
  split; [|split; [|split; [|split; [|reflexivity]]]].
  - intros t Ht. apply Hmem. now right.
  - intros t Hnot. rewrite Hmem. split.
    + intros [[H _]|H]; [exact H|]. exfalso. apply Hnot. now apply in_map.
    + intros H. left. now split.
  - intros t Hin Hid. apply Hmem in Hin as [[_ Hnot]|H]; [contradiction | exact H].
  - intros Hnd1 Hnd2. rewrite map_app. apply NoDup_app. split; [|split; [|exact Hnd2]].
    + clear Hmem. induction (AppData.tasks prev) as [|a l IH]; cbn [List.filter List.map].
      * apply NoDup_nil_2.
      * cbn [List.map] in Hnd1. apply NoDup_cons in Hnd1 as [Ha Hl].
        destruct (keep a); [|now apply IH]. cbn [List.map]. apply NoDup_cons.
        split; [|now apply IH]. intros Hin. apply Ha.
        apply list_elem_of_In, in_map_iff in Hin as (t & Hid & Hin).
        apply filter_In in Hin as [Hin _]. rewrite <- Hid.
        now apply list_elem_of_In, in_map.
    + intros x Hx Hx'. apply list_elem_of_In, in_map_iff in Hx as (t & <- & Hin).
      apply filter_In in Hin as [_ Hk]. apply Hkeep in Hk. apply Hk.
      now apply list_elem_of_In.
Qed.

End ExperimentHandlers.

(** ** Durations and repeated shifts *)

Section Durations.
Import DateFns.

(** X10. [getWeeksDifference] counts the week begun.  In a time zone in
    which midnight is on the clock on both dates, it is one more than the
    whole weeks between the two dates, [|days| / 7 + 1]; it is at least 1
    and does not depend on the order of its arguments. *)
Theorem getWeeksDifference_spec :
  forall (tz : LocalTime.TimeZone) (start end_ : string) (s e : DateTime),
    wellFormedZone tz ->
    LocalTime.parseISO tz start = Some s -> LocalTime.parseISO tz end_ = Some e ->
    midnightExists tz (dayNumber s) -> midnightExists tz (dayNumber e) ->
    getWeeksDifference tz start end_
      = Some (Z.abs (dayNumber e - dayNumber s) / 7 + 1)
    /\ getWeeksDifference tz end_ start = getWeeksDifference tz start end_
    /\ exists n, getWeeksDifference tz start end_ = Some n /\ 1 <= n.
Proof.
  intros tz start end_ s e Hwf Hs He Hes Hee.
  destruct (parseISO_local_midnight tz start s Hwf Hs Hes) as [_ Hms].
  destruct (parseISO_local_midnight tz end_ e Hwf He Hee) as [_ Hme].
  assert (Hval : forall a b x y,
             LocalTime.parseISO tz a = Some x -> LocalTime.parseISO tz b = Some y ->
             msOfDay x = 0 -> msOfDay y = 0 ->
             midnightExists tz (dayNumber x) -> midnightExists tz (dayNumber y) ->
             getWeeksDifference tz a b = Some (Z.abs (dayNumber y - dayNumber x) / 7 + 1)).
  { intros a b x y Ha Hb Hx Hy Hex Hey. unfold getWeeksDifference. rewrite Hb, Ha.
    unfold LocalTime.differenceInWeeks. rewrite differenceInDays_midnight by assumption.
    do 2 f_equal. rewrite <- Z.quot_div_nonneg by lia.
    change 7 with (Z.abs 7) at 2. symmetry. apply Z.quot_abs. lia. }
  split; [now apply Hval|]. split.
  - rewrite (Hval start end_ s e), (Hval end_ start e s) by assumption.
    do 3 f_equal. lia.
  - rewrite (Hval start end_ s e) by assumption. eexists. split; [reflexivity|].
    pose proof (Z.div_pos (Z.abs (dayNumber e - dayNumber s)) 7 ltac:(lia) ltac:(lia)). lia.
Qed.

Lemma getWeeksDifference_spec_witness :
  getWeeksDifference LocalTime.noClockChanges "2024-01-07" "2024-01-28" = Some 4
  /\ getWeeksDifference LocalTime.noClockChanges "2024-01-28" "2024-01-07"
     = getWeeksDifference LocalTime.noClockChanges "2024-01-07" "2024-01-28".
Proof.
  destruct (getWeeksDifference_spec LocalTime.noClockChanges "2024-01-07" "2024-01-28"
              (mkDateTime 19729 0) (mkDateTime 19750 0)
              noClockChanges_wellFormed eq_refl eq_refl eq_refl eq_refl)
    as (Hval & Hsym & _).
  split; [exact Hval | exact Hsym].
Defined.

(** Why midnight must be on the clock: where the clocks are put forward at
    midnight of Friday 2024-04-26, the weeks from that day to 2024-05-03
    are 2 counted one way and 1 counted the other way. *)
Example getWeeksDifference_clock_change :
  let tz := LocalTime.forwardAtMidnight 19839 in
  getWeeksDifference tz "2024-04-26" "2024-05-03" = Some 2
  /\ getWeeksDifference tz "2024-05-03" "2024-04-26" = Some 1.
Proof. vm_compute. split; reflexivity. Qed.

Lemma mapM_compose {A B} (g : B -> option B) (h : A -> option B) (l : list A) (k : list B) :
  Forall2 (fun x y => g y = h x) l k -> mapM g k = mapM h l.
Proof.
  induction 1 as [|x y l k Hxy _ IH]; [reflexivity|].
  cbn [mapM]. now rewrite Hxy, IH.
Qed.

Lemma normalize_shift_Some (w w' : string) (n : Z) :
  normalizeToSunday (ofDate (addWeeks (parseISO w) n)) = Some w' ->
  exists d, parseISO w = Some d.
Proof.
  destruct (parseISO w) as [d|]; [eauto|]. discriminate.
Qed.

(** Two shifts of one week id in a row are the shift by the sum. *)
Lemma shift_weekId_twice (w w' : string) (d : DateTime) (n m : Z) :
  parseISO w = Some d ->
  -10000000 <= n <= 10000000 -> -10000000 <= m <= 10000000 ->
  -10000000 <= n + m <= 10000000 ->
  fourDigitYear (weekStartDay d + 7 * n) ->
  normalizeToSunday (ofDate (addWeeks (parseISO w) n)) = Some w' ->
  w' <> ""
  /\ normalizeToSunday (ofDate (addWeeks (parseISO w') m))
     = normalizeToSunday (ofDate (addWeeks (parseISO w) (n + m))).
Proof.
  intros Hp Hn Hm Hnm Hr Hw'.
  rewrite (shift_weekId w d n Hp Hn) in Hw'.
  assert (Hp' : parseISO w' = Some (mkDateTime (weekStartDay d + 7 * n) 0))
    by (now apply (parseISO_format (mkDateTime (weekStartDay d + 7 * n) 0))).
  split; [intros ->; discriminate|].
  rewrite (shift_weekId w' _ m Hp' Hm), (shift_weekId w d (n + m) Hp Hnm).
  do 3 f_equal. unfold weekStartDay at 1. cbn [dayNumber].
  pose proof (getDay_weekStart (mkDateTime (dayNumber d + 7 * n) 0) 0) as Hg.
  rewrite (weekStartDay_shift d n 0) in Hg. rewrite Hg. lia.
Qed.

Lemma shift_compose :
  forall (prev next : AppData.t) (experimentId : string) (n m : Z),
    -10000000 <= n <= 10000000 -> -10000000 <= m <= 10000000 ->
    -10000000 <= n + m <= 10000000 ->
    (forall w d, parseISO w = Some d ->
       (exists t, In t (AppData.tasks prev) /\ Task.weekId t = w)
       \/ (exists e, In e (AppData.experiments prev) /\ Experiment.endDate e = Some w) ->
       fourDigitYear (weekStartDay d + 7 * n)) ->
    handleShiftExperimentTimeline experimentId n prev = Some next ->
    handleShiftExperimentTimeline experimentId m next
    = handleShiftExperimentTimeline experimentId (n + m) prev.
Proof.
  intros prev next eid n m Hn Hm Hnm Hrange Hrun.
  unfold handleShiftExperimentTimeline in Hrun.
  destruct (mapM _ (AppData.tasks prev)) as [ts|] eqn:Hts; [|discriminate].
  cbn [mbind option_bind] in Hrun.
  destruct (mapM _ (AppData.experiments prev)) as [es|] eqn:Hes; [|discriminate].
  cbn [mbind option_bind] in Hrun. injection Hrun as <-.
  unfold handleShiftExperimentTimeline.
  cbn [AppData.tasks AppData.experiments AppData.schemaVersion AppData.hiddenWeeks].
  apply mapM_Some_1 in Hts, Hes.
  match goal with
  | |- context [mapM ?g ts] =>
      match goal with
      | |- context [mapM ?h (AppData.tasks prev)] =>
          rewrite (mapM_compose g h (AppData.tasks prev) ts)
      end
  end.
  2:{ apply Forall2_same_length_lookup_2; [now apply Forall2_length in Hts|].
      intros i t t' Ht Ht'.
      pose proof (Forall2_lookup_lr _ _ _ _ _ _ Hts Ht Ht') as Hstep. cbn beta in Hstep.
      assert (Hin : In t (AppData.tasks prev))
        by (apply list_elem_of_In; now apply list_elem_of_lookup_2 with i).
      destruct (String.eqb (Task.experimentId t) eid && negb (Task.completed t)) eqn:Haff.
      - destruct (normalizeToSunday (ofDate (addWeeks (parseISO (Task.weekId t)) n)))
          as [w'|] eqn:Hw'; [|discriminate].
        cbn [mbind option_bind] in Hstep. injection Hstep as <-.
        cbn [Task.with_weekId Task.experimentId Task.completed Task.weekId]. rewrite Haff.
        destruct (normalize_shift_Some _ _ _ Hw') as [d Hd].
        destruct (shift_weekId_twice (Task.weekId t) w' d n m Hd Hn Hm Hnm) as [_ Heq];
          [apply (Hrange (Task.weekId t)); [exact Hd | left; eauto] | exact Hw' |].
        rewrite Heq. now destruct (normalizeToSunday _).
      - injection Hstep as <-. now rewrite Haff. }
  match goal with
  | |- context [mapM ?g es] =>
      match goal with
      | |- context [mapM ?h (AppData.experiments prev)] =>
          rewrite (mapM_compose g h (AppData.experiments prev) es)
      end
  end.
  - reflexivity.
  - apply Forall2_same_length_lookup_2; [now apply Forall2_length in Hes|].
    intros i e e' He He'.
    pose proof (Forall2_lookup_lr _ _ _ _ _ _ Hes He He') as Hstep. cbn beta in Hstep.
    assert (Hin : In e (AppData.experiments prev))
      by (apply list_elem_of_In; now apply list_elem_of_lookup_2 with i).
    destruct (String.eqb (Experiment.id e) eid) eqn:Hid.
    + destruct (Experiment.endDate e) as [ed|] eqn:Hed.
      * destruct (truthy (Some ed)) eqn:Htr.
        -- destruct (normalizeToSunday (ofDate (addWeeks (parseISO ed) n)))
             as [w'|] eqn:Hw'; [|discriminate].
           cbn [mbind option_bind] in Hstep. injection Hstep as <-.
           cbn [Experiment.with_endDate Experiment.id Experiment.endDate]. rewrite Hid.
           destruct (normalize_shift_Some _ _ _ Hw') as [d Hd].
           destruct (shift_weekId_twice ed w' d n m Hd Hn Hm Hnm) as [Hne Heq];
             [apply (Hrange ed); [exact Hd | right; eauto] | exact Hw' |].
           assert (Htr' : truthy (Some w') = true).
           { cbn [truthy]. now destruct (String.eqb_spec w' ""). }
           rewrite Htr', Heq. now destruct (normalizeToSunday _).
        -- injection Hstep as <-.
           cbn [Experiment.with_endDate Experiment.id Experiment.endDate]. now rewrite Hid.
      * injection Hstep as <-.
        cbn [Experiment.with_endDate Experiment.id Experiment.endDate]. now rewrite Hid.
    + injection Hstep as <-. now rewrite Hid.
Qed.

(** X11. Shifting a timeline twice is shifting it once by the sum: if the
    shift by [n] weeks succeeds (the ids it writes lying in the four-digit
    years), shifting the result by [m] weeks gives what shifting the
    original by [n + m] weeks gives, task for task and end date included. *)
Theorem handleShiftExperimentTimeline_twice :
  forall (prev next : AppData.t) (experimentId : string) (n m : Z),
    -10000000 <= n <= 10000000 -> -10000000 <= m <= 10000000 ->
    -10000000 <= n + m <= 10000000 ->
    (forall w d, parseISO w = Some d ->
       (exists t, In t (AppData.tasks prev) /\ Task.weekId t = w)
       \/ (exists e, In e (AppData.experiments prev) /\ Experiment.endDate e = Some w) ->
       fourDigitYear (weekStartDay d + 7 * n)) ->
    handleShiftExperimentTimeline experimentId n prev = Some next ->
    handleShiftExperimentTimeline experimentId m next
    = handleShiftExperimentTimeline experimentId (n + m) prev.
Proof. exact shift_compose. Qed.

(** A week id is canonical when normalising it gives it back: it is the
    printed form of the Sunday of its week. *)
Definition canonicalWeek (w : string) : Prop :=
  normalizeToSunday (ofString w) = Some w.

Lemma shift_zero (w : string) :
  canonicalWeek w ->
  normalizeToSunday (ofDate (addWeeks (parseISO w) 0)) = Some w.
Proof.
  unfold canonicalWeek. intros Hc.
  destruct (parseISO w) as [d|] eqn:Hp.
  - rewrite <- Hp, (shift_weekId w d 0 Hp) by lia. rewrite <- Hc.
    destruct (parseISO_inJsRange w d 0 Hp ltac:(lia)) as [_ Hr].
    rewrite Z.add_0_r in *.
    symmetry. apply (normalizeToSunday_format (ofString w) d); [exact Hp | | exact Hr].
    now apply parseISO_wellFormed with w.
  - unfold normalizeToSunday in Hc. cbn in Hc. rewrite Hp in Hc. discriminate.
Qed.

Lemma mapM_fixed {A} (g : A -> option A) (l : list A) :
  (forall x, In x l -> g x = Some x) -> mapM g l = Some l.
Proof.
  induction l as [|x l IH]; intros H; [reflexivity|].
  cbn [mapM]. rewrite (H x (or_introl eq_refl)), IH; [reflexivity|].
  intros y Hy. apply H. now right.
Qed.

(** X12. Shifting back undoes a shift.  On a board where the open tasks of
    the experiment carry canonical week ids and its end date, if set, is
    canonical too, a shift by [n] weeks that succeeds (writing ids within
    the four-digit years) followed by the shift by [-n] weeks returns the
    board as it was. *)
Theorem handleShiftExperimentTimeline_undo :
  forall (prev next : AppData.t) (experimentId : string) (n : Z),
    -10000000 <= n <= 10000000 ->
    (forall w d, parseISO w = Some d ->
       (exists t, In t (AppData.tasks prev) /\ Task.weekId t = w)
       \/ (exists e, In e (AppData.experiments prev) /\ Experiment.endDate e = Some w) ->
       fourDigitYear (weekStartDay d + 7 * n)) ->
    (forall t, In t (AppData.tasks prev) -> Task.experimentId t = experimentId ->
               Task.completed t = false -> canonicalWeek (Task.weekId t)) ->
    (forall e w, In e (AppData.experiments prev) -> Experiment.id e = experimentId ->
                 Experiment.endDate e = Some w -> canonicalWeek w) ->
    handleShiftExperimentTimeline experimentId n prev = Some next ->
    handleShiftExperimentTimeline experimentId (- n) next = Some prev.
Proof.
  intros prev next eid n Hn Hrange Htasks Hexps Hrun.
  rewrite (shift_compose prev next eid n (- n)); try assumption; try lia.
  rewrite Z.add_opp_diag_r. unfold handleShiftExperimentTimeline.
  rewrite (mapM_fixed _ (AppData.tasks prev)).
  2:{ intros t Ht.
      destruct (String.eqb_spec (Task.experimentId t) eid) as [Hid|_]; [|reflexivity].
      destruct (Task.completed t) eqn:Hc; [reflexivity|]. cbn [negb andb].
      rewrite (shift_zero _ (Htasks t Ht Hid Hc)). cbn [mbind option_bind]. now destruct t. }
  cbn [mbind option_bind]. rewrite (mapM_fixed _ (AppData.experiments prev)).
  2:{ intros e He.
      destruct (String.eqb_spec (Experiment.id e) eid) as [Hid|_]; [|reflexivity].
      destruct (Experiment.endDate e) as [w|] eqn:Hw.
      - pose proof (Hexps e w He Hid Hw) as Hc.
        assert (Htr : truthy (Some w) = true).
        { cbn [truthy]. destruct (String.eqb_spec w "") as [->|]; [discriminate Hc | reflexivity]. }
        rewrite Htr, (shift_zero w Hc). cbn [mbind option_bind].
        rewrite <- Hw. now destruct e.
      - rewrite <- Hw. now destruct e. }
  cbn [mbind option_bind]. now destruct prev.
Qed.

End Durations.

(** ** What the wizard hands to the board *)

Section WizardOutput.
Import DateFns.
Variable uuid : nat -> string.

(** A task made by the wizard for the plan entry [d] of experiment
    [experimentId]. *)
Definition instanceOf (experimentId : string) (d : PlanTaskItem.t) (t : Task.t) : Prop :=
  Task.experimentId t = experimentId
  /\ Task.planTaskId t = Some (PlanTaskItem.id d)
  /\ Task.description t = PlanTaskItem.description d
  /\ Task.status t = PlanTaskItem.status d
  /\ Task.importance t = PlanTaskItem.importance d
  /\ Task.completed t = false
  /\ Task.dependencies t = [] /\ Task.tags t = [] /\ Task.attachments t = []
  /\ (PlanTaskItem.recurrence d = None ->
      Task.title t = PlanTaskItem.title d /\ Task.recurrenceGroupId t = None)
  /\ (PlanTaskItem.recurrence d <> None -> Task.recurrenceGroupId t <> None).

(** The tasks [new] were pushed by a run that took the identifiers
    [uuid k .. uuid (k' - 1)]: their ids are among them, each used once. *)
Definition pushed (k k' : nat) (new : list Task.t) : Prop :=
  (k <= k')%nat
  /\ exists idxs : list nat,
       List.map Task.id new = List.map uuid idxs
       /\ NoDup idxs /\ Forall (fun j => (k <= j < k')%nat) idxs.

Lemma pushed_nil k : pushed k k [].
Proof. split; [lia|]. exists []. repeat split; constructor. Qed.

Lemma pushed_app k k1 k' new1 new2 :
  pushed k k1 new1 -> pushed k1 k' new2 -> pushed k k' (new1 ++ new2).
Proof.
  intros [H1 (i1 & Hm1 & Hn1 & Hr1)] [H2 (i2 & Hm2 & Hn2 & Hr2)].
  split; [lia|]. exists (i1 ++ i2). split; [|split].
  - now rewrite !List.map_app, Hm1, Hm2.
  - apply NoDup_app. split; [exact Hn1|]. split; [|exact Hn2].
    intros j Hj1 Hj2. rewrite Forall_forall in Hr1, Hr2.
    specialize (Hr1 j Hj1). specialize (Hr2 j Hj2). lia.
  - apply Forall_app. split; (eapply Forall_impl; [eassumption|]); cbn; lia.
Qed.

Lemma pushed_one k k0 k' (t : Task.t) :
  (k <= k0 < k')%nat -> Task.id t = uuid k0 -> pushed k k' [t].
Proof.
  intros Hk Hid. split; [lia|]. exists [k0]. split; [cbn; now rewrite Hid|].
  split; [apply NoDup_singleton | now constructor].
Qed.

Lemma pushed_weaken k0 k k' new :
  (k0 <= k)%nat -> pushed k k' new -> pushed k0 k' new.
Proof.
  intros Hk [H (i & Hm & Hn & Hr)]. split; [lia|]. exists i. split; [exact Hm|].
  split; [exact Hn|]. eapply Forall_impl; [exact Hr|]. cbn. lia.
Qed.

Lemma recurrenceLoop_pushes startDate experimentId groupId draft interval duration :
  PlanTaskItem.recurrence draft <> None ->
  forall (fuel : nat) (w count : Z) (acc out : list Task.t) (k k' : nat),
    recurrenceLoop uuid fuel startDate experimentId groupId draft interval duration
                   w count acc k = (Done out, k') ->
    exists new, out = acc ++ new /\ pushed k k' new
                /\ Forall (instanceOf experimentId draft) new.
Proof.
  intros Hrec. induction fuel as [|fuel IH]; intros w count acc out k k' Hrun;
    cbn [recurrenceLoop] in Hrun; [discriminate|].
  destruct (w <? duration).
  - unfold bind at 1 in Hrun. unfold generateUUID at 1 in Hrun.
    unfold bind at 1 in Hrun. unfold orThrow at 1 in Hrun.
    destruct (normalizeToSunday _) as [weekId|]; [|discriminate].
    apply IH in Hrun as (new & -> & Hp & Hall).
    eexists (_ :: new). split; [now rewrite <- app_assoc|]. split.
    + change (?t :: new) with ([t] ++ new).
      apply pushed_app with (S k); [apply (pushed_one k k); [lia | reflexivity] | exact Hp].
    + constructor; [|exact Hall].
      unfold instanceOf; cbn. repeat split; try congruence.
  - unfold ret in Hrun. injection Hrun as <- <-. exists [].
    split; [now rewrite app_nil_r|]. split; [apply pushed_nil | constructor].
Qed.

Lemma expandDraft_pushes fuel startDate experimentId acc draft out k k' :
  expandDraft uuid fuel startDate experimentId acc draft k = (Done out, k') ->
  exists new, out = acc ++ new /\ pushed k k' new
              /\ Forall (instanceOf experimentId draft) new.
Proof.
  unfold expandDraft. destruct (PlanTaskItem.recurrence draft) as [r|] eqn:Hrec.
  - unfold bind at 1, generateUUID at 1. intros Hrun.
    apply recurrenceLoop_pushes in Hrun as (new & -> & Hp & Hall); [|congruence].
    exists new. split; [reflexivity|]. split; [|exact Hall].
    apply pushed_weaken with (S k); [lia | exact Hp].
  - unfold bind at 1, generateUUID at 1. unfold bind at 1, orThrow at 1.
    destruct (normalizeToSunday _) as [weekId|]; [|discriminate].
    unfold ret. intros Hrun. injection Hrun as <- <-.
    eexists [_]. split; [reflexivity|]. split.
    + apply (pushed_one k k); [lia | reflexivity].
    + constructor; [|constructor].
      unfold instanceOf; cbn. rewrite Hrec. repeat split; congruence.
Qed.

Lemma forEachDraft_pushes fuel startDate experimentId :
  forall (drafts : list PlanTaskItem.t) (acc out : list Task.t) (k k' : nat),
    forEachDraft uuid fuel startDate experimentId drafts acc k = (Done out, k') ->
    exists new, out = acc ++ new /\ pushed k k' new
                /\ Forall (fun t => exists d, In d drafts /\ instanceOf experimentId d t) new.
Proof.
  induction drafts as [|d rest IH]; intros acc out k k' Hrun; cbn [forEachDraft] in Hrun.
  - unfold ret in Hrun. injection Hrun as <- <-. exists [].
    split; [now rewrite app_nil_r|]. split; [apply pushed_nil | constructor].
  - unfold bind at 1 in Hrun.
    destruct (expandDraft _ _ _ _ _ _ _) as [[mid| |] k1] eqn:Hd; try discriminate.
    apply expandDraft_pushes in Hd as (new1 & -> & Hp1 & Hall1).
    apply IH in Hrun as (new2 & -> & Hp2 & Hall2).
    exists (new1 ++ new2). split; [now rewrite app_assoc|]. split.
    + now apply pushed_app with k1.
    + apply Forall_app. split.
      * eapply Forall_impl; [exact Hall1|]. intros t Ht. exists d. split; [now left | exact Ht].
      * eapply Forall_impl; [exact Hall2|]. intros t (d' & Hin & Ht). exists d'.
        split; [now right | exact Ht].
Qed.

Lemma handleFinish_output :
  forall (fuel : nat) (startDate : string) (draftTasks : list EditableTask)
         (k k' : nat) (experimentId : string)
         (masterPlan : list PlanTaskItem.t) (finalTasks : list Task.t),
    handleFinish uuid fuel startDate draftTasks k
      = (Done (experimentId, masterPlan, finalTasks), k') ->
    experimentId = uuid k
    /\ Forall (fun t => exists d, In d masterPlan /\ instanceOf experimentId d t) finalTasks
    /\ ((forall i j, uuid i = uuid j -> i = j) ->
        NoDup (List.map Task.id finalTasks)
        /\ ~ In experimentId (List.map Task.id finalTasks)).
Proof.
  intros fuel startDate draftTasks k k' eid plan tasks Hrun.
  unfold handleFinish in Hrun. unfold bind at 1, generateUUID at 1 in Hrun.
  unfold bind at 1 in Hrun.
  destruct (forEachDraft _ _ _ _ _ _ _) as [[out| |] k1] eqn:Hloop; try discriminate.
  unfold ret in Hrun. injection Hrun as <- <- <- <-.
  apply forEachDraft_pushes in Hloop as (new & -> & [Hle (idxs & Hm & Hnd & Hr)] & Hall).
  cbn [app] in *. split; [reflexivity|]. split; [exact Hall|].
  intros Hinj. rewrite Hm. split.
  - apply NoDup_fmap_2; [|exact Hnd]. intros i j. apply Hinj.
  - intros Hin. apply in_map_iff in Hin as (j & Hj & Hin).
    apply Hinj in Hj. subst j. apply list_elem_of_In in Hin.
    rewrite Forall_forall in Hr. specialize (Hr k Hin). lia.
Qed.

Lemma handleFinish_ids fuel startDate draftTasks k k' experimentId masterPlan finalTasks :
  handleFinish uuid fuel startDate draftTasks k
    = (Done (experimentId, masterPlan, finalTasks), k') ->
  exists idxs, List.map Task.id finalTasks = List.map uuid idxs.
Proof.
  intros Hrun. unfold handleFinish in Hrun. unfold bind at 1, generateUUID at 1 in Hrun.
  unfold bind at 1 in Hrun.
  destruct (forEachDraft _ _ _ _ _ _ _) as [[out| |] k1] eqn:Hloop; try discriminate.
  unfold ret in Hrun. injection Hrun as <- <- <- <-.
  apply forEachDraft_pushes in Hloop as (new & -> & [_ (idxs & Hm & _)] & _). eauto.
Qed.

(** X13. Whatever [handleFinish] hands to the board: the experiment id is the
    first identifier drawn; every task belongs to that experiment, is open,
    has no dependencies, tags or attachments, and copies description,
    status and importance of a selected plan entry whose id it records,
    with a recurrence group exactly when that entry recurs; and if the
    identifiers drawn are pairwise distinct, so are the ids of the tasks,
    none of which is the experiment id. *)
Theorem handleFinish_spec :
  forall (fuel : nat) (startDate : string) (draftTasks : list EditableTask)
         (k k' : nat) (experimentId : string)
         (masterPlan : list PlanTaskItem.t) (finalTasks : list Task.t),
    handleFinish uuid fuel startDate draftTasks k
      = (Done (experimentId, masterPlan, finalTasks), k') ->
    experimentId = uuid k
    /\ Forall (fun t => exists d, In d masterPlan /\ instanceOf experimentId d t) finalTasks
    /\ ((forall i j, uuid i = uuid j -> i = j) ->
        NoDup (List.map Task.id finalTasks)
        /\ ~ In experimentId (List.map Task.id finalTasks)).
Proof. exact handleFinish_output. Qed.

Lemma forEachDraft_single fuel startDate s experimentId :
  parseISO startDate = Some s ->
  forall (drafts : list PlanTaskItem.t) (acc : list Task.t) (k : nat),
    (forall d, In d drafts ->
       PlanTaskItem.recurrence d = None
       /\ -10000000 <= PlanTaskItem.weekOffset d <= 10000000) ->
    exists new,
      forEachDraft uuid fuel startDate experimentId drafts acc k
        = (Done (acc ++ new), (k + length drafts)%nat)
      /\ List.map Task.id new = List.map uuid (seq k (length drafts))
      /\ Forall2 (fun d t => Task.title t = PlanTaskItem.title d
                             /\ Task.planTaskId t = Some (PlanTaskItem.id d)
                             /\ weekLater (PlanTaskItem.weekOffset d) startDate (Task.weekId t))
                 drafts new.
Proof.
  intros Hs. induction drafts as [|d rest IH]; intros acc k Hall; cbn [forEachDraft].
  - exists []. rewrite app_nil_r, Nat.add_0_r. repeat split. constructor.
  - destruct (Hall d (or_introl eq_refl)) as [Hrec Hoff].
    destruct (weekLater_shift startDate s _ Hs Hoff) as (w' & Hw' & Hlater).
    unfold bind at 1. unfold expandDraft. rewrite Hrec.
    unfold bind at 1, generateUUID at 1. unfold bind at 1, orThrow at 1.
    rewrite Hw'. unfold ret at 1.
    edestruct (IH (acc ++ [Task.mk (uuid k) experimentId (PlanTaskItem.title d)
                             (PlanTaskItem.description d) w'
                             (PlanTaskItem.status d) (PlanTaskItem.importance d)
                             false [] [] [] None (Some (PlanTaskItem.id d))]) (S k))
      as (new & Hrun & Hids & Hrel); [intros d' Hd'; apply Hall; now right|].
    eexists (_ :: new). split; [|split].
    + rewrite Hrun, <- app_assoc. cbn [app length]. f_equal. lia.
    + cbn [List.map length seq]. now rewrite Hids.
    + constructor; [|exact Hrel]. cbn. auto.
Qed.

(** X14. A plan without recurrences never needs the loop: on a valid start
    date and with offsets within ten million weeks, [handleFinish] returns
    for any fuel, drawing one identifier for the experiment and one per
    selected entry, and makes exactly one task per selected entry, in the
    order of the plan, with the entry's title and id and the week the
    entry's offset after the week of the start date. *)
Theorem handleFinish_single_tasks :
  forall (fuel : nat) (startDate : string) (s : DateFns.DateTime)
         (draftTasks : list EditableTask) (k : nat),
    parseISO startDate = Some s ->
    (forall e, In e draftTasks -> isSelected e = true ->
       PlanTaskItem.recurrence (draftItem e) = None
       /\ -10000000 <= PlanTaskItem.weekOffset (draftItem e) <= 10000000) ->
    let masterPlan := List.map draftItem (List.filter isSelected draftTasks) in
    exists finalTasks,
      handleFinish uuid fuel startDate draftTasks k
        = (Done (uuid k, masterPlan, finalTasks), (k + 1 + length masterPlan)%nat)
      /\ List.map Task.id finalTasks = List.map uuid (seq (S k) (length masterPlan))
      /\ Forall2 (fun d t => Task.title t = PlanTaskItem.title d
                             /\ Task.planTaskId t = Some (PlanTaskItem.id d)
                             /\ weekLater (PlanTaskItem.weekOffset d) startDate (Task.weekId t))
                 masterPlan finalTasks.
Proof.
  intros fuel startDate s draftTasks k Hs Hall masterPlan.
  destruct (forEachDraft_single fuel startDate s (uuid k) Hs masterPlan [] (S k))
    as (new & Hrun & Hids & Hrel).
  { intros d Hd. apply in_map_iff in Hd as (e & <- & He).
    apply List.filter_In in He as [He Hsel]. now apply Hall. }
  exists new. split; [|split; assumption].
  unfold handleFinish. unfold bind at 1, generateUUID at 1. unfold bind at 1.
  fold masterPlan. rewrite Hrun. unfold ret. cbn [app]. do 2 f_equal. lia.
Qed.

End WizardOutput.

(** ** Merging an import *)

Section Merging.
Variable uuid : nat -> string.

(** The position of the last experiment with id [x], if there is one. *)
Fixpoint lastIndexOf (x : string) (exps : list Experiment.t) : option nat :=
  match exps with
  | [] => None
  | e :: rest =>
      match lastIndexOf x rest with
      | Some i => Some (S i)
      | None => if String.eqb (Experiment.id e) x then Some 0%nat else None
      end
  end.

Lemma lastIndexOf_None x exps :
  lastIndexOf x exps = None -> forall i e, exps !! i = Some e -> Experiment.id e <> x.
Proof.
  induction exps as [|e0 rest IH]; intros Hl i e Hi; [discriminate|].
  cbn [lastIndexOf] in Hl. destruct (lastIndexOf x rest); [discriminate|].
  destruct (String.eqb_spec (Experiment.id e0) x) as [|Hne]; [discriminate|].
  destruct i as [|i]; cbn in Hi; [congruence | eauto].
Qed.

Lemma lastIndexOf_Some x exps i :
  lastIndexOf x exps = Some i ->
  exists e, exps !! i = Some e /\ Experiment.id e = x
            /\ forall i' e', (i < i')%nat -> exps !! i' = Some e' -> Experiment.id e' <> x.
Proof.
  revert i. induction exps as [|e0 rest IH]; intros i Hl; [discriminate|].
  cbn [lastIndexOf] in Hl. destruct (lastIndexOf x rest) as [j|] eqn:Hrest.
  - injection Hl as <-. destruct (IH j eq_refl) as (e & He & Hid & Hlast).
    exists e. split; [exact He|]. split; [exact Hid|].
    intros [|i'] e' Hlt He'; [lia|]. apply (Hlast i' e'); [lia | exact He'].
  - destruct (String.eqb_spec (Experiment.id e0) x) as [Hid|]; [|discriminate].
    injection Hl as <-. exists e0. split; [reflexivity|]. split; [exact Hid|].
    intros [|i'] e' Hlt He'; [lia|]. now apply (lastIndexOf_None x rest Hrest i' e').
Qed.

Lemma lastIndexOf_includes x exps :
  includes (List.map Experiment.id exps) x = true <-> is_Some (lastIndexOf x exps).
Proof.
  unfold includes. induction exps as [|e rest IH]; cbn [List.map existsb lastIndexOf].
  - split; [discriminate | intros [? [=]]].
  - rewrite orb_true_iff, IH. destruct (lastIndexOf x rest) as [j|].
    + split; eauto.
    + rewrite String.eqb_sym. destruct (String.eqb (Experiment.id e) x).
      * split; eauto.
      * split; [intros [[=]|[? [=]]] | intros [? [=]]].
Qed.

Lemma reIdExperiments_runs :
  forall (exps : list Experiment.t) (m : gmap string string)
         (acc : list Experiment.t) (k : nat),
    exists m',
      reIdExperiments uuid exps m acc k
        = (Done (m', acc ++ imap (fun i e => experiment_with_id (uuid (k + i)) e) exps),
           (k + length exps)%nat)
      /\ forall x, m' !! x = match lastIndexOf x exps with
                             | Some i => Some (uuid (k + i))
                             | None => m !! x
                             end.
Proof.
  induction exps as [|e rest IH]; intros m acc k; cbn [reIdExperiments].
  - exists m. cbn. rewrite app_nil_r, Nat.add_0_r. split; reflexivity.
  - unfold bind at 1, generateUUID at 1.
    destruct (IH (<[Experiment.id e := uuid k]> m)
                 (acc ++ [experiment_with_id (uuid k) e]) (S k)) as (m' & Hrun & Hm').
    exists m'. split.
    + rewrite Hrun, <- app_assoc. cbn [app imap length]. rewrite Nat.add_0_r.
      f_equal; [|lia]. do 4 f_equal. apply imap_ext. intros i x _. cbn.
      now rewrite Nat.add_succ_r.
    + intros x. rewrite Hm'. cbn [lastIndexOf].
      destruct (lastIndexOf x rest) as [i|].
      * now rewrite Nat.add_succ_r.
      * destruct (String.eqb_spec (Experiment.id e) x) as [->|Hne].
        -- now rewrite lookup_insert_eq, Nat.add_0_r.
        -- now rewrite lookup_insert_ne.
Qed.

(** A merged task keeps everything but its ids and loses its dependencies. *)
Definition mergedTask (t t' : Task.t) : Prop :=
  Task.title t' = Task.title t /\ Task.description t' = Task.description t
  /\ Task.weekId t' = Task.weekId t /\ Task.status t' = Task.status t
  /\ Task.importance t' = Task.importance t /\ Task.completed t' = Task.completed t
  /\ Task.tags t' = Task.tags t /\ Task.attachments t' = Task.attachments t
  /\ Task.recurrenceGroupId t' = Task.recurrenceGroupId t
  /\ Task.planTaskId t' = Task.planTaskId t
  /\ Task.dependencies t' = [].

Lemma reIdTasks_runs (m : gmap string string) (p : string -> bool) :
  (forall x v, m !! x = Some v -> v <> "") ->
  (forall x, p x = true <-> is_Some (m !! x)) ->
  forall (tasks acc : list Task.t) (k : nat),
    let kept := List.filter (fun t => p (Task.experimentId t)) tasks in
    exists new,
      reIdTasks uuid tasks m acc k = (Done (acc ++ new), (k + length kept)%nat)
      /\ List.map Task.id new = List.map uuid (seq k (length kept))
      /\ Forall2 (fun t t' => mergedTask t t'
                              /\ m !! Task.experimentId t = Some (Task.experimentId t'))
                 kept new.
Proof.
  intros Hne Hp. induction tasks as [|t rest IH]; intros acc k; cbn [reIdTasks List.filter].
  - exists []. cbn. rewrite app_nil_r, Nat.add_0_r. repeat split. constructor.
  - destruct (m !! Task.experimentId t) as [e|] eqn:Hm.
    + assert (Hpt : p (Task.experimentId t) = true) by (apply Hp; eauto).
      rewrite Hpt. cbn [truthy].
      destruct (String.eqb_spec e "") as [He|_]; [now apply Hne in Hm|]. cbn [negb].
      unfold bind at 1, generateUUID at 1.
      match goal with
      | |- context [reIdTasks _ _ _ (acc ++ [?t'])] =>
          destruct (IH (acc ++ [t']) (S k)) as (new & Hrun & Hids & Hrel);
          exists (t' :: new)
      end.
      split; [|split].
      * rewrite Hrun, <- app_assoc. cbn [app length]. f_equal. lia.
      * cbn [List.map length seq]. now rewrite Hids.
      * constructor; [|exact Hrel]. split; [|exact Hm]. unfold mergedTask. cbn. tauto.
    + assert (Hpt : p (Task.experimentId t) = false).
      { apply not_true_is_false. intros Hpt. apply Hp in Hpt as [? ?]. congruence. }
      rewrite Hpt. apply IH.
Qed.

(** X15. Merging an import appends and never touches what is on the board.
    Every imported experiment is appended under a fresh identifier, in
    order; the imported tasks whose experiment is among the imported ones
    are appended in order, each under a fresh identifier, without
    dependencies, otherwise unchanged, and attached to the new identifier of
    the last imported experiment that carried the task's experiment id.
    (The identifiers drawn being non-empty strings.) *)
Theorem handleMergeImport_spec :
  forall (candidate prev : AppData.t) (k : nat),
    (forall j, uuid j <> "") ->
    let exps := AppData.experiments candidate in
    let kept := List.filter (fun t => includes (List.map Experiment.id exps)
                                               (Task.experimentId t))
                            (AppData.tasks candidate) in
    exists newExperiments newTasks,
      handleMergeImport uuid (Some candidate) prev k
        = (Done (AppData.mk (AppData.experiments prev ++ newExperiments)
                            (AppData.tasks prev ++ newTasks)
                            (AppData.schemaVersion prev) (AppData.hiddenWeeks prev)),
           (k + length exps + length kept)%nat)
      /\ newExperiments = imap (fun i e => experiment_with_id (uuid (k + i)) e) exps
      /\ List.map Task.id newTasks
         = List.map uuid (seq (k + length exps) (length kept))
      /\ Forall2 (fun t t' =>
                    mergedTask t t'
                    /\ exists i e,
                         exps !! i = Some e
                         /\ Experiment.id e = Task.experimentId t
                         /\ (forall i' e', (i < i')%nat -> exps !! i' = Some e' ->
                                           Experiment.id e' <> Task.experimentId t)
                         /\ Task.experimentId t' = uuid (k + i))
                 kept newTasks.
Proof.
  intros candidate prev k Hne exps kept.
  destruct (reIdExperiments_runs exps ∅ [] k) as (m & Hexps & Hm).
  assert (Hval : forall x v, m !! x = Some v -> v <> "").
  { intros x v Hx. rewrite Hm in Hx. destruct (lastIndexOf x exps).
    - injection Hx as <-. apply Hne.
    - rewrite lookup_empty in Hx. discriminate. }
  assert (Hp : forall x, includes (List.map Experiment.id exps) x = true <-> is_Some (m !! x)).
  { intros x. rewrite lastIndexOf_includes, Hm. destruct (lastIndexOf x exps).
    - split; eauto.
    - rewrite lookup_empty. split; intros [? [=]]. }
  destruct (reIdTasks_runs m _ Hval Hp (AppData.tasks candidate) [] (k + length exps))
    as (new & Htasks & Hids & Hrel).
  exists (imap (fun i e => experiment_with_id (uuid (k + i)) e) exps), new.
  split; [|split; [reflexivity|split; [exact Hids|]]].
  - unfold handleMergeImport. fold exps. unfold bind at 1. rewrite Hexps.
    unfold bind at 1. cbn [fst snd]. rewrite Htasks. reflexivity.
  - eapply Forall2_impl; [exact Hrel|]. intros t t' [Hmerged Hlook].
    split; [exact Hmerged|]. rewrite Hm in Hlook.
    destruct (lastIndexOf (Task.experimentId t) exps) as [i|] eqn:Hlast.
    + destruct (lastIndexOf_Some _ _ _ Hlast) as (e & He & Hid & Hafter).
      exists i, e. repeat split; try assumption. now injection Hlook.
    + rewrite lookup_empty in Hlook. discriminate.
Qed.

End Merging.

(** ** CSV export *)

Section CsvReading.

(** Reading back one field: the text of a quoted field after its opening
    quote, up to the closing quote, a doubled quote standing for one. *)
Fixpoint readQuoted (s : string) : option (string * string) :=
  match s with
  | EmptyString => None
  | String c r =>
      if Ascii.eqb c dquote then
        match r with
        | String c2 r2 =>
            if Ascii.eqb c2 dquote then
              match readQuoted r2 with
              | Some (f, rest) => Some (String dquote f, rest)
              | None => None
              end
            else Some (EmptyString, r)
        | EmptyString => Some (EmptyString, EmptyString)
        end
      else
        match readQuoted r with
        | Some (f, rest) => Some (String c f, rest)
        | None => None
        end
  end.

(** An unquoted field ends before the first special character. *)
Fixpoint readPlain (s : string) : string * string :=
  match s with
  | EmptyString => (EmptyString, EmptyString)
  | String c r =>
      if csvSpecial c then (EmptyString, s)
      else let (f, rest) := readPlain r in (String c f, rest)
  end.

Definition readField (s : string) : option (string * string) :=
  match s with
  | String c r => if Ascii.eqb c dquote then readQuoted r else Some (readPlain s)
  | EmptyString => Some (EmptyString, EmptyString)
  end.

(** What may follow a field: nothing, a comma, or the line feed that ends
    the line. *)
Definition fieldEnd (rest : string) : Prop :=
  rest = EmptyString \/ exists r, rest = String "," r \/ rest = String lineFeed r.

Lemma string_app_assoc (a b c : string) : (a +:+ b) +:+ c = a +:+ (b +:+ c).
Proof.
  induction a as [|x a IH]; [reflexivity|].
  change (String x ((a +:+ b) +:+ c) = String x (a +:+ (b +:+ c))). now rewrite IH.
Qed.

Lemma string_app_nil_r (a : string) : a +:+ EmptyString = a.
Proof.
  induction a as [|x a IH]; [reflexivity|].
  change (String x (a +:+ EmptyString) = String x a). now rewrite IH.
Qed.

Lemma append_cons (c : ascii) (a b : string) : String c a +:+ b = String c (a +:+ b).
Proof. reflexivity. Qed.

Lemma append_nil (b : string) : EmptyString +:+ b = b.
Proof. reflexivity. Qed.

Lemma readQuoted_end (rest : string) :
  fieldEnd rest -> readQuoted (String dquote rest) = Some (EmptyString, rest).
Proof. intros [->|[r [->| ->]]]; reflexivity. Qed.

Lemma readQuoted_doubleQuotes (str rest : string) :
  fieldEnd rest ->
  readQuoted (doubleQuotes str +:+ String dquote rest) = Some (str, rest).
Proof.
  intros Hrest. induction str as [|c s IH].
  - cbn [doubleQuotes]. rewrite append_nil. now apply readQuoted_end.
  - cbn [doubleQuotes]. destruct (Ascii.eqb_spec c dquote) as [->|Hc].
    + rewrite !append_cons. cbn [readQuoted]. rewrite Ascii.eqb_refl, IH. reflexivity.
    + rewrite append_cons. cbn [readQuoted].
      rewrite (proj2 (Ascii.eqb_neq _ _) Hc), IH. reflexivity.
Qed.

Lemma readPlain_end (rest : string) :
  fieldEnd rest -> readPlain rest = (EmptyString, rest).
Proof. intros [->|[r [->| ->]]]; reflexivity. Qed.

Lemma readPlain_plain (str rest : string) :
  testSpecial str = false -> fieldEnd rest ->
  readPlain (str +:+ rest) = (str, rest).
Proof.
  intros Hs Hrest. induction str as [|c s IH].
  - rewrite append_nil. now apply readPlain_end.
  - cbn [testSpecial] in Hs. apply orb_false_iff in Hs as [Hc Hs].
    rewrite append_cons. cbn [readPlain]. now rewrite Hc, IH.
Qed.

Lemma readField_csvEscape (str rest : string) :
  fieldEnd rest ->
  readField (csvEscape (CsvString str) +:+ rest) = Some (str, rest).
Proof.
  intros Hrest. unfold csvEscape. cbn [csvString].
  destruct (testSpecial str) eqn:Hs.
  - rewrite append_cons, string_app_assoc, append_cons, append_nil.
    cbn [readField]. rewrite Ascii.eqb_refl. now apply readQuoted_doubleQuotes.
  - destruct str as [|c s].
    + rewrite append_nil. destruct Hrest as [->|[r [->| ->]]]; reflexivity.
    + cbn [testSpecial] in Hs. apply orb_false_iff in Hs as [Hc Hs].
      assert (Hq : Ascii.eqb c dquote = false).
      { unfold csvSpecial in Hc. now destruct (Ascii.eqb c dquote). }
      rewrite append_cons. cbn [readField]. rewrite Hq, <- append_cons.
      f_equal. apply readPlain_plain; [|exact Hrest]. cbn [testSpecial]. now rewrite Hc, Hs.
Qed.

Lemma csvEscape_csvString (v : CsvValue) : csvEscape v = csvEscape (CsvString (csvString v)).
Proof. reflexivity. Qed.

(** What [join] puts after the first element. *)
Definition joinTail (sep : string) (l : list string) : string :=
  match l with
  | [] => EmptyString
  | _ => sep +:+ String.concat sep l
  end.

Lemma joinTail_nil (sep : string) : joinTail sep [] = EmptyString.
Proof. reflexivity. Qed.

Lemma joinTail_cons (sep x : string) (l : list string) :
  joinTail sep (x :: l) = sep +:+ String.concat sep (x :: l).
Proof. reflexivity. Qed.

Lemma concat_cons (sep x : string) (l : list string) :
  String.concat sep (x :: l) = x +:+ joinTail sep l.
Proof. destruct l; [apply eq_sym, string_app_nil_r | reflexivity]. Qed.

(** A line of the export and the lines of a file, as [join] builds them. *)
Definition lineOf (values : list CsvValue) : string :=
  String.concat "," (List.map csvEscape values).

Definition linesOf (rows : list (list CsvValue)) : string :=
  String.concat (String lineFeed EmptyString) (List.map lineOf rows).

Lemma linesOf_cons (v : CsvValue) (vs : list CsvValue) (rs : list (list CsvValue)) :
  linesOf ((v :: vs) :: rs)
  = csvEscape v +:+ (joinTail "," (List.map csvEscape vs)
                     +:+ joinTail (String lineFeed EmptyString) (List.map lineOf rs)).
Proof.
  unfold linesOf. cbn [List.map]. rewrite concat_cons. unfold lineOf at 1.
  cbn [List.map]. rewrite concat_cons. apply string_app_assoc.
Qed.

Lemma tails_fieldEnd (l l' : list string) :
  fieldEnd (joinTail "," l +:+ joinTail (String lineFeed EmptyString) l').
Proof.
  destruct l as [|x l]; [destruct l' as [|x' l']|].
  - now left.
  - right. eexists. right. reflexivity.
  - right. eexists. left. reflexivity.
Qed.

Lemma linesOf_first (v w : CsvValue) (vs ws : list CsvValue) (rs rs' : list (list CsvValue)) :
  linesOf ((v :: vs) :: rs) = linesOf ((w :: ws) :: rs') ->
  csvString v = csvString w
  /\ joinTail "," (List.map csvEscape vs)
     +:+ joinTail (String lineFeed EmptyString) (List.map lineOf rs)
     = joinTail "," (List.map csvEscape ws)
       +:+ joinTail (String lineFeed EmptyString) (List.map lineOf rs').
Proof.
  rewrite !linesOf_cons. intros Heq.
  pose proof (readField_csvEscape (csvString v) _
                (tails_fieldEnd (List.map csvEscape vs) (List.map lineOf rs))) as Hv.
  pose proof (readField_csvEscape (csvString w) _
                (tails_fieldEnd (List.map csvEscape ws) (List.map lineOf rs'))) as Hw.
  rewrite <- csvEscape_csvString in Hv, Hw. rewrite Heq, Hw in Hv.
  injection Hv as Hfield Htail. split; congruence.
Qed.

Lemma csvLines_unambiguous :
  forall rows rows' : list (list CsvValue),
    rows <> [] -> rows' <> [] ->
    Forall (fun r => r <> []) rows -> Forall (fun r => r <> []) rows' ->
    linesOf rows = linesOf rows' ->
    List.map (List.map csvString) rows = List.map (List.map csvString) rows'.
Proof.
  induction rows as [|r rs IHrows]; [congruence|].
  intros rows' _ Hne' Hwf Hwf' Heq. destruct rows' as [|r' rs']; [congruence|].
  apply Forall_cons in Hwf as [Hr Hrs]. apply Forall_cons in Hwf' as [Hr' Hrs'].
  clear Hne'. revert r' Hr' Heq. induction r as [|v vs IHr]; [congruence|].
  intros [|w ws] Hr' Heq; [congruence|].
  apply linesOf_first in Heq as [Hfield Htail]. cbn [List.map]. rewrite Hfield.
  destruct vs as [|v' vs], ws as [|w' ws]; cbn [List.map] in Htail;
    rewrite ?joinTail_nil, ?joinTail_cons, ?append_nil in Htail.
  - f_equal.
    destruct rs as [|r1 rs], rs' as [|r1' rs']; cbn [List.map] in Htail;
      rewrite ?joinTail_nil, ?joinTail_cons, ?append_cons, ?append_nil in Htail;
      try reflexivity; try discriminate.
    injection Htail as Htail. apply IHrows; try assumption; discriminate.
  - exfalso. destruct rs as [|r1 rs]; cbn [List.map] in Htail;
      rewrite ?joinTail_nil, ?joinTail_cons, ?append_cons, ?append_nil in Htail;
      discriminate.
  - exfalso. destruct rs' as [|r1' rs']; cbn [List.map] in Htail;
      rewrite ?joinTail_nil, ?joinTail_cons, ?append_cons, ?append_nil in Htail;
      discriminate.
  - rewrite !append_cons, !append_nil in Htail. injection Htail as Htail.
    assert (Hnext : linesOf ((v' :: vs) :: rs) = linesOf ((w' :: ws) :: rs')).
    { unfold linesOf. cbn [List.map]. rewrite !concat_cons. exact Htail. }
    specialize (IHr ltac:(discriminate) (w' :: ws) ltac:(discriminate) Hnext).
    cbn [List.map] in IHr |- *. injection IHr as H1 H2 H3. now rewrite H1, H2, H3.
Qed.

(** X16. What the export writes can be read back in one way only: two lists
    of rows (none empty, each row with at least one value) whose escaped
    fields, joined by commas into lines and by line feeds into a text, give
    the same text have the same rows with the same texts, field for field,
    whatever commas, quotes or line breaks the texts contain. *)
Theorem csvEscape_unambiguous :
  forall rows rows' : list (list CsvValue),
    rows <> [] -> rows' <> [] ->
    Forall (fun r => r <> []) rows -> Forall (fun r => r <> []) rows' ->
    String.concat (String lineFeed EmptyString)
                  (List.map (fun r => String.concat "," (List.map csvEscape r)) rows)
    = String.concat (String lineFeed EmptyString)
                    (List.map (fun r => String.concat "," (List.map csvEscape r)) rows') ->
    List.map (List.map csvString) rows = List.map (List.map csvString) rows'.
Proof. exact csvLines_unambiguous. Qed.

(** X17. [csvEscape] leaves a text without comma, quote and line break as it
    is; any other text it wraps in quotes, and between them every quote of
    the text appears twice, so that the closing quote is the only single
    one: reading the escaped field as a quoted field gives the text back. *)
Theorem csvEscape_spec :
  forall str : string,
    (testSpecial str = false -> csvEscape (CsvString str) = str)
    /\ (testSpecial str = true ->
        exists body, csvEscape (CsvString str) = String dquote (body +:+ String dquote EmptyString)
                     /\ String.length body
                        = (String.length str
                           + length (List.filter (Ascii.eqb dquote) (list_ascii_of_string str)))%nat
                     /\ readQuoted (body +:+ String dquote EmptyString) = Some (str, EmptyString)).
Proof.
  intros str. unfold csvEscape. cbn [csvString]. split; intros ->; [reflexivity|].
  exists (doubleQuotes str). split; [reflexivity|]. split.
  - induction str as [|c s IH]; [reflexivity|]. cbn [doubleQuotes list_ascii_of_string List.filter].
    rewrite (Ascii.eqb_sym dquote c). destruct (Ascii.eqb c dquote); cbn [String.length length];
      rewrite IH; lia.
  - apply readQuoted_doubleQuotes. now left.
Qed.

End CsvReading.

(** ** Lines of the export *)

Section ExportLines.
Variables unknownText yesText noText : string.
Variable headerTexts : list string.

Lemma toString_abs (a b : Z) : DateFns.toString a = DateFns.toString b -> Z.abs a = Z.abs b.
Proof.
  unfold DateFns.toString. intros H.
  assert (Hnonnil : forall n, N.to_uint n <> Decimal.Nil).
  { intros [|p]; [discriminate | apply DecimalPos.Unsigned.to_uint_nonnil]. }
  apply (f_equal NilZero.uint_of_string) in H.
  rewrite !NilZero.usu in H by apply Hnonnil. injection H as H.
  apply DecimalN.Unsigned.to_uint_inj in H. lia.
Qed.

Lemma toString_not_minus (n : Z) (s : string) : DateFns.toString n <> String "-" s.
Proof.
  intros H. destruct (toString_digits n) as [Hdig _]. cbv zeta in Hdig.
  rewrite H in Hdig. cbn [list_ascii_of_string] in Hdig.
  apply Forall_cons in Hdig as [Hd _]. discriminate.
Qed.

Lemma numberToString_inj (a b : Z) : numberToString a = numberToString b -> a = b.
Proof.
  unfold numberToString.
  destruct (Z.ltb_spec a 0) as [Ha|Ha], (Z.ltb_spec b 0) as [Hb|Hb];
    rewrite ?append_cons, ?append_nil; intros H.
  - injection H as H. apply toString_abs in H. lia.
  - symmetry in H. now apply toString_not_minus in H.
  - now apply toString_not_minus in H.
  - apply toString_abs in H. lia.
Qed.

Lemma statusString_inj (a b : TaskStatus) : statusString a = statusString b -> a = b.
Proof. destruct a, b; (reflexivity || discriminate). Qed.

Lemma append_inj_l (a b c : string) : a +:+ b = a +:+ c -> b = c.
Proof.
  induction a as [|x a IH]; [now rewrite !append_nil|].
  rewrite !append_cons. intros H. injection H as H. now apply IH.
Qed.

Lemma exported_texts (data data' : AppData.t) (t t' : Task.t) :
  yesText <> noText ->
  List.map csvString (Part006.exportFields unknownText yesText noText data t)
  = List.map csvString (Part006.exportFields unknownText yesText noText data' t') ->
  Task.title t = Task.title t' /\ Task.weekId t = Task.weekId t'
  /\ Task.status t = Task.status t' /\ Task.importance t = Task.importance t'
  /\ Task.completed t = Task.completed t'.
Proof.
  intros Hne H. unfold Part006.exportFields in H. cbn [List.map csvString] in H.
  injection H as _ Htitle Hweek Hstatus Himp Hdone.
  split; [exact Htitle|]. split; [exact Hweek|].
  split; [now apply statusString_inj|]. split; [now apply numberToString_inj|].
  destruct (Task.completed t), (Task.completed t'); congruence.
Qed.

(** X18. The text exported by the earlier copy of the application determines
    the tasks it was made from: if two boards are exported to the same text
    (the column titles being given and the texts for yes and no distinct),
    they have the same number of tasks and, in order, tasks with the same
    title, week, status, importance and completion, whatever commas, quotes
    or line breaks the titles contain. *)
Theorem handleExportCsv_distinguishes :
  forall (data data' : AppData.t),
    headerTexts <> [] -> yesText <> noText ->
    Part006.handleExportCsv unknownText yesText noText headerTexts data
    = Part006.handleExportCsv unknownText yesText noText headerTexts data' ->
    Forall2 (fun t t' =>
               Task.title t = Task.title t' /\ Task.weekId t = Task.weekId t'
               /\ Task.status t = Task.status t' /\ Task.importance t = Task.importance t'
               /\ Task.completed t = Task.completed t')
            (AppData.tasks data) (AppData.tasks data').
Proof.
  intros data data' Hhdr Hne H. unfold Part006.handleExportCsv, csvContent in H.
  apply append_inj_l in H.
  set (fields := Part006.exportFields unknownText yesText noText) in *.
  assert (Hshape : forall d,
            String.concat (String lineFeed EmptyString)
              (String.concat "," (List.map (fun h => csvEscape (CsvString h)) headerTexts)
               :: List.map (Part006.exportRow unknownText yesText noText d) (AppData.tasks d))
            = linesOf (List.map CsvString headerTexts
                       :: List.map (fields d) (AppData.tasks d))).
  { intros d. unfold linesOf. cbn [List.map]. unfold lineOf at 1.
    now rewrite !List.map_map. }
  rewrite !Hshape in H. apply csvLines_unambiguous in H; try discriminate.
  - cbn [List.map] in H. injection H as H. rewrite !List.map_map in H.
    revert H. generalize (AppData.tasks data').
    induction (AppData.tasks data) as [|t ts IH]; intros [|t' ts'] H; try discriminate;
      constructor.
    + apply (f_equal (hd [])) in H. cbn [List.map hd] in H.
      now apply (exported_texts data data' t t' Hne).
    + apply (f_equal (@tl _)) in H. cbn [List.map tl] in H. now apply IH.
  - apply Forall_cons. split; [now destruct headerTexts|].
    apply Forall_forall. intros r Hr. apply list_elem_of_In, in_map_iff in Hr as (t & <- & _).
    discriminate.
  - apply Forall_cons. split; [now destruct headerTexts|].
    apply Forall_forall. intros r Hr. apply list_elem_of_In, in_map_iff in Hr as (t & <- & _).
    discriminate.
Qed.

End ExportLines.

(** X19. In App.tsx the export fails on every board that has a task: the
    callback's parameter hides the translations, the text for the last
    column is read from a property the task does not have, and the
    TypeError leaves [handleExportCsv] before anything is downloaded.  Only
    a board without tasks is exported, as the line of column titles alone. *)
Theorem handleExportCsv_throws :
  forall (headerTexts : list string) (data : AppData.t),
    (AppData.tasks data <> [] -> handleExportCsv headerTexts data = None)
    /\ (AppData.tasks data = [] ->
        handleExportCsv headerTexts data
        = Some (csvContent
                  (String.concat "," (List.map (fun h => csvEscape (CsvString h)) headerTexts))
                  [])).
Proof.
  intros headerTexts data.
  assert (Hrow : forall t, exportRow data t = None).
  { intros t. unfold exportRow.
    assert (Hcsv : forall key, taskMember t "csv" key = None) by reflexivity.
    destruct (match find _ _ with Some _ => _ | None => _ end); [|reflexivity].
    cbn [mbind option_bind]. now destruct (Task.completed t); rewrite Hcsv. }
  unfold handleExportCsv. split.
  - destruct (AppData.tasks data) as [|t ts]; [congruence|]. intros _.
    cbn [mapM]. now rewrite Hrow.
  - intros ->. reflexivity.
Qed.

(** ** Deleting a task and the invariants of the board *)

Section DeletingTasks.

Lemma isTaskBlocked_true (task : Task.t) (allTasks : list Task.t) :
  isTaskBlocked task allTasks = true <->
  exists depId depTask,
    In depId (Task.dependencies task)
    /\ findTask allTasks depId = Some depTask /\ Task.completed depTask = false.
Proof.
  unfold isTaskBlocked. destruct (Task.dependencies task) as [|d ds].
  - cbn. split; [discriminate | intros (? & ? & [] & _)].
  - cbn [length Nat.eqb]. rewrite existsb_exists. split.
    + intros (x & Hin & Hx). destruct (findTask allTasks x) as [dt|] eqn:Hf; [|discriminate].
      exists x, dt. split; [exact Hin|]. split; [exact Hf|]. now destruct (Task.completed dt).
    + intros (x & dt & Hin & Hf & Hc). exists x. split; [exact Hin|]. now rewrite Hf, Hc.
Qed.

Lemma findTask_deleted (taskId depId : string) (prev : AppData.t) :
  depId <> taskId ->
  findTask (AppData.tasks (handleDeleteTask taskId prev)) depId
  = option_map (dropDependency taskId) (findTask (AppData.tasks prev) depId).
Proof.
  intros Hne. rewrite handleDeleteTask_tasks. unfold findTask.
  induction (AppData.tasks prev) as [|x l IH]; [reflexivity|].
  cbn [List.filter find]. destruct (String.eqb_spec (Task.id x) taskId) as [Hx|Hx].
  - cbn [negb]. destruct (String.eqb_spec (Task.id x) depId) as [Hd|_]; [congruence | exact IH].
  - cbn [negb List.map find]. cbn [dropDependency Task.with_dependencies Task.id].
    destruct (String.eqb (Task.id x) depId); [reflexivity | exact IH].
Qed.

(** X20. Deleting a task never blocks another one.  A surviving task is
    blocked afterwards exactly when one of its dependencies other than the
    deleted task resolves to an open task; so a task blocked after the
    deletion was blocked before, and a task that was blocked only by the
    deleted task is free. *)
Theorem handleDeleteTask_unblocks :
  forall (prev : AppData.t) (taskId : string) (t : Task.t),
    In t (AppData.tasks prev) -> Task.id t <> taskId ->
    let next := handleDeleteTask taskId prev in
    let t' := dropDependency taskId t in
    In t' (AppData.tasks next)
    /\ (isTaskBlocked t' (AppData.tasks next) = true <->
        exists depId depTask,
          In depId (Task.dependencies t) /\ depId <> taskId
          /\ findTask (AppData.tasks prev) depId = Some depTask
          /\ Task.completed depTask = false)
    /\ (isTaskBlocked t' (AppData.tasks next) = true ->
        isTaskBlocked t (AppData.tasks prev) = true).
Proof.
  intros prev taskId t Hin Hid next t'.
  assert (Hiff : isTaskBlocked t' (AppData.tasks next) = true <->
        exists depId depTask,
          In depId (Task.dependencies t) /\ depId <> taskId
          /\ findTask (AppData.tasks prev) depId = Some depTask
          /\ Task.completed depTask = false).
  { rewrite isTaskBlocked_true. subst t' next.
    cbn [dropDependency Task.with_dependencies Task.dependencies]. split.
    - intros (d & dt & Hd & Hf & Hc). apply List.filter_In in Hd as [Hd Hne].
      apply negb_true_iff in Hne. apply String.eqb_neq in Hne.
      rewrite (findTask_deleted _ _ _ Hne) in Hf.
      destruct (findTask (AppData.tasks prev) d) as [dt0|] eqn:Hf0; [|discriminate].
      injection Hf as <-. exists d, dt0. repeat split; assumption.
    - intros (d & dt & Hd & Hne & Hf & Hc). exists d, (dropDependency taskId dt).
      split; [|split].
      + apply List.filter_In. split; [exact Hd|]. apply negb_true_iff. now apply String.eqb_neq.
      + now rewrite (findTask_deleted _ _ _ Hne), Hf.
      + exact Hc. }
  split; [|split; [exact Hiff|]].
  - subst next t'. rewrite handleDeleteTask_tasks. apply in_map. apply List.filter_In.
    split; [exact Hin|]. apply negb_true_iff. now apply String.eqb_neq.
  - intros Hb. apply (proj1 Hiff) in Hb as (d & dt & Hd & _ & Hf & Hc).
    apply isTaskBlocked_true. eauto.
Qed.

Lemma NoDup_List_filter {A} (p : A -> bool) (l : list A) :
  NoDup l -> NoDup (List.filter p l).
Proof.
  induction l as [|i l IH]; intros Hnd; [constructor|].
  apply NoDup_cons in Hnd as [Hi Hnd]. cbn [List.filter].
  destruct (p i); [|now apply IH].
  apply NoDup_cons. split; [|now apply IH].
  intros Hin. apply Hi. apply list_elem_of_In in Hin. apply List.filter_In in Hin as [Hin _].
  now apply list_elem_of_In.
Qed.

Lemma acyclic_no_dependencies (l : list Task.t) :
  Forall (fun t => Task.dependencies t = []) l -> acyclic l.
Proof.
  intros Hall c Hc. apply tc_first_step in Hc as (v & (t & Ht & _ & Hv) & _).
  rewrite Forall_forall in Hall. rewrite (Hall t Ht) in Hv. now apply not_elem_of_nil in Hv.
Qed.

(** X21. Deleting a task keeps the board well formed: ids that were pairwise
    distinct stay so, an acyclic dependency graph stays acyclic, and if
    every dependency named a task of the board before, every dependency
    still listed afterwards names a task of the board. *)
Theorem handleDeleteTask_invariants :
  forall (prev : AppData.t) (taskId : string),
    let next := handleDeleteTask taskId prev in
    (NoDup (List.map Task.id (AppData.tasks prev)) ->
     NoDup (List.map Task.id (AppData.tasks next)))
    /\ (acyclic (AppData.tasks prev) -> acyclic (AppData.tasks next))
    /\ ((forall t d, In t (AppData.tasks prev) -> In d (Task.dependencies t) ->
                     In d (List.map Task.id (AppData.tasks prev))) ->
        forall t d, In t (AppData.tasks next) -> In d (Task.dependencies t) ->
                    In d (List.map Task.id (AppData.tasks next))).
Proof.
  intros prev taskId next. subst next. rewrite handleDeleteTask_tasks.
  set (keep := fun t : Task.t => negb (String.eqb (Task.id t) taskId)).
  assert (Hids : List.map Task.id (List.map (dropDependency taskId)
                                            (List.filter keep (AppData.tasks prev)))
                 = List.filter (fun i => negb (String.eqb i taskId))
                               (List.map Task.id (AppData.tasks prev))).
  { rewrite List.map_map. cbn [dropDependency Task.with_dependencies Task.id].
    induction (AppData.tasks prev) as [|x l IH]; [reflexivity|].
    cbn [List.filter List.map]. unfold keep at 1.
    destruct (negb (String.eqb (Task.id x) taskId)); cbn [List.map]; now rewrite IH. }
  split; [|split].
  - intros Hnd. rewrite Hids. now apply NoDup_List_filter.
  - intros Hac c Hc. apply (Hac c). eapply tc_incl; [|exact Hc].
    intros u v (t' & Ht' & Hu & Hv). apply list_elem_of_In in Ht'.
    apply in_map_iff in Ht' as (t & <- & Ht). apply List.filter_In in Ht as [Ht _].
    exists t. split; [now apply list_elem_of_In|]. split; [exact Hu|].
    cbn [dropDependency Task.with_dependencies Task.dependencies] in Hv.
    apply list_elem_of_In in Hv. apply List.filter_In in Hv as [Hv _].
    now apply list_elem_of_In.
  - intros Hres t' d Ht' Hd. rewrite Hids.
    apply in_map_iff in Ht' as (t & <- & Ht). apply List.filter_In in Ht as [Ht _].
    cbn [dropDependency Task.with_dependencies Task.dependencies] in Hd.
    apply List.filter_In in Hd as [Hd Hne]. apply List.filter_In. split; [|exact Hne].
    now apply (Hres t d).
Qed.

End DeletingTasks.

(** ** The plan table and the board *)

Section PlanTable.

(** The task a row is saved as. *)
Definition savedAs (row : PlanRow) (o : Task.t) : Task.t :=
  Task.mk (Task.id o) (Task.experimentId o)
          (PlanTaskItem.title (rowItem row)) (PlanTaskItem.description (rowItem row))
          (actualDate row) (Task.status o) (PlanTaskItem.importance (rowItem row))
          (Task.completed o) (Task.tags o) (Task.attachments o)
          (Task.dependencies o) (Task.recurrenceGroupId o) (Task.planTaskId o).

Lemma findTask_filter (p : Task.t -> bool) (l : list Task.t) (t : Task.t) :
  NoDup (List.map Task.id l) -> In t l -> p t = true ->
  findTask (List.filter p l) (Task.id t) = Some t.
Proof.
  intros Hnd Hin Hp. apply findTask_unique.
  - clear Hin. induction l as [|x l IH]; [constructor|].
    cbn [List.map] in Hnd. apply NoDup_cons in Hnd as [Hx Hnd]. cbn [List.filter].
    destruct (p x); [|now apply IH]. cbn [List.map]. apply NoDup_cons. split; [|now apply IH].
    intros Hin. apply Hx. apply list_elem_of_In in Hin. apply in_map_iff in Hin as (y & Hy & Hin).
    apply List.filter_In in Hin as [Hin _]. rewrite <- Hy. now apply list_elem_of_In, in_map.
  - apply List.filter_In. now split.
Qed.

Lemma savePlanChanges_fold (experimentTasks : list Task.t) :
  forall (rows : list PlanRow) (shown acc : list Task.t),
    Forall2 (fun r t => actualTaskId r = Some (Task.id t)
                        /\ findTask experimentTasks (Task.id t) = Some t) rows shown ->
    fold_left
      (fun updatedTasks row =>
         match match actualTaskId row with
               | Some a => findTask experimentTasks a
               | None => None
               end with
         | Some o =>
             updatedTasks ++
             [Task.mk (Task.id o) (Task.experimentId o)
                      (PlanTaskItem.title (rowItem row))
                      (PlanTaskItem.description (rowItem row))
                      (actualDate row) (Task.status o)
                      (PlanTaskItem.importance (rowItem row))
                      (Task.completed o) (Task.tags o) (Task.attachments o)
                      (Task.dependencies o) (Task.recurrenceGroupId o) (Task.planTaskId o)]
         | None => updatedTasks
         end)
      rows acc
    = acc ++ zip_with savedAs rows shown.
Proof.
  induction rows as [|r rows IH]; intros shown acc H; inversion H as [|? t ? shown' [Ha Hf] Hrest];
    subst; cbn [fold_left zip_with].
  - now rewrite app_nil_r.
  - rewrite Ha, Hf, (IH shown' _ Hrest), <- app_assoc. reflexivity.
Qed.

(** X22. Saving the plan table writes each row onto the task it shows: on a
    board with pairwise distinct ids, rows showing tasks of the experiment
    are saved as those tasks, in the order of the rows, with title,
    description, importance and week taken from the row and everything else
    from the task.  In particular the rows built from tasks of the
    experiment and not edited are saved as exactly those tasks, and handing
    them to [handleUpdateExperiment] only reorders the tasks of the board. *)
Theorem savePlanChanges_spec :
  forall (tz : LocalTime.TimeZone) (prev : AppData.t) (experiment edited : Experiment.t)
         (rows : list PlanRow) (shown : list Task.t),
    NoDup (List.map Task.id (AppData.tasks prev)) ->
    Forall (fun t => In t (AppData.tasks prev)
                     /\ Task.experimentId t = Experiment.id experiment) shown ->
    (Forall2 (fun r t => actualTaskId r = Some (Task.id t)) rows shown ->
     savePlanChanges (AppData.tasks prev) experiment rows = zip_with savedAs rows shown)
    /\ savePlanChanges (AppData.tasks prev) experiment (List.map (rowOf tz experiment) shown)
       = shown
    /\ (NoDup shown ->
        AppData.tasks
          (handleUpdateExperiment edited
             (Some (savePlanChanges (AppData.tasks prev) experiment
                                    (List.map (rowOf tz experiment) shown)))
             prev)
        ≡ₚ AppData.tasks prev).
Proof.
  intros tz prev experiment edited rows shown Hnd Hshown.
  set (mine := fun t => String.eqb (Task.experimentId t) (Experiment.id experiment)).
  assert (Hfind : forall t, In t shown ->
            findTask (List.filter mine (AppData.tasks prev)) (Task.id t) = Some t).
  { intros t Ht. rewrite Forall_forall in Hshown.
    destruct (Hshown t (proj2 (list_elem_of_In _ _) Ht)) as [Hin Hexp].
    apply findTask_filter; [exact Hnd | exact Hin |]. unfold mine. now apply String.eqb_eq. }
  assert (Hgen : forall rows',
            Forall2 (fun r t => actualTaskId r = Some (Task.id t)) rows' shown ->
            savePlanChanges (AppData.tasks prev) experiment rows' = zip_with savedAs rows' shown).
  { intros rows' Hrows. unfold savePlanChanges. fold mine.
    rewrite (savePlanChanges_fold _ rows' shown []); [reflexivity|].
    clear Hshown. induction Hrows as [|r t rs ts Hr _ IH]; constructor.
    - split; [exact Hr|]. apply Hfind. now left.
    - apply IH. intros t' Ht'. apply Hfind. now right. }
  assert (Hsame : savePlanChanges (AppData.tasks prev) experiment
                                  (List.map (rowOf tz experiment) shown) = shown).
  { rewrite Hgen.
    - clear. induction shown as [|t ts IH]; [reflexivity|]. cbn [List.map zip_with].
      rewrite IH. f_equal. now destruct t.
    - clear. induction shown as [|t ts IH]; constructor; [reflexivity | exact IH]. }
  split; [exact (Hgen rows)|]. split; [exact Hsame|].
  intros Hnds. rewrite Hsame. unfold handleUpdateExperiment. cbn [AppData.tasks].
  assert (Hsub : forall t, t ∈ shown -> t ∈ AppData.tasks prev).
  { intros t Ht. rewrite Forall_forall in Hshown. apply list_elem_of_In. now apply Hshown. }
  assert (Hids : forall t, t ∈ AppData.tasks prev ->
            (Task.id t ∈ (list_to_set (List.map Task.id shown) : gset string)) <-> t ∈ shown).
  { intros t Ht. rewrite elem_of_list_to_set. split.
    - intros Hin. apply list_elem_of_In, in_map_iff in Hin as (t' & Hid & Ht').
      apply list_elem_of_In in Ht'.
      assert (t' = t); [|now subst].
      apply (same_id_same_task (AppData.tasks prev)); try assumption;
        apply list_elem_of_In; auto.
    - intros Hin. apply list_elem_of_In, in_map. now apply list_elem_of_In. }
  apply NoDup_Permutation.
  - apply NoDup_app. split; [|split; [|exact Hnds]].
    + apply NoDup_List_filter. eapply NoDup_fmap_1. exact Hnd.
    + intros t Ht Hs. apply list_elem_of_In, List.filter_In in Ht as [Ht Hb].
      apply list_elem_of_In in Ht. apply negb_true_iff, bool_decide_eq_false in Hb.
      apply Hb. now apply Hids.
  - eapply NoDup_fmap_1. exact Hnd.
  - intros t. rewrite elem_of_app. split.
    + intros [Ht|Ht]; [|now apply Hsub].
      apply list_elem_of_In, List.filter_In in Ht as [Ht _]. now apply list_elem_of_In.
    + intros Ht.
      destruct (decide (Task.id t ∈ (list_to_set (List.map Task.id shown) : gset string)))
        as [Hs|Hs]; [right; now apply Hids | left].
      apply list_elem_of_In, List.filter_In. split; [now apply list_elem_of_In|].
      now apply negb_true_iff, bool_decide_eq_false.
Qed.

End PlanTable.

(** ** Saving what the wizard made *)

Section SavingTheWizard.
Variable uuid : nat -> string.

Lemma depGraph_app_no_dependencies (l new : list Task.t) (u v : string) :
  Forall (fun t => Task.dependencies t = []) new ->
  depGraph (l ++ new) u v -> depGraph l u v.
Proof.
  intros Hnew (t & Ht & Hu & Hv). apply elem_of_app in Ht as [Ht|Ht].
  - exists t. auto.
  - rewrite Forall_forall in Hnew. rewrite (Hnew t Ht) in Hv. now apply not_elem_of_nil in Hv.
Qed.

(** X23. Saving the output of the wizard keeps the board well formed.  When
    [handleFinish] returns and the experiment saved carries the id it drew,
    then on the board after [handleSaveExperiment]: every task still
    belongs to an experiment of the board, if that held before; the
    dependency graph is acyclic, if it was; none of the new tasks is
    blocked; and the ids of the tasks are pairwise distinct, if they were
    and the identifiers drawn are distinct from one another and from the
    ids already on the board. *)
Theorem handleSaveExperiment_wizard :
  forall (fuel : nat) (startDate : string) (draftTasks : list EditableTask)
         (k k' : nat) (experimentId : string) (masterPlan : list PlanTaskItem.t)
         (finalTasks : list Task.t) (experiment : Experiment.t) (prev : AppData.t),
    handleFinish uuid fuel startDate draftTasks k
      = (Done (experimentId, masterPlan, finalTasks), k') ->
    Experiment.id experiment = experimentId ->
    let next := handleSaveExperiment experiment finalTasks prev in
    (noOrphans prev -> noOrphans next)
    /\ (acyclic (AppData.tasks prev) -> acyclic (AppData.tasks next))
    /\ (forall t, In t finalTasks -> isTaskBlocked t (AppData.tasks next) = false)
    /\ ((forall i j, uuid i = uuid j -> i = j) ->
        (forall j, ~ In (uuid j) (List.map Task.id (AppData.tasks prev))) ->
        NoDup (List.map Task.id (AppData.tasks prev)) ->
        NoDup (List.map Task.id (AppData.tasks next))).
Proof.
  intros fuel startDate draftTasks k k' eid plan tasks experiment prev Hrun Hid next.
  destruct (handleFinish_output uuid _ _ _ _ _ _ _ _ Hrun) as (Heid & Hall & Hids).
  assert (Hnodeps : Forall (fun t => Task.dependencies t = []) tasks).
  { eapply Forall_impl; [exact Hall|]. intros t (d & _ & Hinst). apply Hinst. }
  subst next. unfold handleSaveExperiment. cbn [AppData.tasks AppData.experiments].
  split; [|split; [|split]].
  - intros Hno t Ht. cbn [AppData.tasks AppData.experiments] in *.
    rewrite List.map_app. apply in_app_iff. apply in_app_iff in Ht as [Ht|Ht].
    + left. now apply Hno.
    + right. cbn. left. rewrite Forall_forall in Hall.
      destruct (Hall t (proj2 (list_elem_of_In _ _) Ht)) as (d & _ & Hinst).
      rewrite Hid. symmetry. apply Hinst.
  - intros Hac c Hc. apply (Hac c). eapply tc_incl; [|exact Hc].
    intros u v. now apply depGraph_app_no_dependencies.
  - intros t Ht. rewrite Forall_forall in Hnodeps.
    unfold isTaskBlocked. now rewrite (Hnodeps t (proj2 (list_elem_of_In _ _) Ht)).
  - intros Hinj Hfresh Hnd. destruct (Hids Hinj) as [Hndt _].
    rewrite List.map_app. apply NoDup_app. split; [exact Hnd|]. split; [|exact Hndt].
    intros i Hi Hi'. apply list_elem_of_In in Hi, Hi'.
    destruct (handleFinish_ids uuid _ _ _ _ _ _ _ _ Hrun) as (idxs & Hm).
    rewrite Hm in Hi'. apply in_map_iff in Hi' as (j & <- & _). now apply (Hfresh j).
Qed.

End SavingTheWizard.

(** ** Worked examples *)

(** Pairwise distinctness of a list of literal identifiers. *)
Ltac distinct_ids :=
  repeat (apply NoDup_cons; split;
          [rewrite ?not_elem_of_cons; repeat split; try discriminate; apply not_elem_of_nil|]);
  apply NoDup_nil_2.

(** Task "a" waits for task "b". *)
Definition linkedTasks : list Task.t :=
  [sampleTask "a" "e" "2024-01-07" false ["b"];
   sampleTask "b" "e" "2024-01-07" false []].

Lemma linkedTasks_distinct : NoDup (List.map Task.id linkedTasks).
Proof. cbn. distinct_ids. Qed.

Lemma linkedTasks_edge (u v : string) : depGraph linkedTasks u v -> u = "a" /\ v = "b".
Proof.
  intros (t & Ht & Hu & Hv). unfold linkedTasks in Ht.
  rewrite !elem_of_cons in Ht. destruct Ht as [->|[->|Ht]].
  - cbn in Hu, Hv. apply list_elem_of_singleton in Hv. auto.
  - cbn in Hv. now apply not_elem_of_nil in Hv.
  - now apply not_elem_of_nil in Ht.
Qed.

Lemma linkedTasks_acyclic : acyclic linkedTasks.
Proof.
  intros c Hc. apply tc_first_step in Hc as (v & Hcv & Hvc).
  apply linkedTasks_edge in Hcv as [-> ->].
  inversion Hvc as [|? y ? Hby _].
  apply linkedTasks_edge in Hby as [Hb _]. discriminate.
Qed.

Lemma hasCircularDependency_acyclic_witness :
  hasCircularDependency linkedTasks "b" "a" = Some true
  /\ rtc (depGraph linkedTasks) "a" "b".
Proof.
  destruct (hasCircularDependency_acyclic linkedTasks "b" "a"
              linkedTasks_distinct linkedTasks_acyclic) as (b & Hb & Hiff).
  assert (Hrun : hasCircularDependency linkedTasks "b" "a" = Some true)
    by (vm_compute; reflexivity).
  split; [exact Hrun|]. apply Hiff. rewrite Hrun in Hb. now injection Hb.
Defined.


Lemma handleUpdateTask_lookup_witness :
  findTask (AppData.tasks (handleUpdateTask (sampleTask "t" "e" "2024-01-21" true []) sampleBoard))
           "t"
  = Some (sampleTask "t" "e" "2024-01-21" true [])
  /\ NoDup (List.map Task.id
              (AppData.tasks (handleUpdateTask (sampleTask "t" "e" "2024-01-21" true [])
                                               sampleBoard))).
Proof.
  destruct (handleUpdateTask_lookup (sampleTask "t" "e" "2024-01-21" true []) sampleBoard)
    as (Hfind & _ & _ & Hdistinct).
  split; [exact Hfind|]. apply Hdistinct. cbn. distinct_ids.
Defined.

Lemma stripRecurrenceSuffix_instance_witness :
  stripRecurrenceSuffix ("Feed" +:+ " (" +:+ numberToString 12 +:+ ")") = "Feed".
Proof. apply (stripRecurrenceSuffix_instance "Feed" 12). lia. Defined.

(** An experiment with a one-entry master plan, and the second instance of
    that entry. *)
Definition feedPlanItem : PlanTaskItem.t :=
  PlanTaskItem.mk "p1" "Feed" "" 2 3 DEFAULT None [].

Definition plannedExperiment : Experiment.t :=
  Experiment.mk "e" "E" "" [] "2024-01-07" None 4 active [] None (Some [feedPlanItem]) None None.

Definition secondFeeding : Task.t :=
  Task.mk "t2" "e" "Feed (2)" "" "2024-02-04" DEFAULT 3 false [] [] [] (Some "g") (Some "p1").

Lemma handleUpdateTask_untouched_plan_witness :
  AppData.experiments (handleUpdateTask secondFeeding (AppData.mk [plannedExperiment] [] 1 []))
  = [plannedExperiment].
Proof.
  apply (handleUpdateTask_untouched_plan
           (AppData.mk [plannedExperiment] [] 1 []) secondFeeding plannedExperiment
           [feedPlanItem] feedPlanItem 0%nat 0%nat "p1"); try reflexivity.
  cbn. split; [discriminate|]. exists 2. split; [lia | vm_compute; reflexivity].
Defined.

Lemma handleRemoveDependency_undoes_add_witness :
  handleRemoveDependency (sampleTask "a" "e" "2024-01-07" false ["b"]) "b"
  = sampleTask "a" "e" "2024-01-07" false [].
Proof.
  apply (handleRemoveDependency_undoes_add
           linkedTasks (sampleTask "a" "e" "2024-01-07" false [])
           (sampleTask "a" "e" "2024-01-07" false ["b"]) "b").
  - intros [].
  - vm_compute. reflexivity.
Defined.

Lemma handleArchiveExperiment_involutive_witness :
  List.map Experiment.status (AppData.experiments (handleArchiveExperiment "e" shiftBoard))
  = [archived]
  /\ handleRestoreExperiment "e" (handleArchiveExperiment "e" shiftBoard) = shiftBoard.
Proof.
  destruct (handleArchiveExperiment_involutive "e" shiftBoard)
    as ((Htoggled & _) & _ & _ & Hrestore).
  split.
  - cbn [shiftBoard AppData.experiments] in Htoggled.
    apply Forall2_cons_inv_l in Htoggled as (e' & l & [_ He'] & Hl & ->).
    apply Forall2_nil_inv_l in Hl. subst l.
    destruct (He' eq_refl) as [Hstatus _]. cbn [List.map]. now rewrite Hstatus.
  - apply Hrestore. intros e [<-|[]] _. reflexivity.
Defined.

(** A board with two experiments and a task of each. *)
Definition twoExperiments : AppData.t :=
  AppData.mk
    [plannedExperiment; experiment_with_id "f" plannedExperiment]
    [sampleTask "a" "e" "2024-01-07" false [];
     sampleTask "b" "f" "2024-01-14" false ["a"]]
    1 [].

Lemma twoExperiments_noOrphans : noOrphans twoExperiments.
Proof. intros t [<-|[<-|[]]]; cbn; auto. Qed.

Lemma handleDeleteExperiment_spec_witness :
  noOrphans (handleDeleteExperiment "f" twoExperiments).
Proof.
  destruct (handleDeleteExperiment_spec "f" twoExperiments) as (_ & _ & Hkeeps & _).
  apply Hkeeps. exact twoExperiments_noOrphans.
Defined.

Lemma handleUpdateExperiment_tasks_witness :
  NoDup (List.map Task.id
           (AppData.tasks
              (handleUpdateExperiment plannedExperiment
                 (Some [sampleTask "b" "f" "2024-01-21" true []; sampleTask "c" "e" "2024-01-21" false []])
                 twoExperiments))).
Proof.
  destruct (handleUpdateExperiment_tasks plannedExperiment
              [sampleTask "b" "f" "2024-01-21" true []; sampleTask "c" "e" "2024-01-21" false []]
              twoExperiments) as (_ & _ & _ & Hdistinct & _).
  apply Hdistinct; cbn; distinct_ids.
Defined.

(** [shiftBoard] one week later. *)
Definition shiftedBoard : AppData.t :=
  AppData.mk
    [Experiment.mk "e" "E" "" [] "2024-01-07" (Some "2024-03-10") 4 active [] None None None None]
    [sampleTask "a" "e" "2024-01-14" false [];
     sampleTask "b" "e" "2024-01-14" true [];
     sampleTask "c" "e" "2024-01-28" false ["a"];
     sampleTask "z" "other" "2024-01-21" false []]
    1 [].

(** [shiftedBoard] one more week later. *)
Definition twiceShiftedBoard : AppData.t :=
  AppData.mk
    [Experiment.mk "e" "E" "" [] "2024-01-07" (Some "2024-03-17") 4 active [] None None None None]
    [sampleTask "a" "e" "2024-01-21" false [];
     sampleTask "b" "e" "2024-01-14" true [];
     sampleTask "c" "e" "2024-02-04" false ["a"];
     sampleTask "z" "other" "2024-01-21" false []]
    1 [].

(** Settle a range condition on the dates of a literal board. *)
Ltac literal_dates Hp Hwhere :=
  cbn in Hwhere;
  repeat match goal with
         | H : _ \/ _ |- _ => destruct H as [H|H]
         | H : exists _, _ |- _ => destruct H
         | H : _ /\ _ |- _ => destruct H
         | H : False |- _ => destruct H
         end;
  subst; cbn in *;
  repeat match goal with
         | H : Some _ = Some _ |- _ => injection H as H; subst
         end;
  vm_compute in Hp; injection Hp as <-;
  unfold fourDigitYear; vm_compute; (split; [discriminate | reflexivity]).

Lemma handleShiftExperimentTimeline_twice_witness :
  handleShiftExperimentTimeline "e" 2 shiftedBoard
  = handleShiftExperimentTimeline "e" (1 + 2) shiftBoard.
Proof.
  apply (handleShiftExperimentTimeline_twice shiftBoard shiftedBoard "e" 1 2); try lia.
  - intros w d Hp Hwhere. literal_dates Hp Hwhere.
  - vm_compute. reflexivity.
Defined.

Lemma handleShiftExperimentTimeline_undo_witness :
  handleShiftExperimentTimeline "e" (- (1)) twiceShiftedBoard = Some shiftedBoard.
Proof.
  apply (handleShiftExperimentTimeline_undo shiftedBoard twiceShiftedBoard "e" 1); try lia.
  - intros w d Hp Hwhere. literal_dates Hp Hwhere.
  - intros t Hin _ _. cbn in Hin.
    destruct Hin as [<-|[<-|[<-|[<-|[]]]]]; vm_compute; reflexivity.
  - intros e w Hin _ Hend. cbn in Hin. destruct Hin as [<-|[]].
    cbn in Hend. injection Hend as <-. vm_compute. reflexivity.
  - vm_compute. reflexivity.
Defined.

(** The wizard with one selected entry, [feedPlanItem]. *)
Definition wizardDrafts : list EditableTask := [mkEditableTask feedPlanItem true None].

Lemma sampleUuid_inj (i j : nat) : sampleUuid i = sampleUuid j -> i = j.
Proof.
  unfold sampleUuid. rewrite !append_cons, !append_nil. intros H. injection H as H.
  apply numberToString_inj in H. lia.
Qed.

Lemma sampleUuid_nonempty (j : nat) : sampleUuid j <> "".
Proof. unfold sampleUuid. rewrite append_cons. discriminate. Qed.

Lemma handleFinish_spec_witness :
  exists experimentId masterPlan finalTasks k',
    handleFinish sampleUuid 0 "2024-01-07" wizardDrafts 0%nat
    = (Done (experimentId, masterPlan, finalTasks), k')
    /\ experimentId = sampleUuid 0
    /\ NoDup (List.map Task.id finalTasks).
Proof.
  destruct (handleFinish sampleUuid 0 "2024-01-07" wizardDrafts 0%nat)
    as [[[[experimentId masterPlan] finalTasks]| |] k'] eqn:Hrun;
    [|vm_compute in Hrun; discriminate..].
  exists experimentId, masterPlan, finalTasks, k'. split; [reflexivity|].
  destruct (handleFinish_spec sampleUuid _ _ _ _ _ _ _ _ Hrun) as (Hid & _ & Hdistinct).
  split; [exact Hid|]. now apply Hdistinct, sampleUuid_inj.
Defined.

Lemma handleFinish_single_tasks_witness :
  exists finalTasks,
    handleFinish sampleUuid 0 "2024-01-07" wizardDrafts 0%nat
    = (Done (sampleUuid 0, [feedPlanItem], finalTasks), 2%nat)
    /\ List.map Task.id finalTasks = [sampleUuid 1].
Proof.
  destruct (handleFinish_single_tasks sampleUuid 0 "2024-01-07" (DateFns.mkDateTime 19729 0)
              wizardDrafts 0%nat) as (finalTasks & Hrun & Hids & _).
  - reflexivity.
  - intros e [<-|[]] _. split; [reflexivity | cbn; lia].
  - exists finalTasks. split; [exact Hrun | exact Hids].
Defined.

Lemma handleMergeImport_spec_witness :
  exists newExperiments newTasks,
    handleMergeImport sampleUuid (Some twoExperiments) sampleBoard 5%nat
    = (Done (AppData.mk (AppData.experiments sampleBoard ++ newExperiments)
                        (AppData.tasks sampleBoard ++ newTasks) 1 []),
       9%nat)
    /\ List.map Task.id newTasks = [sampleUuid 7; sampleUuid 8].
Proof.
  destruct (handleMergeImport_spec sampleUuid twoExperiments sampleBoard 5%nat
              sampleUuid_nonempty) as (newExperiments & newTasks & Hrun & _ & Hids & _).
  exists newExperiments, newTasks. split; [exact Hrun | exact Hids].
Defined.

Lemma csvEscape_unambiguous_witness :
  List.map (List.map csvString) [[CsvNumber 3; CsvNullish]; [CsvString "a,b"]]
  = List.map (List.map csvString) [[CsvString "3"; CsvString ""]; [CsvString "a,b"]].
Proof.
  apply (csvEscape_unambiguous [[CsvNumber 3; CsvNullish]; [CsvString "a,b"]]
                               [[CsvString "3"; CsvString ""]; [CsvString "a,b"]]).
  - discriminate.
  - discriminate.
  - repeat (apply Forall_cons_2; [discriminate|]). apply Forall_nil_2.
  - repeat (apply Forall_cons_2; [discriminate|]). apply Forall_nil_2.
  - vm_compute. reflexivity.
Defined.

Lemma csvEscape_spec_witness :
  csvEscape (CsvString "week 3") = "week 3"
  /\ exists body,
       csvEscape (CsvString "feed, weigh") = String dquote (body +:+ String dquote EmptyString)
       /\ readQuoted (body +:+ String dquote EmptyString) = Some ("feed, weigh", EmptyString).
Proof.
  split.
  - apply (proj1 (csvEscape_spec "week 3")). reflexivity.
  - destruct (proj2 (csvEscape_spec "feed, weigh") eq_refl) as (body & Hbody & _ & Hread).
    exists body. split; assumption.
Defined.

Lemma handleExportCsv_distinguishes_witness :
  Forall2 (fun t t' =>
             Task.title t = Task.title t' /\ Task.weekId t = Task.weekId t'
             /\ Task.status t = Task.status t' /\ Task.importance t = Task.importance t'
             /\ Task.completed t = Task.completed t')
          (AppData.tasks (AppData.mk [] linkedTasks 1 []))
          (AppData.tasks (AppData.mk [plannedExperiment; plannedExperiment]
                                     [sampleTask "c" "x" "2024-01-07" false [];
                                      sampleTask "d" "y" "2024-01-07" false ["c"]] 2 [])).
Proof.
  apply (handleExportCsv_distinguishes "unknown" "yes" "no" ["experiment"; "task"; "done"]).
  - discriminate.
  - discriminate.
  - vm_compute. reflexivity.
Defined.

Lemma handleExportCsv_throws_witness :
  handleExportCsv ["experiment"; "task"; "done"] sampleBoard = None.
Proof.
  apply (proj1 (handleExportCsv_throws ["experiment"; "task"; "done"] sampleBoard)).
  discriminate.
Defined.

Lemma handleDeleteTask_unblocks_witness :
  In (sampleTask "t" "e" "2024-01-14" false ["x"])
     (AppData.tasks (handleDeleteTask "d" sampleBoard))
  /\ (isTaskBlocked (sampleTask "t" "e" "2024-01-14" false ["x"])
                    (AppData.tasks (handleDeleteTask "d" sampleBoard)) = true ->
      isTaskBlocked (sampleTask "t" "e" "2024-01-14" false ["d"; "x"])
                    (AppData.tasks sampleBoard) = true).
Proof.
  destruct (handleDeleteTask_unblocks sampleBoard "d"
              (sampleTask "t" "e" "2024-01-14" false ["d"; "x"]))
    as (Hin & _ & Hwas).
  - cbn. auto.
  - discriminate.
  - split; [exact Hin | exact Hwas].
Defined.

Lemma handleDeleteTask_invariants_witness :
  NoDup (List.map Task.id (AppData.tasks (handleDeleteTask "a" (AppData.mk [] linkedTasks 1 []))))
  /\ acyclic (AppData.tasks (handleDeleteTask "a" (AppData.mk [] linkedTasks 1 []))).
Proof.
  destruct (handleDeleteTask_invariants (AppData.mk [] linkedTasks 1 []) "a")
    as (Hdistinct & Hacyclic & _).
  split; [apply Hdistinct, linkedTasks_distinct | apply Hacyclic, linkedTasks_acyclic].
Defined.

Lemma savePlanChanges_spec_witness :
  savePlanChanges (AppData.tasks shiftBoard)
    (Experiment.mk "e" "E" "" [] "2024-01-07" (Some "2024-03-06") 4 active [] None None None None)
    (List.map
       (rowOf LocalTime.noClockChanges (Experiment.mk "e" "E" "" [] "2024-01-07" (Some "2024-03-06") 4 active []
                             None None None None))
       [sampleTask "c" "e" "2024-01-21" false ["a"]; sampleTask "a" "e" "2024-01-07" false []])
  = [sampleTask "c" "e" "2024-01-21" false ["a"]; sampleTask "a" "e" "2024-01-07" false []].
Proof.
  destruct (savePlanChanges_spec LocalTime.noClockChanges shiftBoard
              (Experiment.mk "e" "E" "" [] "2024-01-07" (Some "2024-03-06") 4 active []
                             None None None None)
              (Experiment.mk "e" "E" "" [] "2024-01-07" (Some "2024-03-06") 4 active []
                             None None None None)
              []
              [sampleTask "c" "e" "2024-01-21" false ["a"];
               sampleTask "a" "e" "2024-01-07" false []])
    as (_ & Hsame & _).
  - cbn. distinct_ids.
  - repeat (apply Forall_cons_2; [split; [cbn; tauto | reflexivity]|]). apply Forall_nil_2.
  - exact Hsame.
Defined.

Lemma handleSaveExperiment_wizard_witness :
  exists experimentId masterPlan finalTasks k',
    handleFinish sampleUuid 0 "2024-01-07" wizardDrafts 0%nat
    = (Done (experimentId, masterPlan, finalTasks), k')
    /\ noOrphans (handleSaveExperiment (experiment_with_id experimentId plannedExperiment)
                                       finalTasks twoExperiments).
Proof.
  destruct (handleFinish sampleUuid 0 "2024-01-07" wizardDrafts 0%nat)
    as [[[[experimentId masterPlan] finalTasks]| |] k'] eqn:Hrun;
    [|vm_compute in Hrun; discriminate..].
  exists experimentId, masterPlan, finalTasks, k'. split; [reflexivity|].
  destruct (handleSaveExperiment_wizard sampleUuid _ _ _ _ _ _ _ _
              (experiment_with_id experimentId plannedExperiment) twoExperiments
              Hrun eq_refl) as (Hkeeps & _).
  apply Hkeeps, twoExperiments_noOrphans.
Defined.
